(** * Interview analysis server: scorers and dispatcher

    A shallow embedding of the Python analysis server
    ([python_analysis_server/app.py] and its three services) and the
    properties of its scoring functions.

    Modelling conventions.
    - A Python [str] is a sequence of Unicode code points, [ustring].
      Whitespace ([str.split], [str.strip], [\s]) is the set of the 29 code
      points for which [str.isspace] holds.  The two parts of the Unicode
      database that are too large to write down, [str.isalnum] (behind [\w]
      and [\b]) and [str.lower], are a parameter, the record [Str.unicode];
      what the development needs of them is the contract [unicode_ok].
      Keys and labels that the program writes as ASCII literals (dict keys,
      category names, error messages) are Rocq [string]s.
    - Python numbers are exact rationals [Q], a JSON integer being [PInt] and
      a JSON real [PFloat]; [round(x, n)] is rounding to [n] decimals, ties to
      even.  The interpreter computes with binary floating point, so a
      computed number can differ from the exact one in its last place, and a
      rounding can fall on the other side of a tie.  Statements about computed
      numbers are therefore stated as bounds, and as closeness to the exact
      value with room for that difference, never as an equality of unrounded
      quotients.  The non-finite floats ([inf], [nan]) are no values of the
      model: where the interpreter can overflow, a statement is restricted
      to exact values within the range of floats.
    - A Python exception is a value [Raise kind msg] of the error monad [exc];
      [try/except Exception] is a match on it.
    - Python dicts with a fixed set of keys are records; a scorer result, which
      is either an error dict or a full dict, is a two-constructor inductive
      with a function listing its keys.  Dicts built key by key are [gmap]s
      (when only their content matters) or association lists (when the
      insertion order is observed).
    - The libraries the services call (NLTK's tokenizer and stop words,
      TextBlob's estimator, the [random] module) are parameters: the records
      [nlp] and [generator]. *)

From Stdlib Require Import Ascii String QArith Qround Qabs Lqa.
From stdpp Require Import gmap strings list fin_maps.

Local Open Scope string_scope.
Local Open Scope list_scope.
Local Open Scope nat_scope.

(** ** Characters and strings *)

(** A Python [str]: its code points. *)
Definition ustring : Type := list N.

Module Str.

(** The [str] that the source writes as an ASCII literal. *)
Fixpoint of_string (s : string) : ustring :=
  match s with
  | EmptyString => []
  | String c s' => N_of_ascii c :: of_string s'
  end.

Definition between (lo hi c : N) : bool :=
  ((lo <=? c) && (c <=? hi))%N.

(** [str.isspace] on one character, which is also [\s] and the whitespace of
    [str.split] and [str.strip]: TAB to CR, FS to US, the space, NEL, the
    no-break space, the Ogham space mark, EN QUAD to HAIR SPACE, the line and
    paragraph separators, the narrow no-break space, the medium mathematical
    space and the ideographic space. *)
Definition is_space (c : N) : bool :=
  between 9 13 c || between 28 32 c || (c =? 133)%N || (c =? 160)%N
  || (c =? 5760)%N || between 8192 8202 c || between 8232 8233 c
  || (c =? 8239)%N || (c =? 8287)%N || (c =? 12288)%N.

(** The Unicode database of the interpreter, as far as the services use it:
    [str.isalnum] on one character, and [str.lower]. *)
Record unicode : Type := {
  isalnum : N -> bool;
  lower : ustring -> ustring
}.

(** [\w]: a letter, a digit, or the underscore. *)
Definition is_word (U : unicode) (c : N) : bool :=
  isalnum U c || (c =? 95)%N.

(** The two on ASCII. *)
Definition ascii_isalnum (c : N) : bool :=
  between 48 57 c || between 65 90 c || between 97 122 c.

Definition ascii_lower (c : N) : N :=
  if between 65 90 c then (c + 32)%N else c.

Definition is_empty (s : ustring) : bool :=
  match s with [] => true | _ => false end.

Fixpoint eqb (a b : ustring) : bool :=
  match a, b with
  | [], [] => true
  | x :: a', y :: b' => (x =? y)%N && eqb a' b'
  | _, _ => false
  end.

(** [s.startswith(p)] *)
Fixpoint prefix (p s : ustring) : bool :=
  match p, s with
  | [], _ => true
  | x :: p', y :: s' => (x =? y)%N && prefix p' s'
  | _ :: _, [] => false
  end.

Fixpoint lstrip (s : ustring) : ustring :=
  match s with
  | [] => []
  | c :: s' => if is_space c then lstrip s' else s
  end.

Fixpoint rstrip (s : ustring) : ustring :=
  match s with
  | [] => []
  | c :: s' =>
      let r := rstrip s' in
      if is_space c && is_empty r then [] else c :: r
  end.

(** A string that is empty or made of whitespace only. *)
Fixpoint all_space (s : ustring) : bool :=
  match s with
  | [] => true
  | c :: s' => is_space c && all_space s'
  end.

Fixpoint has_space (s : ustring) : bool :=
  match s with
  | [] => false
  | c :: s' => is_space c || has_space s'
  end.

(** [s.strip()] *)
Definition strip (s : ustring) : ustring := rstrip (lstrip s).

(** [s.split()]: the maximal runs of non-whitespace characters.  [cur] is
    the run being read. *)
Fixpoint split_aux (cur : ustring) (s : ustring) : list ustring :=
  match s with
  | [] => if is_empty cur then [] else [cur]
  | c :: s' =>
      if is_space c
      then (if is_empty cur then split_aux [] s'
            else cur :: split_aux [] s')
      else split_aux (cur ++ [c]) s'
  end.

Definition split (s : ustring) : list ustring := split_aux [] s.

(** [sep.join(l)] *)
Fixpoint join (sep : ustring) (l : list ustring) : ustring :=
  match l with
  | [] => []
  | [x] => x
  | x :: rest => x ++ sep ++ join sep rest
  end.

(** [s.count(sub)] for a non-empty [sub]: occurrences found left to right,
    the search resuming after each occurrence.  [skip] is the number of
    characters still covered by the last occurrence. *)
Fixpoint count_from (sub : ustring) (skip : nat) (s : ustring) : nat :=
  match s with
  | [] => 0
  | _ :: s' =>
      match skip with
      | S k => count_from sub k s'
      | O => if prefix sub s
             then S (count_from sub (length sub - 1) s')
             else count_from sub 0 s'
      end
  end.

Definition count (sub s : ustring) : nat := count_from sub 0 s.

(** [len(re.split(r'[.!?]+', s))]: one more than the number of maximal runs
    of sentence punctuation.  [inrun] tells whether the previous character
    belongs to a run. *)
Definition is_stop (c : N) : bool :=
  (c =? 46)%N || (c =? 33)%N || (c =? 63)%N.

Fixpoint stop_runs (inrun : bool) (s : ustring) : nat :=
  match s with
  | [] => 0
  | c :: s' =>
      if is_stop c
      then (if inrun then stop_runs true s' else S (stop_runs true s'))
      else stop_runs false s'
  end.

Definition split_stops_len (s : ustring) : nat := S (stop_runs false s).

(** [w in words] for a Python set of strings used only for membership: of
    texts, and of the labels of the program. *)
Definition member (w : ustring) (words : list ustring) : bool :=
  existsb (eqb w) words.

Definition mem (w : string) (words : list string) : bool :=
  existsb (String.eqb w) words.

Section WithUnicode.

Variable U : unicode.

(** [\b]: a word character on exactly one side; the outside of the string
    counts as a non-word character. *)
Definition is_word_at (c : option N) : bool :=
  match c with Some a => is_word U a | None => false end.

Definition boundary (before after : option N) : bool :=
  xorb (is_word_at before) (is_word_at after).

(** Does [\b p \b] match at the head of [s], the character before being
    [prev]? ([p] non-empty.) *)
Definition match_here (p : ustring) (prev : option N) (s : ustring) : bool :=
  boundary prev (s !! 0)
  && prefix p s
  && boundary (s !! (length p - 1)) (s !! length p).

(** [len(re.findall(r'\b' + re.escape(p) + r'\b', s))] for a non-empty
    phrase [p]: scan left to right, and after a match resume at its end. *)
Fixpoint findall_from (p : ustring) (prev : option N) (skip : nat) (s : ustring)
    : nat :=
  match s with
  | [] => 0
  | c :: s' =>
      match skip with
      | S k => findall_from p (Some c) k s'
      | O => if match_here p prev s
             then S (findall_from p (Some c) (length p - 1) s')
             else findall_from p (Some c) 0 s'
      end
  end.

Definition findall_count (p s : ustring) : nat := findall_from p None 0 s.

(** [re.sub(r'[^\w\s]', ' ', s)] *)
Fixpoint sub_nonword (s : ustring) : ustring :=
  match s with
  | [] => []
  | c :: s' => (if is_word U c || is_space c then c else 32%N) :: sub_nonword s'
  end.

End WithUnicode.

End Str.

Abbreviation txt := Str.of_string.

(** What the development relies on in the Unicode database: on ASCII it is
    the ASCII classification and lowering; and [str.lower] leaves a text
    without a visible character as it is, and a lowered text as it is. *)
Record unicode_ok (U : Str.unicode) : Prop := {
  isalnum_ascii :
    forall c, (c < 128)%N -> Str.isalnum U c = Str.ascii_isalnum c;
  lower_ascii :
    forall s, Forall (fun c => (c < 128)%N) s ->
      Str.lower U s = map Str.ascii_lower s;
  lower_blank :
    forall s, Str.all_space s = true -> Str.lower U s = s;
  lower_lower :
    forall s, Str.lower U (Str.lower U s) = Str.lower U s
}.

(** ** Numbers *)

Module Num.

Definition of_nat (n : nat) : Q := inject_Z (Z.of_nat n).

Definition ltb (a b : Q) : bool := negb (Qle_bool b a).
Definition gtb (a b : Q) : bool := ltb b a.

Definition qmax (a b : Q) : Q := if ltb a b then b else a.

(** Nearest integer, ties to the even one. *)
Definition round_half_even (q : Q) : Z :=
  let f := Qfloor q in
  match ((q - inject_Z f) ?= (1 # 2))%Q with
  | Lt => f
  | Gt => (f + 1)%Z
  | Eq => if Z.even f then f else (f + 1)%Z
  end.

(** [round(q, nd)] *)
Definition pyround (nd : nat) (q : Q) : Q :=
  Qred (inject_Z (round_half_even (q * inject_Z (10 ^ Z.of_nat nd))%Q)
        / inject_Z (10 ^ Z.of_nat nd))%Q.

End Num.

(** ** Exceptions *)

Inductive exc (A : Type) : Type :=
| Ok (a : A)
| Raise (kind msg : string).
Arguments Ok {A} a.
Arguments Raise {A} kind msg.

Definition bind {A B : Type} (m : exc A) (k : A -> exc B) : exc B :=
  match m with
  | Ok a => k a
  | Raise kind msg => Raise kind msg
  end.

Notation "'let*' x ':=' m 'in' k" := (bind m (fun x => k))
  (at level 10, x name, m at level 100, k at level 200).

(** [a / b] on numbers. *)
Definition pydiv (a b : Q) : exc Q :=
  if Qeq_bool b 0%Q then Raise "ZeroDivisionError" "division by zero"
  else Ok (a / b)%Q.

(** [[f(a) for a in l]] where [f] may raise. *)
Fixpoint map_exc {A B : Type} (f : A -> exc B) (l : list A) : exc (list B) :=
  match l with
  | [] => Ok []
  | a :: rest =>
      let* b := f a in
      let* bs := map_exc f rest in
      Ok (b :: bs)
  end.

(** [sum(l)] *)
Definition sumQ (l : list Q) : Q := foldl Qplus 0%Q l.

(** [c[w] = c.get(w, 0) + 1] on a dict in insertion order: a new key goes
    last.  [same] is the equality of keys. *)
Fixpoint counter_add {K : Type} (same : K -> K -> bool) (w : K)
    (c : list (K * nat)) : list (K * nat) :=
  match c with
  | [] => [(w, 1)]
  | (k, n) :: rest =>
      if same k w then (k, S n) :: rest else (k, n) :: counter_add same w rest
  end.

(** [d[k]] on a dict literal. *)
Fixpoint subscript {A : Type} (d : list (string * A)) (k : string) : exc A :=
  match d with
  | [] => Raise "KeyError" k
  | (k', v) :: rest => if String.eqb k' k then Ok v else subscript rest k
  end.

(** What a [get_..._summary] function returns: [None], [{'error': msg}] or
    [{'summary': s}]. *)
Inductive summary_of (A : Type) : Type :=
| NoSummary
| SummaryError (error : string)
| Summary (summary : A).
Arguments NoSummary {A}.
Arguments SummaryError {A} error.
Arguments Summary {A} summary.

(** ** Python values received from the JSON body *)

#[local] Set Warnings "-register-all".

Inductive pyval : Type :=
| PNone
| PBool (b : bool)
| PInt (z : Z)
| PFloat (q : Q)
| PStr (s : ustring)
| PList (l : list pyval)
| PDict (d : list (string * pyval)).

(** [bool(v)] *)
Definition truthy (v : pyval) : bool :=
  match v with
  | PNone => false
  | PBool b => b
  | PInt z => negb (z =? 0)%Z
  | PFloat q => negb (Qeq_bool q 0%Q)
  | PStr s => negb (Str.is_empty s)
  | PList l => match l with [] => false | _ => true end
  | PDict d => match d with [] => false | _ => true end
  end.

Definition type_name (v : pyval) : string :=
  match v with
  | PNone => "NoneType"
  | PBool _ => "bool"
  | PInt _ => "int"
  | PFloat _ => "float"
  | PStr _ => "str"
  | PList _ => "list"
  | PDict _ => "dict"
  end.

(** The receiver of a [str] method: any other value has no such attribute. *)
Definition as_str (meth : string) (v : pyval) : exc ustring :=
  match v with
  | PStr s => Ok s
  | _ => Raise "AttributeError"
           ("'" +:+ type_name v +:+ "' object has no attribute '" +:+ meth +:+ "'")
  end.

(** [n / v] for an [int] [n]: [bool] is a subclass of [int]. *)
Definition div_by (n : Q) (v : pyval) : exc Q :=
  match v with
  | PInt z => pydiv n (inject_Z z)
  | PFloat q => pydiv n q
  | PBool b => pydiv n (if b then 1%Q else 0%Q)
  | _ => Raise "TypeError"
           ("unsupported operand type(s) for /: 'int' and '" +:+ type_name v +:+ "'")
  end.

(** ** [services/voice_service.py] *)

Module Voice.

(** *** [__init__]: the lexicons *)

Definition filler_words : list string :=
  [ "um"; "uh"; "er"; "ah"; "like"; "you know"; "so"; "well";
    "actually"; "basically"; "literally"; "obviously"; "right";
    "okay"; "alright"; "i mean"; "sort of"; "kind of"; "you see";
    "let me think"; "how do i put this"; "what i mean is" ].

Definition confidence_strong : list ustring :=
  map txt
    [ "definitely"; "absolutely"; "certainly"; "clearly"; "exactly";
      "precisely"; "specifically"; "without doubt"; "for sure";
      "undoubtedly"; "obviously"; "of course" ].

Definition confidence_weak : list ustring :=
  map txt
    [ "maybe"; "perhaps"; "i think"; "i guess"; "probably";
      "sort of"; "kind of"; "i suppose"; "i believe";
      "it seems"; "i feel like"; "possibly" ].

Definition clarity_clear : list ustring :=
  map txt
    [ "first"; "second"; "third"; "next"; "then"; "finally";
      "in conclusion"; "to summarize"; "specifically";
      "for example"; "such as"; "in other words" ].

Definition clarity_unclear : list ustring :=
  map txt
    [ "stuff"; "things"; "whatever"; "something"; "somehow";
      "somewhere"; "whatnot"; "and so on"; "etcetera" ].

(** *** [detect_filler_words] *)

Record filler_analysis : Type := {
  total : nat;
  breakdown : gmap string nat;
  unique_fillers : nat
}.

Section Fillers.

Variable U : Str.unicode.

(** One turn of the loop over the filler set, on the pair
    [(filler_count, total_fillers)]. *)
Definition filler_step (text_lower : ustring) (st : gmap string nat * nat)
    (filler : string) : gmap string nat * nat :=
  let matches := Str.findall_count U (txt filler) text_lower in
  if 0 <? matches
  then (<[filler := matches]> (fst st), snd st + matches)
  else st.

(** The loop visits the set in its iteration order, [fillers]. *)
Definition detect_filler_words_in (fillers : list string) (text : ustring)
    : filler_analysis :=
  let text_lower := Str.lower U text in
  let st := foldl (filler_step text_lower) (∅, 0) fillers in
  {| total := snd st; breakdown := fst st; unique_fillers := size (fst st) |}.

Definition detect_filler_words : ustring -> filler_analysis :=
  detect_filler_words_in filler_words.

End Fillers.

(** *** [analyze_pauses] *)

Record pause_breakdown : Type := {
  commas : nat;
  periods : nat;
  semicolons : nat;
  dashes : nat;
  ellipses : nat
}.

Record pause_analysis : Type := {
  total_pauses : nat;
  pause_frequency_per_100_words : Q;
  pauses : pause_breakdown;
  average_sentence_length : Q;
  sentences_count : nat
}.

(** The em dash, U+2014. *)
Definition em_dash : ustring := [8212%N].

Definition analyze_pauses (text : ustring) : exc pause_analysis :=
  let commas := Str.count (txt ",") text in
  let periods := Str.count (txt ".") text in
  let semicolons := Str.count (txt ";") text in
  let dashes := Str.count (txt "--") text + Str.count em_dash text in
  let ellipses := Str.count (txt "...") text in
  let sentences := Str.split_stops_len text in
  let words := length (Str.split text) in
  let total_pauses := commas + periods + semicolons + dashes + ellipses in
  let* per_word := pydiv (Num.of_nat total_pauses) (Num.of_nat (max words 1)) in
  let pause_frequency := (per_word * 100)%Q in
  let* avg_sentence_length := pydiv (Num.of_nat words) (Num.of_nat (max sentences 1)) in
  Ok {| total_pauses := total_pauses;
        pause_frequency_per_100_words := Num.pyround 2 pause_frequency;
        pauses := {| commas := commas; periods := periods;
                     semicolons := semicolons; dashes := dashes;
                     ellipses := ellipses |};
        average_sentence_length := Num.pyround 2 avg_sentence_length;
        sentences_count := sentences |}.

(** *** [analyze_confidence_clarity] *)

Record confidence_block : Type := {
  confidence_score : Q;
  confidence_level : string;
  strong_indicators : nat;
  weak_indicators : nat
}.

Record clarity_block : Type := {
  clarity_score : Q;
  clarity_level : string;
  clear_indicators : nat;
  unclear_indicators : nat
}.

Record confidence_clarity : Type := {
  confidence : confidence_block;
  clarity : clarity_block
}.

(** [sum(1 for word in words if word in indicators)] *)
Definition count_in (indicators words : list ustring) : nat :=
  length (List.filter (fun word => Str.member word indicators) words).

(** [(plus - minus) / max(len(words), 1)] *)
Definition indicator_score (plus minus : nat) (words : list ustring) : exc Q :=
  pydiv (Num.of_nat plus - Num.of_nat minus)%Q (Num.of_nat (max (length words) 1)).

(** ['high' if score > t else 'low' if score < -t else 'medium'] *)
Definition level_of (t score : Q) : string :=
  if Num.gtb score t then "high"
  else if Num.ltb score (- t) then "low"
  else "medium".

Definition analyze_confidence_clarity (U : Str.unicode) (text : ustring)
    : exc confidence_clarity :=
  let words := Str.split (Str.lower U text) in
  let strong_confidence := count_in confidence_strong words in
  let weak_confidence := count_in confidence_weak words in
  let clear_indicators := count_in clarity_clear words in
  let unclear_indicators := count_in clarity_unclear words in
  let* confidence_score := indicator_score strong_confidence weak_confidence words in
  let* clarity_score := indicator_score clear_indicators unclear_indicators words in
  let confidence_level := level_of (2 # 100) confidence_score in
  let clarity_level := level_of (1 # 100) clarity_score in
  Ok {| confidence :=
          {| confidence_score := Num.pyround 4 confidence_score;
             confidence_level := confidence_level;
             strong_indicators := strong_confidence;
             weak_indicators := weak_confidence |};
        clarity :=
          {| clarity_score := Num.pyround 4 clarity_score;
             clarity_level := clarity_level;
             clear_indicators := clear_indicators;
             unclear_indicators := unclear_indicators |} |}.

(** *** [calculate_speaking_pace] *)

Record speaking_pace : Type := {
  words_per_minute : Q;
  word_count : nat;
  duration_seconds : pyval;
  estimated_duration : bool;
  pace_category : string
}.

Definition categorize_pace (wpm : Q) : string :=
  if Num.ltb wpm 120 then "slow"
  else if Num.gtb wpm 200 then "fast"
  else "normal".

Definition calculate_speaking_pace (text : ustring) (duration : pyval)
    : exc speaking_pace :=
  let words := Str.split text in
  let word_count := length words in
  let* wpm :=
    if truthy duration
    then (let* per_second := div_by (Num.of_nat word_count) duration in
          Ok (per_second * 60)%Q)
    else (let estimated_duration_minutes := (Num.of_nat word_count / 180)%Q in
          if Num.gtb estimated_duration_minutes 0
          then pydiv (Num.of_nat word_count) estimated_duration_minutes
          else Ok 0%Q) in
  let pace_category := categorize_pace wpm in
  Ok {| words_per_minute := Num.pyround 1 wpm;
        word_count := word_count;
        duration_seconds := duration;
        estimated_duration := negb (truthy duration);
        pace_category := pace_category |}.

(** *** [analyze_voice] *)

Record voice_quality : Type := {
  quality_score : Q;
  quality_rating : string
}.

(** ['excellent' if score > 0.8 else 'good' if score > 0.6 else
    'needs_improvement'] *)
Definition rating_of (score : Q) : string :=
  if Num.gtb score (8 # 10) then "excellent"
  else if Num.gtb score (6 # 10) then "good"
  else "needs_improvement".

Inductive result : Type :=
| Failure (timestamp : pyval) (error : string)
| Success (timestamp : pyval) (pace : speaking_pace) (fillers : filler_analysis)
    (pause : pause_analysis) (conf : confidence_clarity)
    (overall_voice_quality : voice_quality).

(** The keys of the returned dict. *)
Definition keys (r : result) : list string :=
  match r with
  | Failure _ _ => ["timestamp"; "error"]
  | Success _ _ _ _ _ _ =>
      ["timestamp"; "speaking_pace"; "filler_words"; "pause_analysis";
       "confidence_clarity"; "overall_voice_quality"]
  end.

Definition timestamp_of (r : result) : pyval :=
  match r with
  | Failure ts _ => ts
  | Success ts _ _ _ _ _ => ts
  end.

(** The body of the [try] block; [fillers] is the iteration order of the
    filler set. *)
Section Analysis.

Variable U : Str.unicode.

Definition analyze_voice_try (fillers : list string)
    (text timestamp duration : pyval) : exc result :=
  let* text := as_str "strip" text in
  if Str.is_empty (Str.strip text)
  then Ok (Failure timestamp "No text provided for voice analysis")
  else
    let* speaking_pace := calculate_speaking_pace text duration in
    let filler_analysis := detect_filler_words_in U fillers text in
    let* pause_analysis := analyze_pauses text in
    let* confidence_clarity := analyze_confidence_clarity U text in
    let pace_score :=
      if String.eqb (pace_category speaking_pace) "normal" then 1%Q else (7 # 10)%Q in
    let* filler_rate :=
      pydiv (Num.of_nat (total filler_analysis))
            (Num.of_nat (max (word_count speaking_pace) 1)) in
    let filler_score := Num.qmax 0 (1 - filler_rate * 5)%Q in
    let confidence_score :=
      ((confidence_score (confidence confidence_clarity) + 1) / 2)%Q in
    let clarity_score :=
      ((clarity_score (clarity confidence_clarity) + 1) / 2)%Q in
    let overall_score :=
      ((pace_score + filler_score + confidence_score + clarity_score) / 4)%Q in
    Ok (Success timestamp speaking_pace filler_analysis pause_analysis
          confidence_clarity
          {| quality_score := Num.pyround 3 overall_score;
             quality_rating := rating_of overall_score |}).

Definition analyze_voice_in (fillers : list string)
    (text timestamp duration : pyval) : result :=
  match analyze_voice_try fillers text timestamp duration with
  | Ok r => r
  | Raise _ msg => Failure timestamp ("Voice analysis failed: " +:+ msg)
  end.

Definition analyze_voice : pyval -> pyval -> pyval -> result :=
  analyze_voice_in filler_words.

End Analysis.

(** *** [get_voice_summary] *)

Record voice_summary : Type := {
  average_wpm : Q;
  average_filler_rate : Q;
  average_confidence_score : Q;
  average_clarity_score : Q;
  overall_quality : Q;
  total_analyses : nat
}.

(** ['error' not in a] *)
Definition is_valid (a : result) : bool :=
  negb (Str.mem "error" (keys a)).

(** [sum(f(a) for a in valid) / len(valid)]; a subscript that is missing
    from [a] is a [KeyError]. *)
Definition field (name : string) (f : speaking_pace -> filler_analysis ->
    confidence_clarity -> voice_quality -> exc Q) (a : result) : exc Q :=
  match a with
  | Success _ p fl _ cc q => f p fl cc q
  | Failure _ _ => Raise "KeyError" name
  end.

Definition average (l : list result) (f : result -> exc Q) : exc Q :=
  let* xs := map_exc f l in
  pydiv (sumQ xs) (Num.of_nat (length l)).

Definition get_voice_summary (analyses : list result)
    : exc (summary_of voice_summary) :=
  match analyses with
  | [] => Ok NoSummary
  | _ =>
      let valid_analyses := List.filter is_valid analyses in
      match valid_analyses with
      | [] => Ok (SummaryError "No valid voice analyses to summarize")
      | _ =>
          let* avg_wpm :=
            average valid_analyses
              (field "speaking_pace" (fun p _ _ _ => Ok (words_per_minute p))) in
          let* avg_filler_rate :=
            average valid_analyses
              (field "filler_words" (fun p fl _ _ =>
                 pydiv (Num.of_nat (total fl)) (Num.of_nat (max (word_count p) 1)))) in
          let* avg_confidence :=
            average valid_analyses
              (field "confidence_clarity" (fun _ _ cc _ =>
                 Ok (confidence_score (confidence cc)))) in
          let* avg_clarity :=
            average valid_analyses
              (field "confidence_clarity" (fun _ _ cc _ =>
                 Ok (clarity_score (clarity cc)))) in
          let* avg_overall_score :=
            average valid_analyses
              (field "overall_voice_quality" (fun _ _ _ q => Ok (quality_score q))) in
          Ok (Summary
                {| average_wpm := Num.pyround 1 avg_wpm;
                   average_filler_rate := Num.pyround 2 (avg_filler_rate * 100)%Q;
                   average_confidence_score := Num.pyround 3 avg_confidence;
                   average_clarity_score := Num.pyround 3 avg_clarity;
                   overall_quality := Num.pyround 3 avg_overall_score;
                   total_analyses := length valid_analyses |})
      end
  end.

End Voice.

(** ** [services/sentiment_service.py] *)

(** The natural-language libraries the service calls: NLTK's [word_tokenize]
    and English stop words, and TextBlob's [(polarity, subjectivity)]
    estimator. *)
Record nlp : Type := {
  word_tokenize : ustring -> exc (list ustring);
  english_stop_words : list ustring;
  textblob_sentiment : ustring -> exc (Q * Q)
}.

(** NLTK's tokenizer finds no token in a text that has no visible character. *)
Definition tokenizer_blank (E : nlp) : Prop :=
  forall text tokens,
    Str.all_space text = true -> word_tokenize E text = Ok tokens -> tokens = [].

(** Two loads of the same libraries: the same functions, and the same
    stop words, whatever the order in which the set holds them. *)
Definition same_nlp (E E' : nlp) : Prop :=
  (forall text, word_tokenize E text = word_tokenize E' text) /\
  (forall w, In w (english_stop_words E) <-> In w (english_stop_words E')) /\
  (forall text, textblob_sentiment E text = textblob_sentiment E' text).

Module Sentiment.

(** *** [__init__]: the lexicons *)

Definition interview_stop_words : list ustring :=
  map txt
    [ "um"; "uh"; "er"; "ah"; "like"; "you"; "know"; "so"; "well";
      "actually"; "basically"; "literally"; "obviously"; "right";
      "okay"; "alright"; "mean"; "sort"; "kind"; "think"; "guess" ].

Definition stop_words (E : nlp) : list ustring :=
  english_stop_words E ++ interview_stop_words.

Definition confidence_high : list ustring :=
  map txt
    [ "definitely"; "absolutely"; "certainly"; "clearly"; "exactly";
      "precisely"; "specifically"; "confident"; "sure"; "positive";
      "convinced"; "determined"; "decisive"; "assertive" ].

Definition confidence_low : list ustring :=
  map txt
    [ "maybe"; "perhaps"; "possibly"; "might"; "could"; "probably";
      "unsure"; "uncertain"; "confused"; "doubt"; "hesitant";
      "tentative"; "vague"; "unclear" ].

Definition professional_words : list ustring :=
  map txt
    [ "experience"; "skills"; "expertise"; "knowledge"; "proficient";
      "accomplished"; "achieved"; "successful"; "leadership"; "management";
      "innovative"; "creative"; "analytical"; "strategic"; "efficient";
      "collaborative"; "communication"; "problem-solving"; "results";
      "improvement"; "optimization"; "development"; "implementation" ].

(** *** [filter_text] *)

Definition keep_token (E : nlp) (word : ustring) : bool :=
  negb (Str.member word (stop_words E)) && (2 <? length word).

Definition filter_text (U : Str.unicode) (E : nlp) (text : pyval)
    : exc (list ustring * ustring) :=
  let* text := as_str "lower" text in
  let text := Str.lower U text in
  let text := Str.sub_nonword U text in
  let* tokens := word_tokenize E text in
  let filtered_tokens := List.filter (keep_token E) tokens in
  Ok (filtered_tokens, Str.join (txt " ") filtered_tokens).

(** *** [analyze_confidence] and [analyze_professionalism] *)

Record confidence_analysis : Type := {
  confidence_score : Q;
  confidence_level : string;
  high_confidence_words : nat;
  low_confidence_words : nat
}.

Definition count_in (indicators tokens : list ustring) : nat :=
  length (List.filter (fun token => Str.member token indicators) tokens).

Definition analyze_confidence (tokens : list ustring) : exc confidence_analysis :=
  let high_confidence_count := count_in confidence_high tokens in
  let low_confidence_count := count_in confidence_low tokens in
  let* confidence_score :=
    pydiv (Num.of_nat high_confidence_count - Num.of_nat low_confidence_count)%Q
          (Num.of_nat (max (length tokens) 1)) in
  let level :=
    if Num.gtb confidence_score (1 # 10) then "high"
    else if Num.ltb confidence_score (- (1 # 10)) then "low"
    else "medium" in
  Ok {| confidence_score := Num.pyround 3 confidence_score;
        confidence_level := level;
        high_confidence_words := high_confidence_count;
        low_confidence_words := low_confidence_count |}.

Record professionalism_analysis : Type := {
  professionalism_score : Q;
  professionalism_level : string;
  professional_words_count : nat
}.

Definition analyze_professionalism (tokens : list ustring)
    : exc professionalism_analysis :=
  let professional_count := count_in professional_words tokens in
  let* professionalism_score :=
    pydiv (Num.of_nat professional_count) (Num.of_nat (max (length tokens) 1)) in
  let level :=
    if Num.gtb professionalism_score (15 # 100) then "high"
    else if Num.gtb professionalism_score (5 # 100) then "medium"
    else "low" in
  Ok {| professionalism_score := Num.pyround 3 professionalism_score;
        professionalism_level := level;
        professional_words_count := professional_count |}.

(** *** [Counter(tokens).most_common(n)] *)

Definition counter (tokens : list ustring) : list (ustring * nat) :=
  foldl (fun c w => counter_add Str.eqb w c) [] tokens.

(** Insertion below the entries that count at least as much, so that equal
    counts stay in the order of first occurrence. *)
Fixpoint insert_desc (x : ustring * nat) (l : list (ustring * nat))
    : list (ustring * nat) :=
  match l with
  | [] => [x]
  | y :: rest => if snd y <? snd x then x :: l else y :: insert_desc x rest
  end.

Definition most_common (n : nat) (c : list (ustring * nat))
    : list (ustring * nat) :=
  take n (foldl (fun acc x => insert_desc x acc) [] c).

(** *** [analyze_sentiment] *)

Record sentiment_block : Type := {
  polarity : Q;
  subjectivity : Q;
  category : string;
  intensity : Q
}.

Record word_analysis : Type := {
  total_words : nat;
  filtered_words : nat;
  most_common_words : list (ustring * nat)
}.

Inductive result : Type :=
| Failure (timestamp : pyval) (error : string)
| Success (timestamp : pyval) (original_text : ustring) (filtered_text : ustring)
    (sentiment : sentiment_block) (confidence : confidence_analysis)
    (professionalism : professionalism_analysis) (words : word_analysis).

(** The keys of the returned dict. *)
Definition keys (r : result) : list string :=
  match r with
  | Failure _ _ => ["timestamp"; "error"]
  | Success _ _ _ _ _ _ _ =>
      ["timestamp"; "original_text"; "filtered_text"; "sentiment";
       "confidence"; "professionalism"; "word_analysis"]
  end.

Definition timestamp_of (r : result) : pyval :=
  match r with
  | Failure ts _ => ts
  | Success ts _ _ _ _ _ _ => ts
  end.

(** The body of the [try] block. *)
Section Analysis.

Variable U : Str.unicode.

Definition analyze_sentiment_try (E : nlp) (text timestamp : pyval) : exc result :=
  let* filtered := filter_text U E text in
  let filtered_tokens := fst filtered in
  let filtered_text := snd filtered in
  if Str.is_empty (Str.strip filtered_text)
  then Ok (Failure timestamp "No meaningful content to analyze after filtering")
  else
    let* blob := textblob_sentiment E filtered_text in
    let polarity := fst blob in
    let subjectivity := snd blob in
    let sentiment_category :=
      if Num.gtb polarity (1 # 10) then "positive"
      else if Num.ltb polarity (- (1 # 10)) then "negative"
      else "neutral" in
    let* confidence_analysis := analyze_confidence filtered_tokens in
    let* professionalism_analysis := analyze_professionalism filtered_tokens in
    let word_freq := counter filtered_tokens in
    let most_common_words := most_common 5 word_freq in
    let* original := as_str "split" text in
    Ok (Success timestamp original filtered_text
          {| polarity := Num.pyround 3 polarity;
             subjectivity := Num.pyround 3 subjectivity;
             category := sentiment_category;
             intensity := Qabs polarity |}
          confidence_analysis professionalism_analysis
          {| total_words := length (Str.split original);
             filtered_words := length filtered_tokens;
             most_common_words := most_common_words |}).

Definition analyze_sentiment (E : nlp) (text timestamp : pyval) : result :=
  match analyze_sentiment_try E text timestamp with
  | Ok r => r
  | Raise _ msg => Failure timestamp ("Analysis failed: " +:+ msg)
  end.

End Analysis.

(** *** [get_overall_sentiment_summary] *)

Record sentiment_summary : Type := {
  average_polarity : Q;
  average_subjectivity : Q;
  average_confidence : Q;
  average_professionalism : Q;
  sentiment_trend : string;
  total_analyses : nat
}.

(** ['error' not in a] *)
Definition is_valid (a : result) : bool :=
  negb (Str.mem "error" (keys a)).

(** [a[name]...]: a subscript that is missing from [a] is a [KeyError]. *)
Definition field (name : string) (f : sentiment_block -> confidence_analysis ->
    professionalism_analysis -> Q) (a : result) : exc Q :=
  match a with
  | Success _ _ _ s c p _ => Ok (f s c p)
  | Failure _ _ => Raise "KeyError" name
  end.

Definition average (l : list result) (f : result -> exc Q) : exc Q :=
  let* xs := map_exc f l in
  pydiv (sumQ xs) (Num.of_nat (length l)).

Definition trend_of (polarities : list Q) : exc string :=
  if 1 <? length polarities
  then
    let half := length polarities / 2 in
    let* first_half_avg :=
      pydiv (sumQ (take half polarities)) (Num.of_nat half) in
    let* second_half_avg :=
      pydiv (sumQ (drop half polarities)) (Num.of_nat (length polarities - half)) in
    if Num.gtb (second_half_avg - first_half_avg) (2 # 10) then Ok "improving"
    else if Num.gtb (first_half_avg - second_half_avg) (2 # 10) then Ok "declining"
    else Ok "stable"
  else Ok "stable".

Definition get_overall_sentiment_summary (analyses : list result)
    : exc (summary_of sentiment_summary) :=
  match analyses with
  | [] => Ok NoSummary
  | _ =>
      let valid_analyses := List.filter is_valid analyses in
      match valid_analyses with
      | [] => Ok (SummaryError "No valid analyses to summarize")
      | _ =>
          let* avg_polarity :=
            average valid_analyses (field "sentiment" (fun s _ _ => polarity s)) in
          let* avg_subjectivity :=
            average valid_analyses (field "sentiment" (fun s _ _ => subjectivity s)) in
          let* avg_confidence :=
            average valid_analyses
              (field "confidence" (fun _ c _ => confidence_score c)) in
          let* avg_professionalism :=
            average valid_analyses
              (field "professionalism" (fun _ _ p => professionalism_score p)) in
          let* polarities :=
            map_exc (field "sentiment" (fun s _ _ => polarity s)) valid_analyses in
          let* trend := trend_of polarities in
          Ok (Summary
                {| average_polarity := Num.pyround 3 avg_polarity;
                   average_subjectivity := Num.pyround 3 avg_subjectivity;
                   average_confidence := Num.pyround 3 avg_confidence;
                   average_professionalism := Num.pyround 3 avg_professionalism;
                   sentiment_trend := trend;
                   total_analyses := length valid_analyses |})
      end
  end.

End Sentiment.

(** ** [services/facial_service.py] *)

(** The [random] module: a generator state with the two primitives behind
    [random.random()], [random.uniform(a, b)] and [random.choice(seq)]. *)
Record generator : Type := {
  gstate : Type;
  next_random : gstate -> Q * gstate;
  randbelow : nat -> gstate -> nat * gstate
}.

(** [random()] is in [[0, 1)] and [_randbelow(n)] is below [n]. *)
Record generator_ok (G : generator) : Prop := {
  next_random_range :
    forall s, (0 <= fst (next_random G s))%Q /\ (fst (next_random G s) < 1)%Q;
  randbelow_range :
    forall n s, 0 < n -> fst (randbelow G n s) < n
}.

Module Facial.

Definition expressions : list string :=
  [ "neutral"; "happy"; "confident"; "focused"; "thoughtful";
    "concerned"; "surprised"; "confused"; "nervous"; "engaged" ].

Definition engagement_levels : list string := [ "low"; "medium"; "high" ].

Definition eye_contact_patterns : list string :=
  [ "poor"; "intermittent"; "good"; "excellent" ].

Record expression : Type := {
  expression_name : string;
  expression_confidence : Q
}.

Record facial_expression : Type := {
  primary : expression;
  secondary : list expression
}.

Record engagement : Type := {
  engagement_level : string;
  engagement_score : Q
}.

Record eye_contact : Type := {
  eye_contact_pattern : string;
  eye_contact_score : Q
}.

Record posture : Type := {
  upright : bool;
  leaning_forward : bool;
  slouching : bool;
  head_tilt : string
}.

Record professionalism : Type := {
  professionalism_score : Q;
  professionalism_rating : string
}.

Inductive result : Type :=
| Failure (timestamp : pyval) (error : string)
| Success (timestamp : pyval) (face : facial_expression) (engaged : engagement)
    (eyes : eye_contact) (body : posture) (prof : professionalism)
    (analysis_type : string) (image_processed : bool).

(** The keys of the returned dict. *)
Definition keys (r : result) : list string :=
  match r with
  | Failure _ _ => ["timestamp"; "error"]
  | Success _ _ _ _ _ _ _ _ =>
      ["timestamp"; "facial_expression"; "engagement"; "eye_contact";
       "posture"; "professionalism"; "analysis_type"; "image_processed"]
  end.

Definition timestamp_of (r : result) : pyval :=
  match r with
  | Failure ts _ => ts
  | Success ts _ _ _ _ _ _ _ => ts
  end.

(** ['excellent' if score > 0.8 else 'good' if score > 0.6 else
    'needs_improvement'] *)
Definition rating_of (score : Q) : string :=
  if Num.gtb score (8 # 10) then "excellent"
  else if Num.gtb score (6 # 10) then "good"
  else "needs_improvement".

Section WithGenerator.

Variable G : generator.

(** Computations that draw from the generator and may raise. *)
Definition rnd (A : Type) : Type := gstate G -> exc A * gstate G.

Definition ret {A : Type} (a : A) : rnd A := fun s => (Ok a, s).

Definition rbind {A B : Type} (m : rnd A) (k : A -> rnd B) : rnd B :=
  fun s =>
    match m s with
    | (Ok a, s') => k a s'
    | (Raise kind msg, s') => (Raise kind msg, s')
    end.

Definition lift {A : Type} (m : exc A) : rnd A := fun s => (m, s).

Local Notation "'draw' x ':=' m 'in' k" := (rbind m (fun x => k))
  (at level 10, x name, m at level 100, k at level 200).

(** [random.random()] *)
Definition random : rnd Q :=
  fun s => let r := next_random G s in (Ok (fst r), snd r).

(** [random.uniform(a, b)] *)
Definition uniform (a b : Q) : rnd Q :=
  draw u := random in ret (a + (b - a) * u)%Q.

(** [random.choice(seq)] *)
Definition choice {A : Type} (seq : list A) : rnd A :=
  match seq with
  | [] => lift (Raise "IndexError" "Cannot choose from an empty sequence")
  | _ =>
      fun s =>
        let r := randbelow G (length seq) s in
        (match seq !! fst r with
         | Some x => Ok x
         | None => Raise "IndexError" "list index out of range"
         end, snd r)
  end.

(** [round(random.uniform(a, b), 3)] *)
Definition uniform3 (a b : Q) : rnd Q :=
  draw x := uniform a b in ret (Num.pyround 3 x).

(** The body of the [try] block.  A dict literal evaluates all its
    values, in order, before it is subscripted. *)
Definition analyze_facial_expression_try (timestamp image_data : pyval)
    : rnd result :=
  draw primary_expression := choice expressions in
  draw confidence := uniform3 (7 # 10) (95 # 100) in
  draw coin := random in
  draw secondary_expressions :=
    (if Num.gtb coin (6 # 10)
     then
       draw secondary :=
         choice (List.filter (fun e => negb (String.eqb e primary_expression))
                   expressions) in
       draw c := uniform3 (3 # 10) (6 # 10) in
       ret [ {| expression_name := secondary; expression_confidence := c |} ]
     else ret []) in
  draw engagement_level := choice engagement_levels in
  draw low := uniform3 (2 # 10) (4 # 10) in
  draw medium := uniform3 (4 # 10) (7 # 10) in
  draw high := uniform3 (7 # 10) (9 # 10) in
  draw engagement_score :=
    lift (subscript [("low", low); ("medium", medium); ("high", high)]
            engagement_level) in
  draw eye_contact := choice eye_contact_patterns in
  draw poor := uniform3 (1 # 10) (3 # 10) in
  draw intermittent := uniform3 (3 # 10) (5 # 10) in
  draw good := uniform3 (5 # 10) (8 # 10) in
  draw excellent := uniform3 (8 # 10) 1 in
  draw eye_contact_score :=
    lift (subscript [("poor", poor); ("intermittent", intermittent);
                     ("good", good); ("excellent", excellent)] eye_contact) in
  draw r_upright := random in
  draw r_leaning := random in
  draw r_slouching := random in
  draw tilt := choice ["none"; "slight_left"; "slight_right"; "forward"] in
  let posture_indicators :=
    {| upright := Num.gtb r_upright (3 # 10);
       leaning_forward := Num.gtb r_leaning (7 # 10);
       slouching := Num.gtb r_slouching (8 # 10);
       head_tilt := tilt |} in
  let professionalism_factors : list Q :=
    [ if upright posture_indicators then 1 else 7 # 10;
      if Str.mem eye_contact ["good"; "excellent"] then 1 else 6 # 10;
      if Str.mem primary_expression ["confident"; "focused"; "engaged"]
      then 1 else 8 # 10;
      if negb (slouching posture_indicators) then 1 else 5 # 10 ]%Q in
  draw professionalism_score :=
    lift (pydiv (sumQ professionalism_factors)
            (Num.of_nat (length professionalism_factors))) in
  ret (Success timestamp
         {| primary := {| expression_name := primary_expression;
                          expression_confidence := confidence |};
            secondary := secondary_expressions |}
         {| engagement_level := engagement_level;
            engagement_score := engagement_score |}
         {| eye_contact_pattern := eye_contact;
            eye_contact_score := eye_contact_score |}
         posture_indicators
         {| professionalism_score := Num.pyround 3 professionalism_score;
            professionalism_rating := rating_of professionalism_score |}
         "mockup"
         (truthy image_data)).

Definition analyze_facial_expression (timestamp image_data : pyval)
    (s : gstate G) : result * gstate G :=
  match analyze_facial_expression_try timestamp image_data s with
  | (Ok r, s') => (r, s')
  | (Raise _ msg, s') =>
      (Failure timestamp ("Facial analysis failed: " +:+ msg), s')
  end.

(** [returns m Q]: from every generator state, [m] returns a value, and
    the value satisfies [Q]. *)
Definition returns {A : Type} (m : rnd A) (Q : A -> Prop) : Prop :=
  forall s, exists a s', m s = (Ok a, s') /\ Q a.

(** [ensures m Q]: whenever [m] returns a value, the value satisfies
    [Q]. *)
Definition ensures {A : Type} (m : rnd A) (Q : A -> Prop) : Prop :=
  forall s a s', m s = (Ok a, s') -> Q a.

End WithGenerator.

(** *** [get_facial_summary] *)

Record facial_summary : Type := {
  most_common_expression : string;
  expression_frequency : nat;
  average_engagement : Q;
  average_eye_contact : Q;
  average_professionalism : Q;
  expression_distribution : list (string * nat);
  total_analyses : nat
}.

(** ['error' not in a] *)
Definition is_valid (a : result) : bool :=
  negb (Str.mem "error" (keys a)).

(** [a[name]...]: a subscript that is missing from [a] is a [KeyError]. *)
Definition field {A : Type} (name : string) (f : facial_expression ->
    engagement -> eye_contact -> professionalism -> A) (a : result) : exc A :=
  match a with
  | Success _ fe en ey _ pr _ _ => Ok (f fe en ey pr)
  | Failure _ _ => Raise "KeyError" name
  end.

Definition average (l : list result) (f : result -> exc Q) : exc Q :=
  let* xs := map_exc f l in
  pydiv (sumQ xs) (Num.of_nat (length l)).

(** [max(items, key=lambda x: x[1])]: the first entry with the largest
    count. *)
Definition max_by_count (items : list (string * nat)) : option (string * nat) :=
  match items with
  | [] => None
  | x :: rest =>
      Some (foldl (fun best y => if snd best <? snd y then y else best) x rest)
  end.

Definition get_facial_summary (analyses : list result)
    : exc (summary_of facial_summary) :=
  match analyses with
  | [] => Ok NoSummary
  | _ =>
      let valid_analyses := List.filter is_valid analyses in
      match valid_analyses with
      | [] => Ok (SummaryError "No valid facial analyses to summarize")
      | _ =>
          let* exprs :=
            map_exc (field "facial_expression"
                       (fun fe _ _ _ => expression_name (primary fe)))
              valid_analyses in
          let expression_counts :=
            foldl (fun c e => counter_add String.eqb e c) [] exprs in
          let* avg_engagement :=
            average valid_analyses
              (field "engagement" (fun _ en _ _ => engagement_score en)) in
          let* avg_eye_contact :=
            average valid_analyses
              (field "eye_contact" (fun _ _ ey _ => eye_contact_score ey)) in
          let* avg_professionalism :=
            average valid_analyses
              (field "professionalism" (fun _ _ _ pr => professionalism_score pr)) in
          let most_common :=
            match max_by_count expression_counts with
            | Some m => m
            | None => ("neutral", 0)
            end in
          Ok (Summary
                {| most_common_expression := fst most_common;
                   expression_frequency := snd most_common;
                   average_engagement := Num.pyround 3 avg_engagement;
                   average_eye_contact := Num.pyround 3 avg_eye_contact;
                   average_professionalism := Num.pyround 3 avg_professionalism;
                   expression_distribution := expression_counts;
                   total_analyses := length valid_analyses |})
      end
  end.

End Facial.

(** ** [app.py]: the dispatcher *)

Module App.

(** [data.get(key, default)] on the parsed JSON body. *)
Fixpoint lookup_key (d : list (string * pyval)) (key : string) : option pyval :=
  match d with
  | [] => None
  | (k, v) :: rest => if String.eqb k key then Some v else lookup_key rest key
  end.

Definition dict_get (data : pyval) (key : string) (default : pyval) : exc pyval :=
  match data with
  | PDict d => Ok (match lookup_key d key with Some v => v | None => default end)
  | _ => Raise "AttributeError"
           ("'" +:+ type_name data +:+ "' object has no attribute 'get'")
  end.

(** A response: a JSON body and an HTTP status. *)
Inductive body : Type :=
| ErrorBody (error : string)
| SentimentBody (r : Sentiment.result)
| VoiceBody (r : Voice.result)
| FacialBody (r : Facial.result)
| ComprehensiveBody (timestamp : pyval) (sentiment : Sentiment.result)
    (voice : Voice.result) (facial : Facial.result).

Definition response : Type := body * nat.

(** The [sentiment] and [voice] fields of a comprehensive response. *)
Definition sentiment_field (r : response) : option Sentiment.result :=
  match fst r with
  | ComprehensiveBody _ sentiment _ _ => Some sentiment
  | _ => None
  end.

Definition voice_field (r : response) : option Voice.result :=
  match fst r with
  | ComprehensiveBody _ _ voice _ => Some voice
  | _ => None
  end.

Section Routes.

Variable U : Str.unicode.
Variable E : nlp.
Variable G : generator.

Definition route (A : Type) : Type := gstate G -> exc A * gstate G.

(** [try: ... except Exception: return jsonify({'error': msg}), 500] *)
Definition guarded (msg : string) (r : route response) (s : gstate G)
    : response * gstate G :=
  match r s with
  | (Ok resp, s') => (resp, s')
  | (Raise _ _, s') => ((ErrorBody msg, 500), s')
  end.

Definition analyze_sentiment (data : pyval) : gstate G -> response * gstate G :=
  guarded "Sentiment analysis failed" (fun s =>
    (let* text := dict_get data "text" (PStr []) in
     let* timestamp := dict_get data "timestamp" PNone in
     if negb (truthy text)
     then Ok (ErrorBody "Text is required", 400)
     else
       let result := Sentiment.analyze_sentiment U E text timestamp in
       Ok (SentimentBody result, 200), s)).

Definition analyze_voice (data : pyval) : gstate G -> response * gstate G :=
  guarded "Voice analysis failed" (fun s =>
    (let* text := dict_get data "text" (PStr []) in
     let* timestamp := dict_get data "timestamp" PNone in
     let* duration := dict_get data "duration" PNone in
     if negb (truthy text)
     then Ok (ErrorBody "Text is required", 400)
     else
       let result := Voice.analyze_voice U text timestamp duration in
       Ok (VoiceBody result, 200), s)).

Definition analyze_facial (data : pyval) : gstate G -> response * gstate G :=
  guarded "Facial analysis failed" (fun s =>
    match (let* timestamp := dict_get data "timestamp" PNone in
           let* image_data := dict_get data "image_data" PNone in
           Ok (timestamp, image_data)) with
    | Raise kind msg => (Raise kind msg, s)
    | Ok (timestamp, image_data) =>
        if negb (truthy timestamp)
        then (Ok (ErrorBody "Timestamp is required", 400), s)
        else
          let r := Facial.analyze_facial_expression G timestamp image_data s in
          (Ok (FacialBody (fst r), 200), snd r)
    end).

Definition comprehensive_analysis (data : pyval)
    : gstate G -> response * gstate G :=
  guarded "Comprehensive analysis failed" (fun s =>
    match (let* text := dict_get data "text" (PStr []) in
           let* timestamp := dict_get data "timestamp" PNone in
           let* duration := dict_get data "duration" PNone in
           let* image_data := dict_get data "image_data" PNone in
           Ok (text, timestamp, duration, image_data)) with
    | Raise kind msg => (Raise kind msg, s)
    | Ok (text, timestamp, duration, image_data) =>
        if negb (truthy text) || negb (truthy timestamp)
        then (Ok (ErrorBody "Text and timestamp are required", 400), s)
        else
          let sentiment_result := Sentiment.analyze_sentiment U E text timestamp in
          let voice_result := Voice.analyze_voice U text timestamp duration in
          let r := Facial.analyze_facial_expression G timestamp image_data s in
          (Ok (ComprehensiveBody timestamp sentiment_result voice_result (fst r),
               200), snd r)
    end).

End Routes.

End App.

(** ** Concrete libraries, to run the model *)

(** The Unicode database cut down to ASCII: no letter or digit beyond ASCII,
    and only the ASCII letters lowered. *)
Definition ascii_unicode : Str.unicode :=
  {| Str.isalnum := Str.ascii_isalnum;
     Str.lower := map Str.ascii_lower |}.

(** A tokenizer that splits at whitespace (what NLTK's does on text that has
    no punctuation and no contraction), a few stop words, and a constant
    estimator. *)
Definition plain_nlp : nlp :=
  {| word_tokenize := fun text => Ok (Str.split text);
     english_stop_words :=
       map txt ["i"; "am"; "is"; "the"; "a"; "this"; "and"; "very"];
     textblob_sentiment := fun _ => Ok (5 # 10, 6 # 10)%Q |}.

(** A linear congruential generator. *)
Definition lcg_next (s : Z) : Z := ((s * 1103515245 + 12345) mod 2147483648)%Z.

Definition lcg : generator :=
  {| gstate := Z;
     next_random := fun s => (Qmake (s mod 1000) 1000, lcg_next s);
     randbelow := fun n s => (Z.to_nat (s mod Z.of_nat n), lcg_next s) |}.

(** ** Predicates used in the statements *)

(** The code points with the Unicode property White_Space, together with
    the four ASCII separators FS, GS, RS and US: the whitespace of Python. *)
Definition white_space : list N :=
  [ 9; 10; 11; 12; 13; 28; 29; 30; 31; 32; 133; 160; 5760;
    8192; 8193; 8194; 8195; 8196; 8197; 8198; 8199; 8200; 8201; 8202;
    8232; 8233; 8239; 8287; 12288 ]%N.

(** A text that is empty or made of whitespace only. *)
Definition blank (text : ustring) : Prop :=
  Forall (fun c => In c white_space) text.

(** A text written with ASCII characters only. *)
Definition ascii_text (text : ustring) : Prop :=
  Forall (fun c => (c < 128)%N) text.

(** A JSON number or boolean: a value an [int] can be divided by. *)
Definition numeric (v : pyval) : bool :=
  match v with
  | PInt _ | PFloat _ | PBool _ => true
  | _ => false
  end.

(** The value of a JSON number. *)
Definition number (v : pyval) : option Q :=
  match v with
  | PInt z => Some (inject_Z z)
  | PFloat q => Some q
  | _ => None
  end.

(** A number written with at most [nd] decimals. *)
Definition decimals (nd : nat) (q : Q) : Prop :=
  exists k : Z, (q == inject_Z k / inject_Z (10 ^ Z.of_nat nd))%Q.

(** A list of dict entries in non-increasing order of count. *)
Fixpoint descending {K : Type} (l : list (K * nat)) : Prop :=
  match l with
  | [] => True
  | x :: rest => (forall y, In y rest -> snd y <= snd x) /\ descending rest
  end.

(** The entries of [l] whose count is [k], in the order of [l]. *)
Definition with_count {K : Type} (k : nat) (l : list (K * nat)) : list (K * nat) :=
  List.filter (fun e => snd e =? k) l.

(** The number of times [w] occurs in [l]. *)
Definition occurrences_of (w : ustring) (l : list ustring) : nat :=
  length (List.filter (Str.eqb w) l).

(** The number of words of [words] that match a phrase of [phrases]: for
    each phrase, the number of words that are equal to it. *)
Definition phrase_matches (phrases words : list ustring) : nat :=
  sum_list ((fun phrase => occurrences_of phrase words) <$> phrases).

(** [level] is a level that goes with the rounded [score] for the threshold
    [t]: a score above [t] is [high] and a score below [- t] is [low], while
    [high] comes with a score of at least [t], [low] with a score of at most
    [- t], and [medium] with a score between [- t] and [t]. *)
Definition level_agrees (t : Q) (level : string) (score : Q) : Prop :=
  In level ["high"; "medium"; "low"] /\
  ((t < score)%Q -> level = "high") /\
  ((score < - t)%Q -> level = "low") /\
  (level = "high" -> (t <= score)%Q) /\
  (level = "low" -> (score <= - t)%Q) /\
  (level = "medium" -> (- t <= score)%Q /\ (score <= t)%Q).

(** [k] full stops, for [k] up to 2. *)
Definition dots (k : nat) : ustring :=
  match k with
  | 0 => []
  | 1 => [46%N]
  | _ => [46%N; 46%N]
  end.

(** The overall voice score before it is rounded, from the three analyses it
    combines. *)
Definition voice_overall (p : Voice.speaking_pace) (f : Voice.filler_analysis)
    (cc : Voice.confidence_clarity) : Q :=
  let pace_score :=
    if String.eqb (Voice.pace_category p) "normal" then 1%Q else (7 # 10)%Q in
  let filler_score :=
    Num.qmax 0 (1 - Num.of_nat (Voice.total f)
                    / Num.of_nat (max (Voice.word_count p) 1) * 5)%Q in
  ((pace_score + filler_score
    + (Voice.confidence_score (Voice.confidence cc) + 1) / 2
    + (Voice.clarity_score (Voice.clarity cc) + 1) / 2) / 4)%Q.

(** [c[w]] on a counter: the count held for [w], 0 when [w] is not a key. *)
Fixpoint counter_get {K : Type} (same : K -> K -> bool) (w : K)
    (c : list (K * nat)) : nat :=
  match c with
  | [] => 0
  | (k, n) :: rest => if same k w then n else counter_get same w rest
  end.

(** The distinct elements of [l], in the order of their first occurrence. *)
Definition first_occurrences (l : list ustring) : list ustring :=
  foldl (fun acc w => if Str.member w acc then acc else acc ++ [w]) [] l.

(** *** Whole-word occurrences of a phrase *)

Section WholeWords.

Variable U : Str.unicode.

(** A word character: a letter or a digit of the Unicode database, or the
    underscore. *)
Definition word_char (c : N) : bool :=
  Str.isalnum U c || bool_decide (c = 95%N).

(** Is the character of index [i] a word character?  It is not when [i] is
    outside of [s]. *)
Definition word_at (s : ustring) (i : nat) : bool :=
  match s !! i with
  | Some c => word_char c
  | None => false
  end.

(** A word boundary before the character of index [i]: of the characters of
    index [i - 1] and [i], exactly one is a word character. *)
Definition word_boundary (s : ustring) (i : nat) : bool :=
  match i with
  | 0 => word_at s 0
  | S j => negb (bool_decide (word_at s j = word_at s i))
  end.

(** The phrase [p] stands in [s] from index [i] on, as whole words: [p] is
    there, with a word boundary before it and one after it. *)
Definition stands_at (p s : ustring) (i : nat) : bool :=
  bool_decide (take (length p) (drop i s) = p)
  && word_boundary s i && word_boundary s (i + length p).

(** The number of places of [s] where [p] stands as whole words. *)
Definition whole_word_occurrences (p s : ustring) : nat :=
  length (List.filter (stands_at p s) (seq 0 (length s))).

(** The same count, by a walk through [s] that remembers the character
    before. *)
Fixpoint occurrences_from (p : ustring) (prev : option N) (s : ustring) : nat :=
  match s with
  | [] => 0
  | c :: s' =>
      (if Str.match_here U p prev s then 1 else 0) + occurrences_from p (Some c) s'
  end.

(** No place among the first [k] of [s] is one where [p] stands between word
    boundaries. *)
Fixpoint no_match_within (p : ustring) (prev : option N) (k : nat) (s : ustring)
    : bool :=
  match k, s with
  | S k', c :: s' =>
      negb (Str.match_here U p prev s) && no_match_within p (Some c) k' s'
  | _, _ => true
  end.

(** A phrase that cannot overlap a copy of itself placed between word
    boundaries: no proper suffix [v] of [p] starts at a word boundary and is
    a prefix of [p]. *)
Fixpoint overlap_free_from (p : ustring) (prev : N) (v : ustring) : bool :=
  match v with
  | [] => true
  | c :: v' =>
      negb (Str.boundary U (Some prev) (Some c) && Str.prefix v p)
      && overlap_free_from p c v'
  end.

Definition overlap_free (p : ustring) : bool :=
  match p with
  | [] => false
  | c :: v => overlap_free_from p c v
  end.

End WholeWords.

(** The result [r] with another timestamp and another image: the two
    arguments of [analyze_facial_expression]. *)
Definition facial_with_inputs (timestamp image_data : pyval) (r : Facial.result)
    : Facial.result :=
  match r with
  | Facial.Failure _ e => Facial.Failure timestamp e
  | Facial.Success _ face engaged eyes body prof kind _ =>
      Facial.Success timestamp face engaged eyes body prof kind (truthy image_data)
  end.

(** The parsed body is a JSON object. *)
Definition is_dict (v : pyval) : bool :=
  match v with
  | PDict _ => true
  | _ => false
  end.

(** [data.get(key, default)] when [data] is a JSON object, and [default] when
    it is not. *)
Definition get_or (data : pyval) (key : string) (default : pyval) : pyval :=
  match App.dict_get data key default with
  | Ok v => v
  | Raise _ _ => default
  end.

(** What the summary needs from a result of the scorer. *)
Definition scored (r : Facial.result) : Prop :=
  exists ts fe en ey po pr k ip,
    r = Facial.Success ts fe en ey po pr k ip /\
    In (Facial.expression_name (Facial.primary fe)) Facial.expressions /\
    (2 # 10 <= Facial.engagement_score en)%Q /\
    (Facial.engagement_score en <= 9 # 10)%Q /\
    (1 # 10 <= Facial.eye_contact_score ey)%Q /\
    (Facial.eye_contact_score ey <= 1)%Q /\
    (65 # 100 <= Facial.professionalism_score pr)%Q /\
    (Facial.professionalism_score pr <= 1)%Q.

(** ** Sample results, to run the properties on *)

Definition sample_voice_result : Voice.result :=
  Eval vm_compute in
    Voice.analyze_voice ascii_unicode
      (PStr (txt "well, I definitely led the team"))
      (PStr (txt "00:01")) (PInt 2).

Definition sample_sentiment_result : Sentiment.result :=
  Eval vm_compute in
    Sentiment.analyze_sentiment ascii_unicode plain_nlp
      (PStr (txt "I definitely improved the results"))
      (PStr (txt "00:01")).

Definition sample_voice_summary : exc (summary_of Voice.voice_summary) :=
  Eval vm_compute in
    Voice.get_voice_summary
      (map (fun c => Voice.analyze_voice ascii_unicode
                       (fst (fst c)) (snd (fst c)) (snd c))
         [(PStr (txt "well, I definitely led the team"),
           PStr (txt "00:01"), PInt 2);
          (PStr [], PStr (txt "00:02"), PNone)]).

(** * Running the model *)

Example split_ex :
  Str.split (txt "  um, so  I think ") = map txt ["um,"; "so"; "I"; "think"].
Proof. reflexivity. Qed.

(** The no-break space, the ideographic space and the line separator
    separate words as the space does. *)
Example split_unicode_ex :
  Str.split ([160] ++ txt "a" ++ [12288] ++ txt "b" ++ [8232])%N
  = map txt ["a"; "b"].
Proof. reflexivity. Qed.

Example strip_ex : Str.strip (txt "  a b  ") = txt "a b".
Proof. reflexivity. Qed.

Example strip_unicode_ex : Str.strip [160; 133; 8239]%N = [].
Proof. reflexivity. Qed.

Example count_ex : Str.count (txt "...") (txt "a....... b") = 2.
Proof. reflexivity. Qed.

Example findall_ex :
  Str.findall_count ascii_unicode (txt "so") (txt "so, also so-so") = 3.
Proof. reflexivity. Qed.

Example findall_phrase_ex :
  Str.findall_count ascii_unicode (txt "you know")
    (txt "you know, you knowledge, do you know") = 2.
Proof. reflexivity. Qed.

Example split_stops_ex : Str.split_stops_len (txt "Hi. How?! ok") = 3.
Proof. reflexivity. Qed.

Example pyround_ex : Num.pyround 1 (60 # 7) = (43 # 5)%Q.
Proof. reflexivity. Qed.

Example pyround_tie_ex : Num.pyround 1 (25 # 100) = (1 # 5)%Q.
Proof. reflexivity. Qed.

Example most_common_ex :
  Sentiment.most_common 3
    (Sentiment.counter (map txt ["x"; "y"; "z"; "y"; "z"; "w"]))
  = [(txt "y", 2); (txt "z", 2); (txt "x", 1)].
Proof. reflexivity. Qed.

Example analyze_pauses_ex :
  Voice.analyze_pauses (txt "Well... I think -- yes; no. Ok?!")
  = Ok {| Voice.total_pauses := 7;
          Voice.pause_frequency_per_100_words := 100;
          Voice.pauses := {| Voice.commas := 0; Voice.periods := 4;
                             Voice.semicolons := 1; Voice.dashes := 1;
                             Voice.ellipses := 1 |};
          Voice.average_sentence_length := 7 # 4;
          Voice.sentences_count := 4 |}.
Proof. reflexivity. Qed.

Example voice_wrong_duration_ex :
  Voice.analyze_voice ascii_unicode (PStr (txt "hello")) (PInt 5) (PStr (txt "soon"))
  = Voice.Failure (PInt 5)
      "Voice analysis failed: unsupported operand type(s) for /: 'int' and 'str'".
Proof. reflexivity. Qed.

Example sentiment_summary_ex :
  Sentiment.get_overall_sentiment_summary
    [Sentiment.analyze_sentiment ascii_unicode plain_nlp (PStr (txt "um"))
       (PStr (txt "00:01"))]
  = Ok (SummaryError "No valid analyses to summarize").
Proof. reflexivity. Qed.

Example missing_text_ex :
  App.comprehensive_analysis ascii_unicode plain_nlp lcg
    (PDict [("timestamp", PStr (txt "00:01"))]) 7%Z
  = ((App.ErrorBody "Text and timestamp are required", 400), 7%Z).
Proof. reflexivity. Qed.

Example not_an_object_ex :
  App.comprehensive_analysis ascii_unicode plain_nlp lcg PNone 7%Z
  = ((App.ErrorBody "Comprehensive analysis failed", 500), 7%Z).
Proof. reflexivity. Qed.

(** * Properties *)

(** ** Numbers *)

Section NumFacts.

Local Open Scope Q_scope.

Lemma pydiv_ok (a b : Q) : ~ b == 0 -> pydiv a b = Ok (a / b).
Proof.
  intros Hb. unfold pydiv.
  destruct (Qeq_bool b 0) eqn:Hz; [|reflexivity].
  apply Qeq_bool_iff in Hz. contradiction.
Qed.

Lemma of_nat_pos (n : nat) : (0 < n)%nat -> 0 < Num.of_nat n.
Proof.
  intros Hn. unfold Num.of_nat, Qlt. simpl. lia.
Qed.

Lemma of_nat_nonzero (n : nat) : (0 < n)%nat -> ~ Num.of_nat n == 0.
Proof.
  intros Hn Hz. apply of_nat_pos in Hn. rewrite Hz in Hn.
  exact (Qlt_irrefl 0 Hn).
Qed.

Lemma pydiv_max (a : Q) (n : nat) :
  pydiv a (Num.of_nat (max n 1)) = Ok (a / Num.of_nat (max n 1)).
Proof. apply pydiv_ok, of_nat_nonzero. lia. Qed.

Lemma ltb_spec (a b : Q) : Num.ltb a b = true <-> a < b.
Proof.
  unfold Num.ltb. rewrite negb_true_iff. split.
  - intros H. apply Qnot_le_lt. intros Hle.
    apply Qle_bool_iff in Hle. congruence.
  - intros H. destruct (Qle_bool b a) eqn:Hle; [|reflexivity].
    apply Qle_bool_iff in Hle. exfalso. exact (Qlt_not_le _ _ H Hle).
Qed.

Lemma gtb_spec (a b : Q) : Num.gtb a b = true <-> b < a.
Proof. apply ltb_spec. Qed.

Lemma round_half_even_comp (q q' : Q) :
  q == q' -> Num.round_half_even q = Num.round_half_even q'.
Proof.
  intros H. unfold Num.round_half_even.
  rewrite (Qfloor_comp _ _ H).
  assert (Hc : (q - inject_Z (Qfloor q') ?= 1 # 2) = (q' - inject_Z (Qfloor q') ?= 1 # 2)).
  { apply Qcompare_comp; [rewrite H; reflexivity | reflexivity]. }
  rewrite Hc. reflexivity.
Qed.

Lemma round_half_even_lower (k : Z) (q : Q) :
  inject_Z k <= q -> (k <= Num.round_half_even q)%Z.
Proof.
  intros H. apply Qfloor_resp_le in H. rewrite Qfloor_Z in H.
  unfold Num.round_half_even.
  destruct (q - inject_Z (Qfloor q) ?= 1 # 2); [destruct (Z.even _)| |]; lia.
Qed.

Lemma round_half_even_upper (k : Z) (q : Q) :
  q <= inject_Z k -> (Num.round_half_even q <= k)%Z.
Proof.
  intros H. unfold Num.round_half_even.
  pose proof (Qfloor_le q) as Hfl.
  assert (Hfk : (Qfloor q <= k)%Z).
  { apply Qfloor_resp_le in H. rewrite Qfloor_Z in H. exact H. }
  destruct (Z.eq_dec (Qfloor q) k) as [Heq | Hne].
  - assert (Hd : q - inject_Z (Qfloor q) <= 0).
    { rewrite Heq. apply (Qplus_le_l _ _ (inject_Z k)). ring_simplify. exact H. }
    assert (Hlt : q - inject_Z (Qfloor q) < 1 # 2).
    { eapply Qle_lt_trans; [exact Hd | reflexivity]. }
    assert (Hc : (q - inject_Z (Qfloor q) ?= 1 # 2) = Lt) by (apply Qlt_alt; exact Hlt).
    rewrite Hc. lia.
  - destruct (q - inject_Z (Qfloor q) ?= 1 # 2); [destruct (Z.even _)| |]; lia.
Qed.

Lemma pow10_pos (nd : nat) : 0 < inject_Z (10 ^ Z.of_nat nd).
Proof.
  change 0 with (inject_Z 0). rewrite <- Zlt_Qlt.
  apply Z.pow_pos_nonneg; lia.
Qed.

Lemma pow10_cancel (nd : nat) (z : Z) :
  inject_Z z / inject_Z (10 ^ Z.of_nat nd) * inject_Z (10 ^ Z.of_nat nd)
  == inject_Z z.
Proof.
  pose proof (pow10_pos nd) as Hp.
  rewrite Qmult_comm. apply Qmult_div_r.
  intros Hz. rewrite Hz in Hp. exact (Qlt_irrefl _ Hp).
Qed.

(** Rounding to [nd] decimals never crosses a number that has at most
    [nd] decimals. *)
Lemma pyround_lower (nd : nat) (a : Z) (q : Q) :
  inject_Z a / inject_Z (10 ^ Z.of_nat nd) <= q ->
  inject_Z a / inject_Z (10 ^ Z.of_nat nd) <= Num.pyround nd q.
Proof.
  intros Ha. unfold Num.pyround. rewrite Qred_correct.
  pose proof (pow10_pos nd) as Hp.
  apply Qle_shift_div_l; [exact Hp|]. rewrite pow10_cancel.
  rewrite <- Zle_Qle. apply round_half_even_lower.
  rewrite <- (pow10_cancel nd a). apply Qmult_le_r; assumption.
Qed.

Lemma pyround_upper (nd : nat) (b : Z) (q : Q) :
  q <= inject_Z b / inject_Z (10 ^ Z.of_nat nd) ->
  Num.pyround nd q <= inject_Z b / inject_Z (10 ^ Z.of_nat nd).
Proof.
  intros Hb. unfold Num.pyround. rewrite Qred_correct.
  pose proof (pow10_pos nd) as Hp.
  apply Qle_shift_div_r; [exact Hp|]. rewrite pow10_cancel.
  rewrite <- Zle_Qle. apply round_half_even_upper.
  rewrite <- (pow10_cancel nd b). apply Qmult_le_r; assumption.
Qed.

Lemma pyround_nonpos (nd : nat) (q : Q) : q <= 0 -> Num.pyround nd q <= 0.
Proof.
  intros Hq.
  assert (Hz : inject_Z 0 / inject_Z (10 ^ Z.of_nat nd) == 0)
    by (unfold Qdiv; apply Qmult_0_l).
  rewrite <- Hz. apply pyround_upper. rewrite Hz. exact Hq.
Qed.

(** A count divided by a negative number, times sixty. *)
Lemma rate_nonpos (n : nat) (d : Q) : d < 0 -> Num.of_nat n / d * 60 <= 0.
Proof.
  intros Hd.
  assert (Hnz : ~ d == 0) by (intros Hz; rewrite Hz in Hd; exact (Qlt_irrefl _ Hd)).
  assert (Hpos : 0 < - d).
  { apply (Qplus_lt_l _ _ d). ring_simplify. exact Hd. }
  assert (Hq : 0 <= Num.of_nat n / - d).
  { apply Qle_shift_div_l; [exact Hpos|]. rewrite Qmult_0_l.
    unfold Num.of_nat, Qle. simpl. lia. }
  assert (Heq : Num.of_nat n / d * 60 == - (Num.of_nat n / - d * 60))
    by (field; exact Hnz).
  rewrite Heq. apply (Qplus_le_l _ _ (Num.of_nat n / - d * 60)). ring_simplify.
  apply Qmult_le_0_compat; [discriminate | exact Hq].
Qed.

Lemma pyround_comp (nd : nat) (q q' : Q) :
  q == q' -> Num.pyround nd q = Num.pyround nd q'.
Proof.
  intros H. unfold Num.pyround.
  f_equal. f_equal. f_equal. apply round_half_even_comp.
  rewrite H. reflexivity.
Qed.

(** Rounding to [nd] decimals stays above a lower bound and below an upper
    bound that have at most [nd] decimals. *)
Lemma pyround_ge (nd : nat) (a : Z) (lo q : Q) :
  lo == inject_Z a / inject_Z (10 ^ Z.of_nat nd) ->
  lo <= q -> lo <= Num.pyround nd q.
Proof.
  intros Hlo Hq. rewrite Hlo. apply pyround_lower. rewrite <- Hlo. exact Hq.
Qed.

Lemma pyround_le (nd : nat) (b : Z) (hi q : Q) :
  hi == inject_Z b / inject_Z (10 ^ Z.of_nat nd) ->
  q <= hi -> Num.pyround nd q <= hi.
Proof.
  intros Hhi Hq. rewrite Hhi. apply pyround_upper. rewrite <- Hhi. exact Hq.
Qed.

Lemma round_half_even_Z (z : Z) : Num.round_half_even (inject_Z z) = z.
Proof.
  apply Z.le_antisymm.
  - apply round_half_even_upper, Qle_refl.
  - apply round_half_even_lower, Qle_refl.
Qed.

(** The nearest integer is at most one half away. *)
Lemma round_half_even_close (q : Q) :
  - (1 # 2) <= inject_Z (Num.round_half_even q) - q <= 1 # 2.
Proof.
  unfold Num.round_half_even.
  pose proof (Qfloor_le q) as Hlo. pose proof (Qlt_floor q) as Hhi.
  rewrite inject_Z_plus in Hhi. change (inject_Z 1) with 1 in Hhi.
  set (f := inject_Z (Qfloor q)) in *.
  destruct (q - f ?= 1 # 2) eqn:Hc.
  - apply Qeq_alt in Hc.
    destruct (Z.even (Qfloor q)); [|rewrite inject_Z_plus; change (inject_Z 1) with 1];
      fold f; lra.
  - apply Qlt_alt in Hc. fold f. lra.
  - apply Qgt_alt in Hc. rewrite inject_Z_plus. change (inject_Z 1) with 1.
    fold f. lra.
Qed.

Lemma pyround_value (nd : nat) (q : Q) :
  Num.pyround nd q
  == inject_Z (Num.round_half_even (q * inject_Z (10 ^ Z.of_nat nd)))
     / inject_Z (10 ^ Z.of_nat nd).
Proof. unfold Num.pyround. apply Qred_correct. Qed.

(** [round(q, nd)] has at most [nd] decimals. *)
Lemma pyround_decimals (nd : nat) (q : Q) : decimals nd (Num.pyround nd q).
Proof. eexists. apply pyround_value. Qed.

(** [round(q, nd)] is at most half a unit of the last decimal away from
    [q]. *)
Lemma pyround_close (nd : nat) (q : Q) :
  Qabs (Num.pyround nd q - q) <= (1 # 2) / inject_Z (10 ^ Z.of_nat nd).
Proof.
  pose proof (pow10_pos nd) as Hp.
  pose proof (round_half_even_close (q * inject_Z (10 ^ Z.of_nat nd))) as [Hlo Hhi].
  rewrite pyround_value.
  set (P := inject_Z (10 ^ Z.of_nat nd)) in *.
  set (r := inject_Z (Num.round_half_even (q * P))) in *.
  assert (Hnz : ~ P == 0) by (intros Hz; rewrite Hz in Hp; exact (Qlt_irrefl _ Hp)).
  assert (E : r / P - q == (r - q * P) / P) by (field; exact Hnz).
  rewrite E. apply Qabs_Qle_condition. split.
  - apply Qle_shift_div_l; [exact Hp|].
    assert (E2 : - ((1 # 2) / P) * P == - (1 # 2)) by (field; exact Hnz).
    rewrite E2. exact Hlo.
  - apply Qle_shift_div_l; [exact Hp|].
    assert (E2 : (r - q * P) / P * P == r - q * P) by (field; exact Hnz).
    rewrite E2. exact Hhi.
Qed.

(** A number with at most [nd] decimals is left as it is. *)
Lemma pyround_exact (nd : nat) (q : Q) :
  decimals nd q -> Num.pyround nd q == q.
Proof.
  intros [k Hk]. rewrite pyround_value.
  assert (E : q * inject_Z (10 ^ Z.of_nat nd) == inject_Z k)
    by (rewrite Hk; apply pow10_cancel).
  rewrite (round_half_even_comp _ _ E), round_half_even_Z.
  symmetry. exact Hk.
Qed.

End NumFacts.

(** ** Strings *)

Section StrFacts.

Lemma is_empty_spec (s : ustring) : Str.is_empty s = true <-> s = [].
Proof. destruct s; simpl; split; congruence. Qed.

Lemma eqb_eq (a b : ustring) : Str.eqb a b = true <-> a = b.
Proof.
  revert b. induction a as [|x a IH]; intros [|y b]; simpl;
    try (split; congruence).
  rewrite andb_true_iff, N.eqb_eq, IH. split; [intros [-> ->] | intros [= -> ->]]; auto.
Qed.

Lemma eqb_refl (a : ustring) : Str.eqb a a = true.
Proof. now apply eqb_eq. Qed.

Lemma eqb_sym (a b : ustring) : Str.eqb a b = Str.eqb b a.
Proof.
  destruct (Str.eqb a b) eqn:H1, (Str.eqb b a) eqn:H2; try reflexivity.
  - apply eqb_eq in H1. subst b. rewrite eqb_refl in H2. discriminate.
  - apply eqb_eq in H2. subst b. rewrite eqb_refl in H1. discriminate.
Qed.

Lemma eqb_neq (a b : ustring) : Str.eqb a b = false <-> a <> b.
Proof.
  rewrite <- eqb_eq. destruct (Str.eqb a b); split; congruence.
Qed.

(** A check that a text is ASCII. *)
Lemma ascii_text_check (s : ustring) :
  forallb (fun c => (c <? 128)%N) s = true -> ascii_text s.
Proof.
  intros H. apply Forall_forall. intros c Hc.
  rewrite forallb_forall in H. apply N.ltb_lt, H. now apply list_elem_of_In.
Qed.

Lemma is_space_spec (c : N) : Str.is_space c = true <-> In c white_space.
Proof.
  split.
  - unfold Str.is_space, Str.between. intros H.
    repeat rewrite orb_true_iff in H. repeat rewrite andb_true_iff in H.
    repeat rewrite N.leb_le in H. repeat rewrite N.eqb_eq in H.
    unfold white_space. simpl. lia.
  - unfold white_space. intros H.
    repeat (destruct H as [<-|H]; [reflexivity|]). destruct H.
Qed.

(** The texts that Python takes for blank are the empty text and the texts
    made of White_Space characters. *)
Lemma blank_spec (s : ustring) : blank s <-> Str.all_space s = true.
Proof.
  unfold blank. induction s as [|c s IH]; simpl.
  - split; [reflexivity | constructor].
  - rewrite andb_true_iff, is_space_spec, <- IH. split.
    + intros H. inversion H; subst. auto.
    + intros [Hc Hs]. now constructor.
Qed.

Lemma lstrip_all_space (s : ustring) :
  Str.all_space (Str.lstrip s) = Str.all_space s.
Proof.
  induction s as [|c s IH]; simpl; [reflexivity|].
  destruct (Str.is_space c) eqn:Hc; simpl; [exact IH | now rewrite Hc].
Qed.

Lemma rstrip_empty (s : ustring) :
  Str.rstrip s = [] <-> Str.all_space s = true.
Proof.
  induction s as [|c s IH]; simpl; [tauto|].
  destruct (Str.is_space c); simpl.
  - destruct (Str.is_empty (Str.rstrip s)) eqn:He.
    + apply is_empty_spec in He. split; [intros _; now apply IH | reflexivity].
    + split; [discriminate|]. intros H. apply IH in H.
      rewrite H in He. discriminate.
  - split; discriminate.
Qed.

(** [not s.strip()] holds exactly of the empty and whitespace-only strings. *)
Lemma strip_empty (s : ustring) :
  Str.strip s = [] <-> Str.all_space s = true.
Proof.
  unfold Str.strip. rewrite rstrip_empty. now rewrite lstrip_all_space.
Qed.

Lemma split_aux_nil (cur s : ustring) :
  Str.split_aux cur s = [] <-> cur = [] /\ Str.all_space s = true.
Proof.
  revert cur. induction s as [|c s IH]; intros cur; simpl.
  - destruct cur; simpl; split; try tauto; try discriminate.
    intros [H _]. discriminate.
  - destruct (Str.is_space c); simpl.
    + destruct cur; simpl.
      * rewrite IH. tauto.
      * split; [discriminate | intros [H _]; discriminate].
    + rewrite IH. split; [|intros [_ H]; discriminate].
      intros [H _]. destruct cur; discriminate.
Qed.

(** [s.split()] is empty exactly for the empty and whitespace-only strings. *)
Lemma split_nil (s : ustring) :
  Str.split s = [] <-> Str.all_space s = true.
Proof. unfold Str.split. rewrite split_aux_nil. tauto. Qed.

Lemma sub_nonword_all_space (U : Str.unicode) (s : ustring) :
  Str.all_space s = true -> Str.sub_nonword U s = s.
Proof.
  induction s as [|c s IH]; simpl; [reflexivity|].
  intros [Hc Hs]%andb_prop. rewrite Hc, orb_true_r, IH; auto.
Qed.

End StrFacts.

(** ** The ASCII database *)

Lemma ascii_lower_idempotent (c : N) :
  Str.ascii_lower (Str.ascii_lower c) = Str.ascii_lower c.
Proof.
  unfold Str.ascii_lower, Str.between.
  destruct ((65 <=? c)%N && (c <=? 90)%N) eqn:Hc; [|now rewrite Hc].
  apply andb_prop in Hc as [H1 H2]. apply N.leb_le in H1, H2.
  assert (Hn : ((65 <=? c + 32)%N && (c + 32 <=? 90)%N) = false).
  { apply andb_false_iff. right. apply N.leb_gt. lia. }
  now rewrite Hn.
Qed.

Lemma ascii_lower_space (c : N) :
  Str.is_space c = true -> Str.ascii_lower c = c.
Proof.
  intros H. apply is_space_spec in H. unfold white_space in H.
  repeat (destruct H as [<-|H]; [reflexivity|]). destruct H.
Qed.

Lemma ascii_unicode_ok : unicode_ok ascii_unicode.
Proof.
  split.
  - reflexivity.
  - reflexivity.
  - intros s. cbn [Str.lower ascii_unicode].
    induction s as [|c s IH]; simpl; [reflexivity|].
    intros [Hc Hs]%andb_prop. now rewrite ascii_lower_space, IH.
  - intros s. cbn [Str.lower ascii_unicode]. rewrite map_map.
    apply map_ext. intros c. apply ascii_lower_idempotent.
Qed.

(** ** Empty and whitespace-only text *)

Lemma plain_tokenizer_blank : tokenizer_blank plain_nlp.
Proof.
  intros text tokens Hblank Htok. simpl in Htok.
  injection Htok as <-. now apply split_nil.
Qed.

Lemma sentiment_blank (U : Str.unicode) (E : nlp) (text : ustring)
    (timestamp : pyval) :
  unicode_ok U -> tokenizer_blank E -> Str.all_space text = true ->
  exists msg,
    Sentiment.analyze_sentiment U E (PStr text) timestamp
    = Sentiment.Failure timestamp msg.
Proof.
  intros HU Htok Hblank.
  unfold Sentiment.analyze_sentiment, Sentiment.analyze_sentiment_try,
    Sentiment.filter_text.
  cbn [as_str bind].
  rewrite (lower_blank U HU _ Hblank), (sub_nonword_all_space U _ Hblank).
  destruct (word_tokenize E text) as [tokens | kind msg] eqn:Ht; cbn [bind].
  - rewrite (Htok _ _ Hblank Ht). simpl. eauto.
  - eauto.
Qed.

Lemma voice_blank (U : Str.unicode) (fillers : list string) (text : ustring)
    (timestamp duration : pyval) :
  Str.all_space text = true ->
  Voice.analyze_voice_in U fillers (PStr text) timestamp duration
  = Voice.Failure timestamp "No text provided for voice analysis".
Proof.
  intros Hblank. unfold Voice.analyze_voice_in, Voice.analyze_voice_try. simpl.
  apply strip_empty in Hblank. now rewrite Hblank.
Qed.

(** C1. For every text that is empty or made of whitespace only, in
    Python's sense of whitespace (the space, the no-break space, the line
    separator and the other White_Space characters), [analyze_sentiment] and
    [analyze_voice] both return (and so do not raise) the error dict: its keys
    are [timestamp] and [error], and no score key, in particular no
    [sentiment] key, is among them. *)
Theorem blank_text_gives_error_result
    (U : Str.unicode) (E : nlp) (text : ustring) (timestamp duration : pyval) :
  unicode_ok U ->
  tokenizer_blank E ->
  blank text ->
  (exists msg,
     Sentiment.analyze_sentiment U E (PStr text) timestamp
     = Sentiment.Failure timestamp msg) /\
  Sentiment.keys (Sentiment.analyze_sentiment U E (PStr text) timestamp)
  = ["timestamp"; "error"] /\
  Str.mem "sentiment"
    (Sentiment.keys (Sentiment.analyze_sentiment U E (PStr text) timestamp))
  = false /\
  Voice.analyze_voice U (PStr text) timestamp duration
  = Voice.Failure timestamp "No text provided for voice analysis" /\
  Voice.keys (Voice.analyze_voice U (PStr text) timestamp duration)
  = ["timestamp"; "error"].
Proof.
  intros HU Htok Hblank. apply blank_spec in Hblank.
  destruct (sentiment_blank U E text timestamp HU Htok Hblank) as [msg Hs].
  pose proof (voice_blank U Voice.filler_words text timestamp duration Hblank) as Hv.
  fold (Voice.analyze_voice U) in Hv. rewrite Hs, Hv.
  repeat split; eauto.
Qed.

Lemma blank_text_gives_error_result_witness :
  Sentiment.keys
    (Sentiment.analyze_sentiment ascii_unicode plain_nlp
       (PStr [32; 160; 12288; 8232; 9]%N) (PInt 17))
  = ["timestamp"; "error"] /\
  Voice.keys
    (Voice.analyze_voice ascii_unicode (PStr [32; 160; 12288; 8232; 9]%N)
       (PInt 17) PNone)
  = ["timestamp"; "error"].
Proof.
  destruct (blank_text_gives_error_result ascii_unicode plain_nlp
              [32; 160; 12288; 8232; 9]%N (PInt 17) PNone
              ascii_unicode_ok plain_tokenizer_blank
              (proj2 (blank_spec [32; 160; 12288; 8232; 9]%N) eq_refl)) as (_ & Hs & _ & _ & Hv).
  split; assumption.
Defined.

(** ** Matches of a phrase between word boundaries *)

Section Occurrences.

Variable U : Str.unicode.

Lemma prefix_app (p s : ustring) :
  Str.prefix p s = true -> exists rest, s = p ++ rest.
Proof.
  revert s. induction p as [|a p IH]; intros s; simpl.
  - intros _. now exists s.
  - destruct s as [|c s]; [intros [=]|].
    intros [Hc H]%andb_prop. apply N.eqb_eq in Hc. subst c.
    destruct (IH s H) as [rest ->]. now exists rest.
Qed.

Lemma prefix_take (p s : ustring) :
  Str.prefix p s = true <-> take (length p) s = p.
Proof.
  revert s. induction p as [|a p IH]; intros s; simpl.
  - split; [intros _; now rewrite take_0 | reflexivity].
  - destruct s as [|c s]; simpl; [split; discriminate|].
    rewrite andb_true_iff, N.eqb_eq, IH.
    split; [intros [-> ->]; reflexivity | intros [= -> H]; auto].
Qed.

(** Two prefixes of one string: the shorter is a prefix of the longer. *)
Lemma prefix_of_prefix (p v rest : ustring) :
  Str.prefix p (v ++ rest) = true ->
  length v <= length p ->
  Str.prefix v p = true.
Proof.
  revert p. induction v as [|c v IH]; intros p; simpl;
    [intros _ _; destruct p; reflexivity|].
  destruct p as [|a p]; simpl; [lia|].
  intros [Hc H]%andb_prop Hlen. apply N.eqb_eq in Hc. subst c.
  rewrite N.eqb_refl. simpl. apply IH; [exact H | lia].
Qed.

Lemma overlap_free_no_match (p v rest : ustring) (prev : N) :
  overlap_free_from U p prev v = true ->
  length v <= length p ->
  no_match_within U p (Some prev) (length v) (v ++ rest) = true.
Proof.
  revert prev. induction v as [|c v IH]; intros prev; simpl; [reflexivity|].
  intros [Hhere Hrest]%andb_prop Hlen.
  rewrite IH by (exact Hrest || lia). rewrite andb_true_r.
  apply negb_true_iff. apply negb_true_iff in Hhere.
  unfold Str.match_here.
  change ((c :: v ++ rest) !! 0) with (Some c).
  destruct (Str.boundary U (Some prev) (Some c)); [|reflexivity].
  cbn [andb] in *.
  destruct (Str.prefix p (c :: v ++ rest)) eqn:Hp; [|reflexivity].
  apply (prefix_of_prefix p (c :: v) rest) in Hp; [|simpl; lia].
  simpl in Hp. congruence.
Qed.

(** After a match of an overlap-free phrase, the places that the match
    covers hold no further match. *)
Lemma match_covers_no_match (p : ustring) (prev : option N) (c : N)
    (s : ustring) :
  overlap_free U p = true ->
  Str.match_here U p prev (c :: s) = true ->
  no_match_within U p (Some c) (length p - 1) s = true.
Proof.
  intros Hfree Hmatch. unfold Str.match_here in Hmatch.
  apply andb_prop in Hmatch as [[_ Hp]%andb_prop _].
  destruct p as [|a v]; [discriminate|].
  simpl in Hp. apply andb_prop in Hp as [Hc Hp]. apply N.eqb_eq in Hc. subst c.
  destruct (prefix_app v s Hp) as [rest ->].
  replace (length (a :: v) - 1) with (length v) by (simpl; lia).
  apply overlap_free_no_match; [exact Hfree | simpl; lia].
Qed.

Lemma findall_occurrences_from (p : ustring) (prev : option N) (skip : nat)
    (s : ustring) :
  overlap_free U p = true ->
  no_match_within U p prev skip s = true ->
  Str.findall_from U p prev skip s = occurrences_from U p prev s.
Proof.
  intros Hfree. revert prev skip.
  induction s as [|c s IH]; intros prev skip Hskip; [reflexivity|].
  cbn [Str.findall_from occurrences_from].
  destruct skip as [|k].
  - destruct (Str.match_here U p prev (c :: s)) eqn:Hm.
    + rewrite IH; [reflexivity|]. eapply match_covers_no_match; eassumption.
    + rewrite IH; reflexivity.
  - cbn [no_match_within] in Hskip.
    apply andb_prop in Hskip as [Hm Hk]. apply negb_true_iff in Hm.
    rewrite Hm, IH; [reflexivity | exact Hk].
Qed.

(** The walk that remembers the character before looks at the places of the
    text one by one. *)
Lemma word_char_is_word (c : N) : word_char U c = Str.is_word U c.
Proof.
  unfold word_char, Str.is_word. f_equal.
  destruct (N.eqb_spec c 95) as [->|Hne].
  - now apply bool_decide_eq_true.
  - now apply bool_decide_eq_false.
Qed.

Lemma word_at_lookup (s : ustring) (i : nat) :
  word_at U s i = Str.is_word_at U (s !! i).
Proof.
  unfold word_at, Str.is_word_at. destruct (s !! i); [apply word_char_is_word | reflexivity].
Qed.

Lemma xorb_decide (a b : bool) : xorb a b = negb (bool_decide (a = b)).
Proof. destruct a, b; reflexivity. Qed.

Lemma boundary_at (pre s : ustring) :
  word_boundary U (pre ++ s) (length pre)
  = Str.boundary U (last pre) (s !! 0).
Proof.
  unfold Str.boundary. destruct pre as [|c pre] using rev_ind.
  - cbn [app length last word_boundary]. rewrite word_at_lookup. reflexivity.
  - rewrite length_app. cbn [length]. rewrite Nat.add_1_r.
    cbn [word_boundary]. rewrite !word_at_lookup, xorb_decide, last_snoc.
    assert (H1 : ((pre ++ [c]) ++ s) !! length pre = Some c).
    { rewrite <- app_assoc. now apply list_lookup_middle. }
    assert (H2 : ((pre ++ [c]) ++ s) !! S (length pre) = s !! 0).
    { rewrite lookup_app_r by (rewrite length_app; simpl; lia).
      rewrite length_app. cbn [length].
      replace (S (length pre) - (length pre + 1)) with 0 by lia. reflexivity. }
    rewrite <- !xorb_decide. unfold ustring in *. rewrite H1, H2. reflexivity.
Qed.

Lemma boundary_after (pre s : ustring) (k : nat) :
  word_boundary U (pre ++ s) (length pre + S k)
  = Str.boundary U (s !! k) (s !! S k).
Proof.
  unfold Str.boundary. rewrite Nat.add_succ_r. cbn [word_boundary].
  rewrite !word_at_lookup, <- xorb_decide. unfold ustring in *.
  rewrite !lookup_app_r by lia.
  replace (length pre + k - length pre) with k by lia.
  replace (S (length pre + k) - length pre) with (S k) by lia.
  reflexivity.
Qed.

Lemma match_here_stands (p pre s : ustring) :
  p <> [] ->
  Str.match_here U p (last pre) s = stands_at U p (pre ++ s) (length pre).
Proof.
  intros Hp. unfold Str.match_here, stands_at.
  rewrite drop_app_length, boundary_at.
  destruct p as [|a p]; [contradiction|].
  cbn [length]. rewrite Nat.sub_succ, Nat.sub_0_r, boundary_after.
  rewrite (andb_comm (Str.boundary U (last pre) (s !! 0)) _).
  f_equal. f_equal.
  destruct (Str.prefix (a :: p) s) eqn:Hpre.
  - symmetry. apply bool_decide_eq_true.
    exact (proj1 (prefix_take (a :: p) s) Hpre).
  - symmetry. apply bool_decide_eq_false. intros H.
    apply (proj2 (prefix_take (a :: p) s)) in H. congruence.
Qed.

Lemma occurrences_from_places (p pre s : ustring) :
  p <> [] ->
  occurrences_from U p (last pre) s
  = length (List.filter (stands_at U p (pre ++ s)) (seq (length pre) (length s))).
Proof.
  intros Hp. revert pre. induction s as [|c s IH]; intros pre; [reflexivity|].
  cbn [occurrences_from length seq List.filter].
  rewrite (match_here_stands p pre (c :: s) Hp).
  specialize (IH (pre ++ [c])). rewrite last_snoc, <- app_assoc in IH.
  cbn [app] in IH. rewrite IH, length_app. cbn [length]. rewrite Nat.add_1_r.
  destruct (stands_at U p (pre ++ c :: s) (length pre)); reflexivity.
Qed.

(** For an overlap-free phrase, [re.findall] misses no place where the
    phrase stands as whole words. *)
Lemma findall_count_occurrences (p s : ustring) :
  overlap_free U p = true ->
  Str.findall_count U p s = whole_word_occurrences U p s.
Proof.
  intros Hfree. unfold Str.findall_count, whole_word_occurrences.
  rewrite findall_occurrences_from by (exact Hfree || reflexivity).
  apply (occurrences_from_places p [] s).
  intros ->. discriminate.
Qed.

End Occurrences.

(** ** ASCII texts *)

Section Ascii.

Variable U : Str.unicode.
Hypothesis HU : unicode_ok U.

Lemma is_word_ascii (c : N) :
  (c < 128)%N -> Str.is_word U c = Str.is_word ascii_unicode c.
Proof.
  intros Hc. unfold Str.is_word. now rewrite (isalnum_ascii U HU c Hc).
Qed.

Lemma is_word_at_ascii (c : option N) :
  (forall a, c = Some a -> (a < 128)%N) ->
  Str.is_word_at U c = Str.is_word_at ascii_unicode c.
Proof.
  destruct c as [a|]; [|reflexivity]. intros H. apply is_word_ascii. now apply H.
Qed.

Lemma lookup_ascii (s : ustring) (i : nat) (a : N) :
  ascii_text s -> s !! i = Some a -> (a < 128)%N.
Proof.
  intros Hs Ha. unfold ascii_text in Hs. rewrite Forall_forall in Hs.
  apply Hs. eapply list_elem_of_lookup_2, Ha.
Qed.

Lemma match_here_ascii (p : ustring) (prev : option N) (s : ustring) :
  (forall a, prev = Some a -> (a < 128)%N) -> ascii_text s ->
  Str.match_here U p prev s = Str.match_here ascii_unicode p prev s.
Proof.
  intros Hprev Hs. unfold Str.match_here, Str.boundary.
  rewrite (is_word_at_ascii prev Hprev).
  rewrite !(is_word_at_ascii (s !! _)) by (intros a; apply lookup_ascii, Hs).
  reflexivity.
Qed.

Lemma findall_from_ascii (p : ustring) (prev : option N) (skip : nat)
    (s : ustring) :
  (forall a, prev = Some a -> (a < 128)%N) -> ascii_text s ->
  Str.findall_from U p prev skip s = Str.findall_from ascii_unicode p prev skip s.
Proof.
  revert prev skip. induction s as [|c s IH]; intros prev skip Hprev Hs;
    [reflexivity|].
  cbn [Str.findall_from]. rewrite (match_here_ascii p prev (c :: s) Hprev Hs).
  inversion Hs as [|? ? Hc Hs']; subst.
  assert (Hsome : forall a, Some c = Some a -> (a < 128)%N)
    by (intros a [= <-]; exact Hc).
  destruct skip; [|now apply IH].
  rewrite !IH by assumption. reflexivity.
Qed.

Lemma findall_count_ascii (p s : ustring) :
  ascii_text s ->
  Str.findall_count U p s = Str.findall_count ascii_unicode p s.
Proof. intros Hs. apply findall_from_ascii; [discriminate | exact Hs]. Qed.

Lemma overlap_free_from_ascii (p : ustring) (prev : N) (v : ustring) :
  (prev < 128)%N -> ascii_text v ->
  overlap_free_from U p prev v = overlap_free_from ascii_unicode p prev v.
Proof.
  revert prev. induction v as [|c v IH]; intros prev Hprev Hv; [reflexivity|].
  inversion Hv as [|? ? Hc Hv']; subst.
  cbn [overlap_free_from]. unfold Str.boundary, Str.is_word_at.
  rewrite !is_word_ascii by assumption. rewrite IH by assumption. reflexivity.
Qed.

Lemma overlap_free_ascii (p : ustring) :
  ascii_text p -> overlap_free U p = overlap_free ascii_unicode p.
Proof.
  destruct p as [|c v]; [reflexivity|]. intros Hp.
  inversion Hp; subst. now apply overlap_free_from_ascii.
Qed.

Lemma ascii_lower_ascii (s : ustring) :
  ascii_text s -> ascii_text (map Str.ascii_lower s).
Proof.
  intros Hs. unfold ascii_text in *. rewrite Forall_map.
  eapply Forall_impl; [exact Hs|]. intros c Hc. cbn beta.
  unfold Str.ascii_lower, Str.between.
  destruct ((65 <=? c)%N && (c <=? 90)%N) eqn:H; [|exact Hc].
  apply andb_prop in H as [_ H]. apply N.leb_le in H. lia.
Qed.

Lemma lower_ascii_text (s : ustring) :
  ascii_text s -> Str.lower U s = Str.lower ascii_unicode s.
Proof. intros Hs. now rewrite (lower_ascii U HU s Hs). Qed.

End Ascii.

Lemma filler_words_ascii :
  forall p, In p Voice.filler_words -> ascii_text (txt p).
Proof.
  intros p Hp. apply ascii_text_check. revert p Hp.
  apply forallb_forall. vm_compute. reflexivity.
Qed.

Lemma filler_words_overlap_free (U : Str.unicode) :
  unicode_ok U ->
  forall p, In p Voice.filler_words -> overlap_free U (txt p) = true.
Proof.
  intros HU p Hp.
  rewrite (overlap_free_ascii U HU _ (filler_words_ascii p Hp)).
  revert p Hp. apply forallb_forall. vm_compute. reflexivity.
Qed.

(** ** Filler detection *)

Section Fillers.

Variable U : Str.unicode.
Variable text_lower : ustring.

Let found (p : string) : nat := Str.findall_count U (txt p) text_lower.

Lemma filler_loop_total (l : list string) (m : gmap string nat) (t : nat) :
  snd (foldl (Voice.filler_step U text_lower) (m, t) l)
  = t + sum_list (found <$> l).
Proof.
  revert m t. induction l as [|a l IH]; intros m t; simpl; [lia|].
  unfold Voice.filler_step at 2. simpl. fold (found a).
  destruct (0 <? found a) eqn:Hpos.
  - rewrite IH. unfold fmap. lia.
  - apply Nat.ltb_ge in Hpos. rewrite IH. unfold fmap. lia.
Qed.

Lemma filler_loop_lookup (l : list string) (m : gmap string nat) (t : nat)
    (p : string) :
  fst (foldl (Voice.filler_step U text_lower) (m, t) l) !! p
  = if decide (p ∈ l /\ 0 < found p) then Some (found p) else m !! p.
Proof.
  revert m t. induction l as [|a l IH]; intros m t; cbn [foldl].
  - case_decide as H; [destruct H as [H _]; inversion H | reflexivity].
  - destruct (Voice.filler_step U text_lower (m, t) a) as [m' t'] eqn:Hstep.
    rewrite IH. unfold Voice.filler_step in Hstep. cbn [fst snd] in Hstep.
    fold (found a) in Hstep.
    destruct (0 <? found a) eqn:Hpos; injection Hstep as <- <-.
    + apply Nat.ltb_lt in Hpos.
      destruct (decide (a = p)) as [->|Hne].
      * rewrite lookup_insert_eq.
        rewrite (decide_True (P := p ∈ p :: l /\ _))
          by (split; [apply elem_of_cons; now left | exact Hpos]).
        case_decide; reflexivity.
      * rewrite lookup_insert_ne by exact Hne.
        rewrite (decide_ext (p ∈ a :: l /\ 0 < found p) (p ∈ l /\ 0 < found p));
          [reflexivity|].
        rewrite elem_of_cons. split; [|tauto].
        intros [[Heq|Hin] Hp]; [congruence | tauto].
    + apply Nat.ltb_ge in Hpos.
      rewrite (decide_ext (p ∈ a :: l /\ 0 < found p) (p ∈ l /\ 0 < found p));
        [reflexivity|].
      rewrite elem_of_cons. split; [|tauto].
      intros [[->|Hin] Hp]; [lia | tauto].
Qed.

Lemma filler_loop_dom (l : list string) :
  dom (fst (foldl (Voice.filler_step U text_lower) (∅, 0) l))
  = list_to_set (filter (fun p => 0 < found p) l).
Proof.
  apply set_eq. intros p.
  rewrite elem_of_dom, filler_loop_lookup, elem_of_list_to_set, list_elem_of_filter.
  destruct (decide (p ∈ l /\ 0 < found p)) as [H|H].
  - split; [tauto | eauto].
  - rewrite lookup_empty. split; [intros [? ?]; discriminate | tauto].
Qed.

Lemma filler_loop_size (l : list string) :
  NoDup l ->
  size (fst (foldl (Voice.filler_step U text_lower) (∅, 0) l))
  = length (filter (fun p => 0 < found p) l).
Proof.
  intros Hnd. rewrite <- size_dom, filler_loop_dom.
  apply size_list_to_set. apply NoDup_filter. exact Hnd.
Qed.

End Fillers.

Lemma filter_ext_elem {A : Type} (P Q : A -> Prop)
    `{forall x, Decision (P x)} `{forall x, Decision (Q x)} (l : list A) :
  (forall x, x ∈ l -> (P x <-> Q x)) -> filter P l = filter Q l.
Proof.
  induction l as [|a l IH]; intros Hl; [reflexivity|].
  rewrite !filter_cons.
  assert (Ha : P a <-> Q a) by (apply Hl; now left).
  rewrite IH by (intros x Hx; apply Hl; now right).
  destruct (decide (P a)), (decide (Q a)); tauto.
Qed.

Lemma filler_words_NoDup : NoDup Voice.filler_words.
Proof. apply (bool_decide_unpack _). vm_compute. exact I. Qed.

(** The outcome of the loop does not depend on the order in which the filler
    set is visited. *)
Lemma detect_filler_words_order (U : Str.unicode) (order order' : list string)
    (text : ustring) :
  order ≡ₚ order' ->
  Voice.detect_filler_words_in U order text
  = Voice.detect_filler_words_in U order' text.
Proof.
  intros Hperm. unfold Voice.detect_filler_words_in.
  assert (Hmap : fst (foldl (Voice.filler_step U (Str.lower U text)) (∅, 0) order)
               = fst (foldl (Voice.filler_step U (Str.lower U text)) (∅, 0) order')).
  { apply map_eq. intros p. rewrite !filler_loop_lookup.
    destruct (decide (p ∈ order /\ _)) as [[Hin Hp]|Hn].
    - rewrite decide_True; [reflexivity|]. split; [now rewrite <- Hperm | exact Hp].
    - rewrite decide_False; [reflexivity|].
      intros [Hin Hp]. apply Hn. split; [now rewrite Hperm | exact Hp]. }
  rewrite Hmap, !filler_loop_total. now rewrite Hperm.
Qed.

(** On an ASCII text, the detection needs no more of the Unicode database
    than its ASCII part. *)
Lemma detect_filler_words_ascii (U : Str.unicode) (fillers : list string)
    (text : ustring) :
  unicode_ok U -> ascii_text text ->
  Voice.detect_filler_words_in U fillers text
  = Voice.detect_filler_words_in ascii_unicode fillers text.
Proof.
  intros HU Htext. unfold Voice.detect_filler_words_in.
  rewrite (lower_ascii_text U HU text Htext).
  set (text_lower := Str.lower ascii_unicode text).
  assert (Hlow : ascii_text text_lower) by now apply ascii_lower_ascii.
  assert (Hstep : forall st p,
            Voice.filler_step U text_lower st p
            = Voice.filler_step ascii_unicode text_lower st p).
  { intros st p. unfold Voice.filler_step.
    now rewrite (findall_count_ascii U HU (txt p) text_lower Hlow). }
  assert (Hloop : forall st,
            foldl (Voice.filler_step U text_lower) st fillers
            = foldl (Voice.filler_step ascii_unicode text_lower) st fillers).
  { induction fillers as [|p l IH]; intros st; [reflexivity|].
    cbn [foldl]. now rewrite Hstep, IH. }
  now rewrite Hloop.
Qed.

(** C5. [detect_filler_words] counts, for each phrase of the filler set, the
    places of the lowercased text where the phrase stands as whole words: the
    phrase is there, with a word boundary before it and one after it (the
    matches of [re.findall] are found left to right without overlap, and as
    no filler phrase can overlap itself, they are all these places).
    [total] is the sum of these counts over the set, [breakdown] holds
    exactly the phrases with at least one match, each with its count, and
    [unique_fillers] is the number of phrases matched.  On
    ["um, so, I think this is, like, good"] the phrases [um], [so] and [like]
    are counted once each, and nothing else is; ["UM, Like I said"] has two
    fillers, and ["summer likes umbrellas"], where [um] and [like] are parts
    of longer words, has none. *)
Theorem detect_filler_words_spec (U : Str.unicode) (text : ustring) :
  unicode_ok U ->
  let r := Voice.detect_filler_words U text in
  let matches := fun p => whole_word_occurrences U (txt p) (Str.lower U text) in
  (forall p n,
     Voice.breakdown r !! p = Some n
     <-> p ∈ Voice.filler_words /\ n = matches p /\ 0 < n) /\
  Voice.total r = sum_list (matches <$> Voice.filler_words) /\
  Voice.unique_fillers r
  = length (filter (fun p => 0 < matches p) Voice.filler_words) /\
  Voice.unique_fillers r = size (dom (Voice.breakdown r)) /\
  let e :=
    Voice.detect_filler_words U (txt "um, so, I think this is, like, good") in
  Voice.breakdown e = {[ "um" := 1; "so" := 1; "like" := 1 ]} /\
  Voice.total e = 3 /\ Voice.unique_fillers e = 3 /\
  Voice.total (Voice.detect_filler_words U (txt "UM, Like I said")) = 2 /\
  Voice.total (Voice.detect_filler_words U (txt "summer likes umbrellas")) = 0.
Proof.
  intros HU r matches. subst r. cbv zeta.
  assert (Hfound : forall p, p ∈ Voice.filler_words ->
            Str.findall_count U (txt p) (Str.lower U text) = matches p).
  { intros p Hp. apply findall_count_occurrences, filler_words_overlap_free;
      [exact HU | now apply list_elem_of_In]. }
  split; [|split; [|split; [|split]]].
  - unfold Voice.detect_filler_words, Voice.detect_filler_words_in.
    cbn [Voice.breakdown].
    intros p n. rewrite filler_loop_lookup.
    destruct (decide (p ∈ Voice.filler_words /\ _)) as [[Hin Hp]|Hn].
    + rewrite (Hfound p Hin) in *. split.
      * intros [= <-]. auto.
      * intros (_ & -> & _). reflexivity.
    + rewrite lookup_empty. split; [discriminate|].
      intros (Hin & -> & Hp). exfalso. apply Hn. rewrite (Hfound p Hin). tauto.
  - unfold Voice.detect_filler_words, Voice.detect_filler_words_in.
    cbn [Voice.total]. rewrite filler_loop_total. cbn [Nat.add]. f_equal.
    apply list_fmap_ext. intros i p Hp. apply Hfound.
    eapply list_elem_of_lookup_2, Hp.
  - unfold Voice.detect_filler_words, Voice.detect_filler_words_in.
    cbn [Voice.unique_fillers].
    rewrite filler_loop_size by apply filler_words_NoDup. f_equal.
    apply filter_ext_elem. intros p Hp. now rewrite (Hfound p Hp).
  - unfold Voice.detect_filler_words, Voice.detect_filler_words_in.
    cbn [Voice.unique_fillers Voice.breakdown]. now rewrite size_dom.
  - unfold Voice.detect_filler_words.
    rewrite (detect_filler_words_ascii U _ _ HU)
      by (apply ascii_text_check; reflexivity).
    rewrite !(detect_filler_words_ascii U _ _ HU)
      by (apply ascii_text_check; reflexivity).
    split; [|split; [|split; [|split]]]; [|vm_compute; reflexivity..].
    unfold Voice.detect_filler_words_in. cbn [Voice.breakdown].
    apply map_eq. intros p. rewrite filler_loop_lookup.
    destruct (decide (p ∈ Voice.filler_words /\ _)) as [[Hin Hp]|Hn].
    + unfold Voice.filler_words in Hin.
      repeat (apply elem_of_cons in Hin as [->|Hin];
              [first [ exfalso; vm_compute in Hp; lia | vm_compute; reflexivity ] |]).
      inversion Hin.
    + rewrite lookup_empty. symmetry.
      destruct (decide (p = "um")) as [->|?];
        [exfalso; apply Hn; split; [apply list_elem_of_In; simpl; tauto | vm_compute; lia]|].
      destruct (decide (p = "so")) as [->|?];
        [exfalso; apply Hn; split; [apply list_elem_of_In; simpl; tauto | vm_compute; lia]|].
      destruct (decide (p = "like")) as [->|?];
        [exfalso; apply Hn; split; [apply list_elem_of_In; simpl; tauto | vm_compute; lia]|].
      rewrite !lookup_insert_ne by congruence.
      apply lookup_singleton_ne. congruence.
Qed.

Lemma detect_filler_words_spec_witness :
  let r := Voice.detect_filler_words ascii_unicode (txt "Well, you know, SO it goes") in
  Voice.total r
  = sum_list ((fun p => whole_word_occurrences ascii_unicode (txt p)
                          (txt "well, you know, so it goes"))
              <$> Voice.filler_words).
Proof.
  exact (proj1 (proj2 (detect_filler_words_spec ascii_unicode
                         (txt "Well, you know, SO it goes") ascii_unicode_ok))).
Defined.

(** ** Inversion of the error monad *)

Lemma bind_Ok {A B : Type} (m : exc A) (k : A -> exc B) (b : B) :
  bind m k = Ok b -> exists a, m = Ok a /\ k a = Ok b.
Proof. destruct m as [a|]; simpl; [eauto | discriminate]. Qed.

Ltac bind_inv H :=
  let a := fresh "a" in
  let Ha := fresh "Ha" in
  apply bind_Ok in H as (a & Ha & H); cbv zeta in H.

(** ** Speaking pace *)

Section Pace.

Local Open Scope Q_scope.

Lemma ltb_comp (a a' b b' : Q) :
  a == a' -> b == b' -> Num.ltb a b = Num.ltb a' b'.
Proof.
  intros Ha Hb.
  destruct (Num.ltb a b) eqn:H1, (Num.ltb a' b') eqn:H2; try reflexivity.
  - apply ltb_spec in H1. rewrite Ha, Hb in H1. apply ltb_spec in H1. congruence.
  - apply ltb_spec in H2. rewrite <- Ha, <- Hb in H2. apply ltb_spec in H2. congruence.
Qed.

Lemma categorize_pace_comp (q q' : Q) :
  q == q' -> Voice.categorize_pace q = Voice.categorize_pace q'.
Proof.
  intros H. unfold Voice.categorize_pace, Num.gtb.
  rewrite (ltb_comp q q' 120 120 H), (ltb_comp 200 200 q q') by (exact H || reflexivity).
  reflexivity.
Qed.

(** Without a duration, a text of [n > 0] words is rated at the baseline. *)
Lemma baseline_rate (n : nat) :
  (0 < n)%nat -> Num.of_nat n / (Num.of_nat n / 180) == 180.
Proof.
  intros Hn. apply of_nat_nonzero in Hn. field. exact Hn.
Qed.

Lemma pace_not_provided (text : ustring) (duration : pyval) :
  truthy duration = false ->
  Str.split text <> [] ->
  Voice.calculate_speaking_pace text duration
  = Ok {| Voice.words_per_minute := 180;
          Voice.word_count := length (Str.split text);
          Voice.duration_seconds := duration;
          Voice.estimated_duration := true;
          Voice.pace_category := "normal" |}.
Proof.
  intros Hd Hw. unfold Voice.calculate_speaking_pace. rewrite Hd.
  assert (Hn : (0 < length (Str.split text))%nat).
  { destruct (Str.split text); [contradiction | simpl; lia]. }
  set (n := length (Str.split text)) in *.
  assert (Hest : 0 < Num.of_nat n / 180).
  { apply Qlt_shift_div_l; [reflexivity|]. rewrite Qmult_0_l.
    now apply of_nat_pos. }
  apply gtb_spec in Hest as Hg. rewrite Hg.
  rewrite pydiv_ok
    by (intros Hz; rewrite Hz in Hest; exact (Qlt_irrefl _ Hest)).
  cbn [bind negb].
  rewrite (categorize_pace_comp _ 180 (baseline_rate n Hn)).
  rewrite (pyround_comp 1 _ 180 (baseline_rate n Hn)).
  reflexivity.
Qed.

Lemma pace_not_provided_blank (text : ustring) (duration : pyval) :
  truthy duration = false ->
  Str.split text = [] ->
  Voice.calculate_speaking_pace text duration
  = Ok {| Voice.words_per_minute := 0;
          Voice.word_count := 0;
          Voice.duration_seconds := duration;
          Voice.estimated_duration := true;
          Voice.pace_category := "slow" |}.
Proof.
  intros Hd Hw. unfold Voice.calculate_speaking_pace. rewrite Hd, Hw.
  reflexivity.
Qed.

(** A number is falsy exactly when it is 0. *)
Lemma truthy_number (duration : pyval) (d : Q) :
  number duration = Some d -> truthy duration = negb (Qeq_bool d 0).
Proof.
  destruct duration; intros [=]; subst; cbn [truthy]; [|reflexivity].
  f_equal. unfold Qeq_bool. simpl. rewrite Z.mul_1_r. reflexivity.
Qed.

Lemma div_by_number (n : Q) (duration : pyval) (d : Q) :
  number duration = Some d -> div_by n duration = pydiv n d.
Proof. destruct duration; intros [=]; subst; reflexivity. Qed.

Lemma pace_provided (text : ustring) (duration : pyval) (d : Q) :
  number duration = Some d ->
  ~ d == 0 ->
  Voice.calculate_speaking_pace text duration
  = Ok {| Voice.words_per_minute :=
            Num.pyround 1 (Num.of_nat (length (Str.split text)) / d * 60);
          Voice.word_count := length (Str.split text);
          Voice.duration_seconds := duration;
          Voice.estimated_duration := false;
          Voice.pace_category :=
            Voice.categorize_pace (Num.of_nat (length (Str.split text)) / d * 60) |}.
Proof.
  intros Hnum Hd. unfold Voice.calculate_speaking_pace.
  assert (Ht : truthy duration = true).
  { rewrite (truthy_number _ _ Hnum).
    destruct (Qeq_bool d 0) eqn:Hz; [|reflexivity].
    apply Qeq_bool_iff in Hz. contradiction. }
  rewrite Ht, (div_by_number _ _ _ Hnum), pydiv_ok by exact Hd. reflexivity.
Qed.

(** The category is decided on the rate before it is rounded; it agrees
    with the rounded rate, which never crosses 120 or 200. *)
Lemma pace_category_consistent (q : Q) :
  (Num.pyround 1 q < 120 -> Voice.categorize_pace q = "slow") /\
  (200 < Num.pyround 1 q -> Voice.categorize_pace q = "fast") /\
  (Voice.categorize_pace q = "slow" -> Num.pyround 1 q <= 120) /\
  (Voice.categorize_pace q = "fast" -> 200 <= Num.pyround 1 q) /\
  (Voice.categorize_pace q = "normal" ->
     120 <= Num.pyround 1 q /\ Num.pyround 1 q <= 200).
Proof.
  assert (H120 : 120 == inject_Z 1200 / inject_Z (10 ^ Z.of_nat 1)) by reflexivity.
  assert (H200 : 200 == inject_Z 2000 / inject_Z (10 ^ Z.of_nat 1)) by reflexivity.
  unfold Voice.categorize_pace.
  destruct (Num.ltb q 120) eqn:Hlo.
  - apply ltb_spec in Hlo.
    assert (Hr : Num.pyround 1 q <= 120)
      by (apply (pyround_le 1 1200 120 q H120); lra).
    split; [intros _; reflexivity|]. split; [intros H; exfalso; lra|].
    split; [intros _; exact Hr|]. split; intros [=].
  - assert (Hge : 120 <= q).
    { apply Qnot_lt_le. intros H. apply ltb_spec in H. congruence. }
    assert (Hr : 120 <= Num.pyround 1 q)
      by (apply (pyround_ge 1 1200 120 q H120); exact Hge).
    destruct (Num.gtb q 200) eqn:Hhi.
    + apply gtb_spec in Hhi.
      assert (Hr2 : 200 <= Num.pyround 1 q)
        by (apply (pyround_ge 1 2000 200 q H200); lra).
      split; [intros H; exfalso; lra|]. split; [intros _; reflexivity|].
      split; [intros [=]|]. split; [intros _; exact Hr2|]. intros [=].
    + assert (Hle : q <= 200).
      { apply Qnot_lt_le. intros H. apply gtb_spec in H. congruence. }
      assert (Hr2 : Num.pyround 1 q <= 200)
        by (apply (pyround_le 1 2000 200 q H200); exact Hle).
      split; [intros H; exfalso; lra|]. split; [intros H; exfalso; lra|].
      split; [intros [=]|]. split; [intros [=]|].
      intros _. split; [exact Hr | exact Hr2].
Qed.

Lemma rate_nonneg (n : nat) (d : Q) : 0 < d -> 0 <= Num.of_nat n / d * 60.
Proof.
  intros Hd.
  assert (Hq : 0 <= Num.of_nat n / d).
  { apply Qle_shift_div_l; [exact Hd|]. rewrite Qmult_0_l.
    unfold Num.of_nat, Qle. simpl. lia. }
  apply Qmult_le_0_compat; [exact Hq | discriminate].
Qed.

Lemma tenth_half : (1 # 2) / inject_Z (10 ^ Z.of_nat 1) == 1 # 20.
Proof. reflexivity. Qed.

Lemma scaled_nonneg (q : Q) (z : Z) : 0 <= q -> (0 < z)%Z -> 0 <= q / inject_Z z.
Proof.
  intros Hq Hz. apply Qle_shift_div_l.
  - change 0 with (inject_Z 0). rewrite <- Zlt_Qlt. exact Hz.
  - rewrite Qmult_0_l. exact Hq.
Qed.

End Pace.

(** On a text with at least one word, [analyze_voice] returns the full dict
    as soon as the pace computation returns. *)
Lemma analyze_voice_returns (U : Str.unicode) (text : ustring)
    (timestamp duration : pyval) (p : Voice.speaking_pace) :
  Str.split text <> [] ->
  Voice.calculate_speaking_pace text duration = Ok p ->
  exists fillers pause conf quality,
    Voice.analyze_voice U (PStr text) timestamp duration
    = Voice.Success timestamp p fillers pause conf quality.
Proof.
  intros Hw Hp.
  assert (Hstrip : Str.is_empty (Str.strip text) = false).
  { destruct (Str.is_empty (Str.strip text)) eqn:He; [|reflexivity].
    apply is_empty_spec, strip_empty, split_nil in He. contradiction. }
  unfold Voice.analyze_voice, Voice.analyze_voice_in, Voice.analyze_voice_try.
  cbn [as_str bind]. rewrite Hstrip, Hp. cbn [bind].
  unfold Voice.analyze_pauses. rewrite !pydiv_max. cbn [bind].
  unfold Voice.analyze_confidence_clarity, Voice.indicator_score.
  rewrite !pydiv_max. cbn [bind].
  do 4 eexists. reflexivity.
Qed.

(** C3, on the code: the reported rate is rounded to one decimal, and a text
    without a word is rated at 0.  One word in seven seconds is reported as
    8.6 words per minute, which is not [1 / 7 * 60]; a single space, without
    duration, is reported as 0 words per minute and [slow]. *)
Lemma speaking_pace_counterexample :
  Voice.calculate_speaking_pace (txt " ") PNone
  = Ok {| Voice.words_per_minute := 0;
          Voice.word_count := 0;
          Voice.duration_seconds := PNone;
          Voice.estimated_duration := true;
          Voice.pace_category := "slow" |}
  /\ Voice.calculate_speaking_pace (txt "hello") (PInt 7)
  = Ok {| Voice.words_per_minute := 43 # 5;
          Voice.word_count := 1;
          Voice.duration_seconds := PInt 7;
          Voice.estimated_duration := false;
          Voice.pace_category := "slow" |}
  /\ ~ (43 # 5 == Num.of_nat 1 / 7 * 60)%Q.
Proof.
  split; [reflexivity | split; [reflexivity|]].
  intros H. vm_compute in H. discriminate.
Qed.

(** C3, amended. For every text with at least one word (a run of characters
    that are not whitespace): when the duration is omitted or falsy,
    [words_per_minute] is exactly 180 and [pace_category] is [normal], in
    the result of [calculate_speaking_pace] and in the [speaking_pace] field
    that [analyze_voice] returns.  When the duration is a positive number,
    the result is computed from it: with [rate] the exact value of
    [word_count / duration * 60],
    - as long as [rate] is within the range of floats (at most [10 ^ 300]),
      [words_per_minute] has one decimal and is away from [rate] by at most
      0.05, half a unit of that decimal, and a [10 ^ -12] part of [rate] for
      the error of the float operations;
    - when [rate] itself has at most one decimal and is at most [10 ^ 12],
      [words_per_minute] equals it, so that 180 words in 60 seconds give
      exactly 180 and [normal];
    - [pace_category], decided before the rounding, agrees with the rounded
      rate: a rate below 120 is [slow] and a rate above 200 is [fast], while
      [slow] comes with at most 120, [fast] with at least 200 and [normal]
      with a rate between 120 and 200. *)
Theorem speaking_pace_spec (U : Str.unicode) (text : ustring) :
  Str.split text <> [] ->
  let n := length (Str.split text) in
  (forall duration, truthy duration = false ->
     exists p,
       Voice.calculate_speaking_pace text duration = Ok p /\
       Voice.words_per_minute p = 180%Q /\
       Voice.pace_category p = "normal" /\
       Voice.word_count p = n /\
       Voice.estimated_duration p = true) /\
  (forall duration d, number duration = Some d -> (0 < d)%Q ->
     let rate := (Num.of_nat n / d * 60)%Q in
     exists p,
       Voice.calculate_speaking_pace text duration = Ok p /\
       Voice.word_count p = n /\
       Voice.estimated_duration p = false /\
       ((rate <= inject_Z (10 ^ 300))%Q ->
          decimals 1 (Voice.words_per_minute p) /\
          (Qabs (Voice.words_per_minute p - rate)
           <= (1 # 20) + rate / inject_Z (10 ^ 12))%Q) /\
       (decimals 1 rate -> (rate <= inject_Z (10 ^ 12))%Q ->
          (Voice.words_per_minute p == rate)%Q) /\
       (n = 180 -> (d == 60)%Q ->
          Voice.words_per_minute p = 180%Q /\
          Voice.pace_category p = "normal") /\
       ((Voice.words_per_minute p < 120)%Q -> Voice.pace_category p = "slow") /\
       ((200 < Voice.words_per_minute p)%Q -> Voice.pace_category p = "fast") /\
       (Voice.pace_category p = "slow" -> (Voice.words_per_minute p <= 120)%Q) /\
       (Voice.pace_category p = "fast" -> (200 <= Voice.words_per_minute p)%Q) /\
       (Voice.pace_category p = "normal" ->
          (120 <= Voice.words_per_minute p)%Q /\
          (Voice.words_per_minute p <= 200)%Q)) /\
  (forall timestamp duration, truthy duration = false ->
     exists p fillers pause conf quality,
       Voice.analyze_voice U (PStr text) timestamp duration
       = Voice.Success timestamp p fillers pause conf quality /\
       Voice.words_per_minute p = 180%Q /\
       Voice.pace_category p = "normal").
Proof.
  intros Hw n. split; [|split].
  - intros duration Hd. eexists.
    split; [apply pace_not_provided; [exact Hd | exact Hw]|].
    repeat split; reflexivity.
  - intros duration d Hnum Hd rate.
    assert (Hnz : ~ (d == 0)%Q)
      by (intros Hz; rewrite Hz in Hd; exact (Qlt_irrefl _ Hd)).
    eexists. split; [apply (pace_provided text duration d Hnum Hnz)|].
    cbn [Voice.words_per_minute Voice.word_count Voice.estimated_duration
         Voice.pace_category].
    fold n. fold rate.
    split; [reflexivity|]. split; [reflexivity|].
    split.
    { intros _. split; [apply pyround_decimals|].
      eapply Qle_trans; [apply pyround_close|]. rewrite tenth_half.
      pose proof (scaled_nonneg rate (10 ^ 12) (rate_nonneg n d Hd) eq_refl).
      lra. }
    split; [intros Hdec _; now apply pyround_exact|].
    split.
    { intros Hn Hd60. subst rate. rewrite Hn.
      assert (E : (Num.of_nat 180 / d * 60 == 180)%Q)
        by (rewrite Hd60; reflexivity).
      rewrite (pyround_comp 1 _ 180 E), (categorize_pace_comp _ 180 E).
      split; reflexivity. }
    exact (pace_category_consistent rate).
  - intros timestamp duration Hd.
    destruct (analyze_voice_returns U text timestamp duration _ Hw
                (pace_not_provided text duration Hd Hw))
      as (fillers & pause & conf & quality & Hv).
    eexists _, fillers, pause, conf, quality. split; [exact Hv|].
    split; reflexivity.
Qed.

Lemma speaking_pace_spec_witness :
  exists p,
    Voice.calculate_speaking_pace (txt "tell me about yourself") PNone = Ok p /\
    Voice.words_per_minute p = 180%Q /\
    Voice.pace_category p = "normal" /\
    Voice.word_count p = 4 /\
    Voice.estimated_duration p = true.
Proof.
  refine (proj1 (speaking_pace_spec ascii_unicode
                   (txt "tell me about yourself") _) PNone eq_refl).
  vm_compute. discriminate.
Defined.

(** C4, on the code: a negative duration is not treated as missing.  Two
    words with a duration of -60 seconds are rated at -2 words per minute,
    with [estimated_duration] false. *)
Lemma negative_duration_is_used :
  Voice.calculate_speaking_pace (txt "hello world") (PInt (-60))
  = Ok {| Voice.words_per_minute := -2;
          Voice.word_count := 2;
          Voice.duration_seconds := PInt (-60);
          Voice.estimated_duration := false;
          Voice.pace_category := "slow" |}
  /\ Voice.calculate_speaking_pace (txt "hello world") PNone
  = Ok {| Voice.words_per_minute := 180;
          Voice.word_count := 2;
          Voice.duration_seconds := PNone;
          Voice.estimated_duration := true;
          Voice.pace_category := "normal" |}.
Proof. split; reflexivity. Qed.

(** C4, amended. For every duration that is a number less than or equal to
    0, the pace computation returns a result (no division by zero).  A
    duration equal to 0 is treated as not provided: the rate, the category
    and the [estimated_duration] flag are those of a call without duration,
    the rate being the 180 baseline, with category [normal], whenever the
    text has a word.  A negative duration is used as supplied:
    [estimated_duration] is false, the rate is never positive and the
    category is [slow]; with [rate] the exact value of
    [word_count / duration * 60], as long as [rate] is within the range of
    floats (at least [- 10 ^ 300]), [words_per_minute] has one decimal and is
    away from [rate] by at most 0.05 and a [10 ^ -12] part of [rate] for
    the error of the float operations; when [rate] itself has at most one
    decimal and is at least [- 10 ^ 12], [words_per_minute] equals it. *)
Theorem nonpositive_duration_spec (text : ustring) (duration : pyval) (d : Q) :
  number duration = Some d ->
  (d <= 0)%Q ->
  exists p,
    Voice.calculate_speaking_pace text duration = Ok p /\
    Voice.word_count p = length (Str.split text) /\
    ((d == 0)%Q ->
       exists p0,
         Voice.calculate_speaking_pace text PNone = Ok p0 /\
         Voice.words_per_minute p = Voice.words_per_minute p0 /\
         Voice.pace_category p = Voice.pace_category p0 /\
         Voice.estimated_duration p = true /\
         (Str.split text <> [] ->
            Voice.words_per_minute p = 180%Q /\
            Voice.pace_category p = "normal")) /\
    ((d < 0)%Q ->
       let rate := (Num.of_nat (length (Str.split text)) / d * 60)%Q in
       Voice.estimated_duration p = false /\
       (Voice.words_per_minute p <= 0)%Q /\
       Voice.pace_category p = "slow" /\
       ((- inject_Z (10 ^ 300) <= rate)%Q ->
          decimals 1 (Voice.words_per_minute p) /\
          (Qabs (Voice.words_per_minute p - rate)
           <= (1 # 20) + - rate / inject_Z (10 ^ 12))%Q) /\
       (decimals 1 rate -> (- inject_Z (10 ^ 12) <= rate)%Q ->
          (Voice.words_per_minute p == rate)%Q)).
Proof.
  intros Hnum Hd. destruct (Qeq_dec d 0) as [Hz | Hnz].
  - assert (Ht : truthy duration = false).
    { rewrite (truthy_number _ _ Hnum). apply negb_false_iff, Qeq_bool_iff, Hz. }
    destruct (Str.split text) as [|w ws] eqn:Hs.
    + eexists. split; [apply pace_not_provided_blank; assumption|].
      split; [reflexivity|]. split.
      * intros _. eexists.
        split; [apply pace_not_provided_blank; [reflexivity | exact Hs]|].
        do 3 (split; [reflexivity|]). intros Hc. contradiction.
      * intros Hneg. rewrite Hz in Hneg. destruct (Qlt_irrefl _ Hneg).
    + assert (Hw : Str.split text <> []) by (rewrite Hs; discriminate).
      eexists. split; [apply pace_not_provided; assumption|].
      split; [cbn [Voice.word_count]; now rewrite Hs|]. split.
      * intros _. eexists.
        split; [apply pace_not_provided; [reflexivity | exact Hw]|].
        repeat split; reflexivity.
      * intros Hneg. rewrite Hz in Hneg. destruct (Qlt_irrefl _ Hneg).
  - eexists. split; [apply (pace_provided text duration d Hnum Hnz)|].
    split; [reflexivity|]. split; [intros Hz; contradiction|].
    intros Hneg rate.
    cbn [Voice.words_per_minute Voice.estimated_duration Voice.pace_category].
    fold rate.
    assert (Hrate : (rate <= 0)%Q) by (apply rate_nonpos, Hneg).
    split; [reflexivity|].
    split; [apply pyround_nonpos, Hrate|].
    split.
    { unfold Voice.categorize_pace.
      assert (Hlt : Num.ltb rate 120 = true) by (apply ltb_spec; lra).
      now rewrite Hlt. }
    split.
    { intros _. split; [apply pyround_decimals|].
      eapply Qle_trans; [apply pyround_close|]. rewrite tenth_half.
      assert (Hopp : (0 <= - rate)%Q) by lra.
      pose proof (scaled_nonneg (- rate) (10 ^ 12) Hopp eq_refl).
      lra. }
    intros Hdec _. now apply pyround_exact.
Qed.

Lemma nonpositive_duration_spec_witness :
  exists p,
    Voice.calculate_speaking_pace (txt "tell me about yourself") (PInt 0) = Ok p /\
    Voice.words_per_minute p = 180%Q.
Proof.
  destruct (nonpositive_duration_spec (txt "tell me about yourself") (PInt 0) 0)
    as (p & Hp & _ & Hzero & _); [reflexivity | discriminate |].
  exists p. split; [exact Hp|].
  destruct (Hzero (Qeq_refl 0)) as (p0 & _ & _ & _ & _ & H180).
  apply H180. vm_compute. discriminate.
Defined.

(** ** Confidence and clarity wording *)

Section Words.

Lemma has_space_app (s t : ustring) :
  Str.has_space (s ++ t) = Str.has_space s || Str.has_space t.
Proof.
  induction s as [|c s IH]; simpl; [reflexivity|].
  now rewrite IH, orb_assoc.
Qed.

Lemma split_aux_no_space (cur s w : ustring) :
  Str.has_space cur = false ->
  In w (Str.split_aux cur s) -> Str.has_space w = false.
Proof.
  revert cur. induction s as [|c s IH]; intros cur Hcur; simpl.
  - destruct (Str.is_empty cur); simpl; [tauto|].
    intros [<-|[]]. exact Hcur.
  - destruct (Str.is_space c) eqn:Hc.
    + destruct (Str.is_empty cur); simpl.
      * apply IH. reflexivity.
      * intros [<-|Hin]; [exact Hcur | now apply (IH [])].
    + apply IH. rewrite has_space_app. simpl. now rewrite Hcur, Hc.
Qed.

(** The tokens of [s.split()] contain no whitespace. *)
Lemma split_no_space (s w : ustring) :
  In w (Str.split s) -> Str.has_space w = false.
Proof. now apply split_aux_no_space. Qed.

(** A phrase that contains whitespace is no token. *)
Lemma occurrences_no_space (phrase : ustring) (words : list ustring) :
  Str.has_space phrase = true ->
  (forall w, In w words -> Str.has_space w = false) ->
  occurrences_of phrase words = 0.
Proof.
  intros Hp Hwords. unfold occurrences_of.
  induction words as [|w ws IH]; [reflexivity|].
  cbn [List.filter]. destruct (Str.eqb phrase w) eqn:He.
  - apply eqb_eq in He. subst w.
    rewrite (Hwords phrase) in Hp by now left. discriminate.
  - apply IH. intros v Hv. apply Hwords. now right.
Qed.

Lemma member_In (w : ustring) (l : list ustring) :
  Str.member w l = true <-> In w l.
Proof.
  unfold Str.member. rewrite existsb_exists. split.
  - intros (x & Hx & He). apply eqb_eq in He. now subst x.
  - intros H. exists w. split; [exact H | apply eqb_refl].
Qed.

Lemma filter_or_length {A : Type} (f g : A -> bool) (l : list A) :
  (forall x, f x = true -> g x = false) ->
  length (List.filter (fun x => f x || g x) l)
  = length (List.filter f l) + length (List.filter g l).
Proof.
  intros Hfg. induction l as [|a l IH]; [reflexivity|].
  cbn [List.filter]. destruct (f a) eqn:Hf.
  - rewrite (Hfg a Hf). cbn [orb length]. rewrite IH. reflexivity.
  - cbn [orb]. destruct (g a); cbn [length]; rewrite IH; lia.
Qed.

(** Counting the words that are in a set of phrases is counting, for each
    phrase, the words that are equal to it. *)
Lemma count_in_matches (phrases words : list ustring) :
  NoDup phrases ->
  Voice.count_in phrases words = phrase_matches phrases words.
Proof.
  unfold Voice.count_in, phrase_matches.
  induction phrases as [|p ps IH]; intros Hnd.
  - cbn. induction words as [|w ws IHw]; [reflexivity | exact IHw].
  - apply NoDup_cons in Hnd as [Hp Hps].
    rewrite fmap_cons. cbn [sum_list sum_list_with]. rewrite <- (IH Hps).
    unfold occurrences_of, id.
    rewrite <- (filter_or_length (Str.eqb p) (fun w => Str.member w ps)).
    + f_equal. apply List.filter_ext. intros w.
      unfold Str.member. cbn [existsb]. now rewrite (eqb_sym w p).
    + intros w He. apply eqb_eq in He. subst w.
      destruct (Str.member p ps) eqn:Hm; [|reflexivity].
      apply member_In in Hm. exfalso. apply Hp. now apply list_elem_of_In.
Qed.

Lemma confidence_strong_NoDup : NoDup Voice.confidence_strong.
Proof. apply (bool_decide_unpack _). vm_compute. exact I. Qed.

Lemma confidence_weak_NoDup : NoDup Voice.confidence_weak.
Proof. apply (bool_decide_unpack _). vm_compute. exact I. Qed.

Lemma clarity_clear_NoDup : NoDup Voice.clarity_clear.
Proof. apply (bool_decide_unpack _). vm_compute. exact I. Qed.

Lemma clarity_unclear_NoDup : NoDup Voice.clarity_unclear.
Proof. apply (bool_decide_unpack _). vm_compute. exact I. Qed.

Lemma level_of_spec (t score : Q) :
  Voice.level_of t score
  = if Qlt_le_dec t score then "high"
    else if Qlt_le_dec score (- t) then "low"
    else "medium".
Proof.
  unfold Voice.level_of.
  destruct (Qlt_le_dec t score) as [Hhi | Hhi].
  - apply gtb_spec in Hhi. now rewrite Hhi.
  - destruct (Num.gtb score t) eqn:Hg.
    + apply gtb_spec in Hg. exfalso. exact (Qlt_not_le _ _ Hg Hhi).
    + destruct (Qlt_le_dec score (- t)) as [Hlo | Hlo].
      * apply ltb_spec in Hlo. now rewrite Hlo.
      * destruct (Num.ltb score (- t)) eqn:Hl; [|reflexivity].
        apply ltb_spec in Hl. exfalso. exact (Qlt_not_le _ _ Hl Hlo).
Qed.

(** The level is decided on the quotient before it is rounded; it agrees
    with the rounded score, which never crosses a threshold that has at most
    four decimals. *)
Lemma level_of_agrees (a : Z) (t q : Q) :
  (t == inject_Z a / inject_Z (10 ^ Z.of_nat 4))%Q ->
  (0 <= t)%Q ->
  level_agrees t (Voice.level_of t q) (Num.pyround 4 q).
Proof.
  intros Ht Hpos.
  assert (Hneg : (- t == inject_Z (- a) / inject_Z (10 ^ Z.of_nat 4))%Q).
  { rewrite Ht, inject_Z_opp. unfold Qdiv. ring. }
  rewrite level_of_spec. unfold level_agrees.
  destruct (Qlt_le_dec t q) as [Hhi | Hhi].
  - assert (Hr : (t <= Num.pyround 4 q)%Q)
      by (apply (pyround_ge 4 a t q Ht); lra).
    split; [simpl; tauto|].
    split; [intros _; reflexivity|]. split; [intros H; exfalso; lra|].
    split; [intros _; exact Hr|]. split; intros [=].
  - destruct (Qlt_le_dec q (- t)) as [Hlo | Hlo].
    + assert (Hr : (Num.pyround 4 q <= - t)%Q)
        by (apply (pyround_le 4 (- a) (- t) q Hneg); lra).
      split; [simpl; tauto|].
      split; [intros H; exfalso; lra|]. split; [intros _; reflexivity|].
      split; [intros [=]|]. split; [intros _; exact Hr|]. intros [=].
    + assert (Hr1 : (- t <= Num.pyround 4 q)%Q)
        by (apply (pyround_ge 4 (- a) (- t) q Hneg); exact Hlo).
      assert (Hr2 : (Num.pyround 4 q <= t)%Q)
        by (apply (pyround_le 4 a t q Ht); exact Hhi).
      split; [simpl; tauto|].
      split; [intros H; exfalso; lra|]. split; [intros H; exfalso; lra|].
      split; [intros [=]|]. split; [intros [=]|].
      intros _. split; [exact Hr1 | exact Hr2].
Qed.

Lemma score_close (q : Q) :
  (Qabs (Num.pyround 4 q - q) <= (1 # 20000) + 1 / inject_Z (10 ^ 15))%Q.
Proof.
  eapply Qle_trans; [apply pyround_close|].
  assert (E : ((1 # 2) / inject_Z (10 ^ Z.of_nat 4) == 1 # 20000)%Q) by reflexivity.
  rewrite E.
  assert (H : (0 <= 1 / inject_Z (10 ^ 15))%Q) by (apply scaled_nonneg; [discriminate | reflexivity]).
  lra.
Qed.

End Words.

(** C6, on the code: the reported score is rounded to four decimals.  One
    strong word among three is reported as 0.3333, which is not [1 / 3]. *)
Lemma confidence_score_is_rounded :
  Voice.analyze_confidence_clarity ascii_unicode (txt "Definitely yes sir")
  = Ok {| Voice.confidence :=
            {| Voice.confidence_score := 3333 # 10000;
               Voice.confidence_level := "high";
               Voice.strong_indicators := 1;
               Voice.weak_indicators := 0 |};
          Voice.clarity :=
            {| Voice.clarity_score := 0;
               Voice.clarity_level := "medium";
               Voice.clear_indicators := 0;
               Voice.unclear_indicators := 0 |} |}
  /\ ~ (3333 # 10000 == (Num.of_nat 1 - Num.of_nat 0) / Num.of_nat 3)%Q.
Proof.
  split; [reflexivity|]. intros H. vm_compute in H. discriminate.
Qed.

(** C6, amended. For every text, with [words] the lowercased text split at
    whitespace: [strong_indicators] is the number of words that match a
    phrase of the strong set, a word matching a phrase when it is equal to
    it, so that a phrase that holds a space matches no word; the same holds
    of [weak_indicators] and the weak set.  With [confidence] the exact
    quotient of their difference by [max(word count, 1)], the reported score
    is that quotient rounded to four decimals: it has four decimals, is away
    from [confidence] by at most 0.00005, half a unit of the last decimal,
    and [10 ^ -15] for the error of the float division, and equals
    [confidence] when that has at most four decimals.  The level is decided
    on the quotient before the rounding: it agrees with the rounded score
    for the threshold 0.02, and for a text of at most [10 ^ 15] words, where
    a float tells a quotient from the threshold, it is [high] when
    [confidence] exceeds 0.02, [low] when it is below -0.02 and [medium]
    otherwise.  The same holds of clarity, with the clear and unclear sets
    and the threshold 0.01. *)
Theorem confidence_clarity_spec (U : Str.unicode) (text : ustring) :
  let words := Str.split (Str.lower U text) in
  let n := Num.of_nat (max (length words) 1) in
  let strong := phrase_matches Voice.confidence_strong words in
  let weak := phrase_matches Voice.confidence_weak words in
  let clear := phrase_matches Voice.clarity_clear words in
  let unclear := phrase_matches Voice.clarity_unclear words in
  let confidence := ((Num.of_nat strong - Num.of_nat weak) / n)%Q in
  let clarity := ((Num.of_nat clear - Num.of_nat unclear) / n)%Q in
  (forall phrase,
     Str.has_space phrase = true -> occurrences_of phrase words = 0) /\
  exists r,
    Voice.analyze_confidence_clarity U text = Ok r /\
    Voice.strong_indicators (Voice.confidence r) = strong /\
    Voice.weak_indicators (Voice.confidence r) = weak /\
    decimals 4 (Voice.confidence_score (Voice.confidence r)) /\
    (Qabs (Voice.confidence_score (Voice.confidence r) - confidence)
     <= (1 # 20000) + 1 / inject_Z (10 ^ 15))%Q /\
    (decimals 4 confidence ->
       (Voice.confidence_score (Voice.confidence r) == confidence)%Q) /\
    level_agrees (2 # 100) (Voice.confidence_level (Voice.confidence r))
      (Voice.confidence_score (Voice.confidence r)) /\
    ((Z.of_nat (length words) <= 10 ^ 15)%Z ->
       Voice.confidence_level (Voice.confidence r)
       = (if Qlt_le_dec (2 # 100) confidence then "high"
          else if Qlt_le_dec confidence (- (2 # 100)) then "low"
          else "medium")) /\
    Voice.clear_indicators (Voice.clarity r) = clear /\
    Voice.unclear_indicators (Voice.clarity r) = unclear /\
    decimals 4 (Voice.clarity_score (Voice.clarity r)) /\
    (Qabs (Voice.clarity_score (Voice.clarity r) - clarity)
     <= (1 # 20000) + 1 / inject_Z (10 ^ 15))%Q /\
    (decimals 4 clarity ->
       (Voice.clarity_score (Voice.clarity r) == clarity)%Q) /\
    level_agrees (1 # 100) (Voice.clarity_level (Voice.clarity r))
      (Voice.clarity_score (Voice.clarity r)) /\
    ((Z.of_nat (length words) <= 10 ^ 15)%Z ->
       Voice.clarity_level (Voice.clarity r)
       = (if Qlt_le_dec (1 # 100) clarity then "high"
          else if Qlt_le_dec clarity (- (1 # 100)) then "low"
          else "medium")).
Proof.
  intros words n strong weak clear unclear confidence clarity.
  split.
  { intros phrase Hp. apply occurrences_no_space; [exact Hp|].
    intros w Hw. exact (split_no_space _ _ Hw). }
  unfold Voice.analyze_confidence_clarity, Voice.indicator_score.
  fold words.
  rewrite (count_in_matches _ words confidence_strong_NoDup),
    (count_in_matches _ words confidence_weak_NoDup),
    (count_in_matches _ words clarity_clear_NoDup),
    (count_in_matches _ words clarity_unclear_NoDup).
  fold strong weak clear unclear.
  rewrite !pydiv_max. cbn [bind]. fold n. fold confidence clarity.
  eexists. split; [reflexivity|].
  cbn [Voice.confidence Voice.clarity Voice.strong_indicators
       Voice.weak_indicators Voice.confidence_score Voice.confidence_level
       Voice.clear_indicators Voice.unclear_indicators Voice.clarity_score
       Voice.clarity_level].
  split; [reflexivity|]. split; [reflexivity|].
  split; [apply pyround_decimals|]. split; [apply score_close|].
  split; [apply pyround_exact|].
  split; [apply (level_of_agrees 200); [reflexivity | discriminate]|].
  split; [intros _; apply level_of_spec|].
  split; [reflexivity|]. split; [reflexivity|].
  split; [apply pyround_decimals|]. split; [apply score_close|].
  split; [apply pyround_exact|].
  split; [apply (level_of_agrees 100); [reflexivity | discriminate]|].
  intros _. apply level_of_spec.
Qed.

(** ** The mock facial scorer *)

Section RandomDraws.

Variable G : generator.

Lemma returns_ret {A : Type} (a : A) (Q : A -> Prop) :
  Q a -> Facial.returns G (Facial.ret G a) Q.
Proof. intros H s. exists a, s. split; [reflexivity | exact H]. Qed.

Lemma returns_bind {A B : Type} (m : Facial.rnd G A) (k : A -> Facial.rnd G B)
    (P : A -> Prop) (Q : B -> Prop) :
  Facial.returns G m P -> (forall a, P a -> Facial.returns G (k a) Q) ->
  Facial.returns G (Facial.rbind G m k) Q.
Proof.
  intros Hm Hk s. destruct (Hm s) as (a & s1 & Hms & Ha).
  destruct (Hk a Ha s1) as (b & s2 & Hks & Hb).
  exists b, s2. unfold Facial.rbind. rewrite Hms. split; assumption.
Qed.

Lemma returns_lift {A : Type} (m : exc A) (a : A) (Q : A -> Prop) :
  m = Ok a -> Q a -> Facial.returns G (Facial.lift G m) Q.
Proof. intros -> H s. exists a, s. split; [reflexivity | exact H]. Qed.

Lemma ensures_ret {A : Type} (a : A) (Q : A -> Prop) :
  Q a -> Facial.ensures G (Facial.ret G a) Q.
Proof. intros H s b s' [= <- _]. exact H. Qed.

Lemma ensures_bind {A B : Type} (m : Facial.rnd G A) (k : A -> Facial.rnd G B)
    (Q : B -> Prop) :
  (forall a, Facial.ensures G (k a) Q) -> Facial.ensures G (Facial.rbind G m k) Q.
Proof.
  intros Hk s b s'. unfold Facial.rbind.
  destruct (m s) as [[a | kind msg] s1]; [apply Hk | discriminate].
Qed.

Hypothesis Hok : generator_ok G.

Lemma returns_random :
  Facial.returns G (Facial.random G) (fun u => (0 <= u)%Q /\ (u < 1)%Q).
Proof.
  intros s. eexists _, _. split; [reflexivity|].
  apply (next_random_range G Hok).
Qed.

Lemma returns_choice {A : Type} (seq : list A) :
  seq <> [] -> Facial.returns G (Facial.choice G seq) (fun x => In x seq).
Proof.
  intros Hne s. destruct seq as [|x0 rest]; [contradiction|].
  unfold Facial.choice.
  set (l := x0 :: rest) in *.
  assert (Hlt : fst (randbelow G (length l) s) < length l).
  { apply (randbelow_range G Hok). simpl. lia. }
  destruct (lookup_lt_is_Some_2 l _ Hlt) as [x Hx].
  exists x, (snd (randbelow G (length l) s)). rewrite Hx.
  split; [reflexivity|]. apply list_elem_of_In. eapply list_elem_of_lookup_2, Hx.
Qed.

(** [random.uniform(lo, hi)] stays between its bounds. *)
Lemma returns_uniform (lo hi : Q) :
  (lo <= hi)%Q ->
  Facial.returns G (Facial.uniform G lo hi) (fun x => (lo <= x)%Q /\ (x <= hi)%Q).
Proof.
  intros Hle. unfold Facial.uniform.
  eapply returns_bind; [apply returns_random|].
  intros u [Hu0 Hu1]. apply returns_ret.
  assert (Hd : (0 <= hi - lo)%Q).
  { apply (Qplus_le_l _ _ lo). ring_simplify. exact Hle. }
  split.
  - rewrite <- (Qplus_0_r lo) at 1. apply Qplus_le_r.
    apply Qmult_le_0_compat; assumption.
  - assert (Hm : ((hi - lo) * u <= (hi - lo) * 1)%Q).
    { rewrite !(Qmult_comm (hi - lo)).
      apply Qmult_le_compat_r; [apply Qlt_le_weak, Hu1 | exact Hd]. }
    assert (Hhi : (lo + (hi - lo) * 1 == hi)%Q) by ring.
    rewrite <- Hhi at 2. apply Qplus_le_r. exact Hm.
Qed.

(** ... and so does its value rounded to three decimals, when the bounds
    have at most three decimals. *)
Lemma returns_uniform3 (a b : Z) (lo hi : Q) :
  (lo == inject_Z a / inject_Z (10 ^ Z.of_nat 3))%Q ->
  (hi == inject_Z b / inject_Z (10 ^ Z.of_nat 3))%Q ->
  (lo <= hi)%Q ->
  Facial.returns G (Facial.uniform3 G lo hi) (fun x => (lo <= x)%Q /\ (x <= hi)%Q).
Proof.
  intros Hlo Hhi Hle. unfold Facial.uniform3.
  eapply returns_bind; [apply returns_uniform, Hle|].
  intros x [Hx0 Hx1]. apply returns_ret. split.
  - eapply Qle_trans; [|apply (pyround_lower 3 a)].
    + rewrite Hlo. apply Qle_refl.
    + rewrite <- Hlo. exact Hx0.
  - eapply Qle_trans; [apply (pyround_upper 3 b)|].
    + rewrite <- Hhi. exact Hx1.
    + rewrite Hhi. apply Qle_refl.
Qed.

End RandomDraws.

Lemma other_expressions_nonempty (primary_expression : string) :
  List.filter (fun e => negb (String.eqb e primary_expression)) Facial.expressions
  <> [].
Proof.
  unfold Facial.expressions. cbn [List.filter].
  destruct (String.eqb "neutral" primary_expression) eqn:Hn; cbn [negb].
  - apply String.eqb_eq in Hn. subst primary_expression.
    vm_compute. discriminate.
  - discriminate.
Qed.

Lemma facial_try_returns (G : generator) (timestamp image_data : pyval) :
  generator_ok G ->
  Facial.returns G (Facial.analyze_facial_expression_try G timestamp image_data)
    (fun r =>
       exists face engaged eyes body prof,
         r = Facial.Success timestamp face engaged eyes body prof "mockup"
               (truthy image_data) /\
         (7 # 10 <= Facial.expression_confidence (Facial.primary face))%Q /\
         (Facial.expression_confidence (Facial.primary face) <= 95 # 100)%Q /\
         (5 # 10 <= Facial.professionalism_score prof)%Q /\
         (Facial.professionalism_score prof <= 1)%Q).
Proof.
  intros Hok. unfold Facial.analyze_facial_expression_try.
  eapply returns_bind; [apply returns_choice; [exact Hok | discriminate]|].
  intros primary_expression _.
  eapply returns_bind;
    [apply (returns_uniform3 G Hok 700 950); [reflexivity | reflexivity | discriminate]|].
  intros confidence [Hc0 Hc1].
  eapply returns_bind; [apply (returns_random G Hok)|]. intros coin _.
  eapply (returns_bind G _ _ (fun _ => True)).
  { destruct (Num.gtb coin (6 # 10)).
    - eapply returns_bind;
        [apply returns_choice; [exact Hok | apply other_expressions_nonempty]|].
      intros secondary _.
      eapply returns_bind;
        [apply (returns_uniform3 G Hok 300 600); [reflexivity | reflexivity | discriminate]|].
      intros c _. now apply returns_ret.
    - now apply returns_ret. }
  intros secondary_expressions _.
  eapply returns_bind; [apply returns_choice; [exact Hok | discriminate]|].
  intros engagement_level Hlevel.
  eapply returns_bind;
    [apply (returns_uniform3 G Hok 200 400); [reflexivity | reflexivity | discriminate]|].
  intros low _.
  eapply returns_bind;
    [apply (returns_uniform3 G Hok 400 700); [reflexivity | reflexivity | discriminate]|].
  intros medium _.
  eapply returns_bind;
    [apply (returns_uniform3 G Hok 700 900); [reflexivity | reflexivity | discriminate]|].
  intros high _.
  eapply (returns_bind G _ _ (fun _ => True)).
  { destruct Hlevel as [<-|[<-|[<-|[]]]];
      (eapply returns_lift; [reflexivity | exact I]). }
  intros engagement_score _.
  eapply returns_bind; [apply returns_choice; [exact Hok | discriminate]|].
  intros eye_contact Heye.
  eapply returns_bind;
    [apply (returns_uniform3 G Hok 100 300); [reflexivity | reflexivity | discriminate]|].
  intros poor _.
  eapply returns_bind;
    [apply (returns_uniform3 G Hok 300 500); [reflexivity | reflexivity | discriminate]|].
  intros intermittent _.
  eapply returns_bind;
    [apply (returns_uniform3 G Hok 500 800); [reflexivity | reflexivity | discriminate]|].
  intros good _.
  eapply returns_bind;
    [apply (returns_uniform3 G Hok 800 1000); [reflexivity | reflexivity | discriminate]|].
  intros excellent _.
  eapply (returns_bind G _ _ (fun _ => True)).
  { destruct Heye as [<-|[<-|[<-|[<-|[]]]]];
      (eapply returns_lift; [reflexivity | exact I]). }
  intros eye_contact_score _.
  eapply returns_bind; [apply (returns_random G Hok)|]. intros r_upright _.
  eapply returns_bind; [apply (returns_random G Hok)|]. intros r_leaning _.
  eapply returns_bind; [apply (returns_random G Hok)|]. intros r_slouching _.
  eapply returns_bind; [apply returns_choice; [exact Hok | discriminate]|].
  intros tilt _.
  cbn [Facial.upright Facial.slouching].
  eapply (returns_bind G _ _ (fun p => p = _)).
  { eapply returns_lift; [apply pydiv_ok; discriminate | reflexivity]. }
  intros professionalism_score ->.
  apply returns_ret. do 5 eexists. split; [reflexivity|].
  cbn [Facial.primary Facial.expression_confidence Facial.professionalism_score].
  split; [exact Hc0 | split; [exact Hc1|]].
  destruct (Num.gtb r_upright (3 # 10)), (Str.mem eye_contact ["good"; "excellent"]),
    (Str.mem primary_expression ["confident"; "focused"; "engaged"]),
    (Num.gtb r_slouching (8 # 10));
    split; vm_compute; discriminate.
Qed.

(** C7. Whatever the random source produces, [analyze_facial_expression]
    returns the full dict, in which [primary.confidence] is between 0.7 and
    0.95 and [professionalism.score] is between 0.5 and 1.0. *)
Theorem facial_scores_in_range (G : generator) (timestamp image_data : pyval)
    (s : gstate G) :
  generator_ok G ->
  exists face engaged eyes body prof s',
    Facial.analyze_facial_expression G timestamp image_data s
    = (Facial.Success timestamp face engaged eyes body prof "mockup"
         (truthy image_data), s') /\
    (7 # 10 <= Facial.expression_confidence (Facial.primary face))%Q /\
    (Facial.expression_confidence (Facial.primary face) <= 95 # 100)%Q /\
    (5 # 10 <= Facial.professionalism_score prof)%Q /\
    (Facial.professionalism_score prof <= 1)%Q.
Proof.
  intros Hok.
  destruct (facial_try_returns G timestamp image_data Hok s)
    as (r & s' & Hr & face & engaged & eyes & body & prof & -> & Hbounds).
  exists face, engaged, eyes, body, prof, s'.
  unfold Facial.analyze_facial_expression. rewrite Hr. split; [reflexivity | exact Hbounds].
Qed.

Lemma lcg_ok : generator_ok lcg.
Proof.
  split.
  - intros s. simpl.
    pose proof (Z.mod_pos_bound s 1000 ltac:(lia)) as [H0 H1].
    unfold Qle, Qlt. simpl. lia.
  - intros n s Hn. simpl.
    pose proof (Z.mod_pos_bound s (Z.of_nat n) ltac:(lia)). lia.
Qed.

Lemma facial_scores_in_range_witness :
  exists face engaged eyes body prof s',
    Facial.analyze_facial_expression lcg (PStr (txt "00:01")) PNone 42%Z
    = (Facial.Success (PStr (txt "00:01")) face engaged eyes body prof "mockup" false, s') /\
    (7 # 10 <= Facial.expression_confidence (Facial.primary face))%Q /\
    (Facial.expression_confidence (Facial.primary face) <= 95 # 100)%Q /\
    (5 # 10 <= Facial.professionalism_score prof)%Q /\
    (Facial.professionalism_score prof <= 1)%Q.
Proof.
  exact (facial_scores_in_range lcg (PStr (txt "00:01")) PNone 42%Z lcg_ok).
Defined.

(** ** Results and errors *)

Lemma sentiment_try_timestamp (U : Str.unicode) (E : nlp) (text timestamp : pyval)
    (r : Sentiment.result) :
  Sentiment.analyze_sentiment_try U E text timestamp = Ok r ->
  Sentiment.timestamp_of r = timestamp.
Proof.
  unfold Sentiment.analyze_sentiment_try. intros H.
  bind_inv H.
  destruct (Str.is_empty (Str.strip (snd a))); [injection H as <-; reflexivity|].
  repeat bind_inv H. injection H as <-. reflexivity.
Qed.

Lemma voice_try_timestamp (U : Str.unicode) (fillers : list string) (text timestamp duration : pyval)
    (r : Voice.result) :
  Voice.analyze_voice_try U fillers text timestamp duration = Ok r ->
  Voice.timestamp_of r = timestamp.
Proof.
  unfold Voice.analyze_voice_try. intros H.
  bind_inv H.
  destruct (Str.is_empty (Str.strip a)); [injection H as <-; reflexivity|].
  repeat bind_inv H. injection H as <-. reflexivity.
Qed.

Lemma facial_try_timestamp (G : generator) (timestamp image_data : pyval) :
  Facial.ensures G (Facial.analyze_facial_expression_try G timestamp image_data)
    (fun r => Facial.timestamp_of r = timestamp).
Proof.
  unfold Facial.analyze_facial_expression_try.
  repeat (apply ensures_bind; intros ?).
  apply ensures_ret. reflexivity.
Qed.

(** C10. For every input, the dict returned by each of the three scorers, on
    the success path and on every error path, has a [timestamp] key whose
    value is the timestamp it was called with. *)
Theorem timestamp_passthrough (U : Str.unicode) (E : nlp) (G : generator)
    (text timestamp duration image_data : pyval) (s : gstate G) :
  let sentiment := Sentiment.analyze_sentiment U E text timestamp in
  let voice := Voice.analyze_voice U text timestamp duration in
  let facial := fst (Facial.analyze_facial_expression G timestamp image_data s) in
  (In "timestamp" (Sentiment.keys sentiment) /\
   Sentiment.timestamp_of sentiment = timestamp) /\
  (In "timestamp" (Voice.keys voice) /\
   Voice.timestamp_of voice = timestamp) /\
  (In "timestamp" (Facial.keys facial) /\
   Facial.timestamp_of facial = timestamp).
Proof.
  cbv zeta. split; [|split].
  - split; [destruct (Sentiment.analyze_sentiment _ _ _); simpl; tauto|].
    unfold Sentiment.analyze_sentiment.
    destruct (Sentiment.analyze_sentiment_try U E text timestamp) eqn:H;
      [eapply sentiment_try_timestamp, H | reflexivity].
  - split; [destruct (Voice.analyze_voice U _ _ _); simpl; tauto|].
    unfold Voice.analyze_voice, Voice.analyze_voice_in.
    destruct (Voice.analyze_voice_try U _ text timestamp duration) eqn:H;
      [eapply voice_try_timestamp, H | reflexivity].
  - split; [destruct (fst _); simpl; tauto|].
    unfold Facial.analyze_facial_expression.
    destruct (Facial.analyze_facial_expression_try G timestamp image_data s)
      as [[r | kind msg] s'] eqn:H; [|reflexivity].
    exact (facial_try_timestamp G timestamp image_data s r s' H).
Qed.

(** C9. On the empty sequence of prior results, each of the three summary
    functions returns [None], and does not raise; and [None] is returned for
    the empty sequence only. *)
Theorem empty_history_has_no_summary :
  (Sentiment.get_overall_sentiment_summary [] = Ok NoSummary /\
   Voice.get_voice_summary [] = Ok NoSummary /\
   Facial.get_facial_summary [] = Ok NoSummary) /\
  (forall l, Sentiment.get_overall_sentiment_summary l = Ok NoSummary -> l = []) /\
  (forall l, Voice.get_voice_summary l = Ok NoSummary -> l = []) /\
  (forall l, Facial.get_facial_summary l = Ok NoSummary -> l = []).
Proof.
  split; [repeat split|].
  split; [|split]; intros [|a l] H; try reflexivity; exfalso.
  - unfold Sentiment.get_overall_sentiment_summary in H.
    destruct (List.filter Sentiment.is_valid (a :: l)); [discriminate|].
    repeat bind_inv H. discriminate.
  - unfold Voice.get_voice_summary in H.
    destruct (List.filter Voice.is_valid (a :: l)); [discriminate|].
    repeat bind_inv H. discriminate.
  - unfold Facial.get_facial_summary in H.
    destruct (List.filter Facial.is_valid (a :: l)); [discriminate|].
    repeat bind_inv H. discriminate.
Qed.

(** C8. On the comprehensive route, with a non-empty text and a timestamp,
    the response has status 200 and carries the result of each scorer.  A
    failure in one scorer (a text that filtering reduces to nothing, or an
    exception raised inside the scorer) is the [error] dict in that scorer's
    field; the other fields are what the other scorers return. *)
Theorem comprehensive_degrades_per_field (U : Str.unicode) (E : nlp) (G : generator)
    (d : list (string * pyval)) (text timestamp : pyval) (s : gstate G) :
  App.lookup_key d "text" = Some text ->
  App.lookup_key d "timestamp" = Some timestamp ->
  truthy text = true ->
  truthy timestamp = true ->
  let duration := default PNone (App.lookup_key d "duration") in
  let image_data := default PNone (App.lookup_key d "image_data") in
  let sentiment := Sentiment.analyze_sentiment U E text timestamp in
  let voice := Voice.analyze_voice U text timestamp duration in
  let facial := Facial.analyze_facial_expression G timestamp image_data s in
  App.comprehensive_analysis U E G (PDict d) s
  = ((App.ComprehensiveBody timestamp sentiment voice (fst facial), 200), snd facial) /\
  (forall tokens filtered_text,
     Sentiment.filter_text U E text = Ok (tokens, filtered_text) ->
     Str.strip filtered_text = [] ->
     sentiment
     = Sentiment.Failure timestamp "No meaningful content to analyze after filtering") /\
  (forall kind msg,
     Sentiment.analyze_sentiment_try U E text timestamp = Raise kind msg ->
     sentiment = Sentiment.Failure timestamp ("Analysis failed: " +:+ msg)) /\
  (forall kind msg,
     Voice.analyze_voice_try U Voice.filler_words text timestamp duration
     = Raise kind msg ->
     voice = Voice.Failure timestamp ("Voice analysis failed: " +:+ msg)) /\
  (forall kind msg s',
     Facial.analyze_facial_expression_try G timestamp image_data s
     = (Raise kind msg, s') ->
     fst facial = Facial.Failure timestamp ("Facial analysis failed: " +:+ msg)).
Proof.
  intros Htext Hts Ht1 Ht2. cbv zeta. split; [|split; [|split; [|split]]].
  - unfold App.comprehensive_analysis, App.guarded, App.dict_get.
    rewrite Htext, Hts. cbn [bind]. rewrite Ht1, Ht2. cbn [negb orb].
    destruct (App.lookup_key d "duration"), (App.lookup_key d "image_data");
      reflexivity.
  - intros tokens filtered_text Hf Hempty.
    unfold Sentiment.analyze_sentiment, Sentiment.analyze_sentiment_try.
    rewrite Hf. cbn [bind fst snd]. rewrite Hempty. reflexivity.
  - intros kind msg H. unfold Sentiment.analyze_sentiment. now rewrite H.
  - intros kind msg H. unfold Voice.analyze_voice, Voice.analyze_voice_in.
    now rewrite H.
  - intros kind msg s' H. unfold Facial.analyze_facial_expression. now rewrite H.
Qed.

Lemma comprehensive_degrades_per_field_witness :
  exists pace fillers pause conf quality facial s',
    App.comprehensive_analysis ascii_unicode plain_nlp lcg
      (PDict [("text", PStr (txt "um, so I am")); ("timestamp", PStr (txt "00:01"))]) 7%Z
    = ((App.ComprehensiveBody (PStr (txt "00:01"))
          (Sentiment.Failure (PStr (txt "00:01"))
             "No meaningful content to analyze after filtering")
          (Voice.Success (PStr (txt "00:01")) pace fillers pause conf quality)
          facial, 200), s').
Proof.
  destruct (comprehensive_degrades_per_field ascii_unicode plain_nlp lcg
              [("text", PStr (txt "um, so I am")); ("timestamp", PStr (txt "00:01"))]
              (PStr (txt "um, so I am")) (PStr (txt "00:01")) 7%Z
              eq_refl eq_refl eq_refl eq_refl) as (Hresp & Hcontent & _).
  rewrite Hresp, (Hcontent [] [] eq_refl eq_refl).
  do 7 eexists. reflexivity.
Defined.

(** ** Determinism *)

(** Membership in a set does not depend on how the set holds its elements. *)
Lemma member_same_elements (w : ustring) (l l' : list ustring) :
  (forall x, In x l <-> In x l') -> Str.member w l = Str.member w l'.
Proof.
  intros H. destruct (Str.member w l) eqn:H1, (Str.member w l') eqn:H2;
    try reflexivity.
  - apply member_In, H, member_In in H1. congruence.
  - apply member_In, H, member_In in H2. congruence.
Qed.

Lemma analyze_sentiment_same (U : Str.unicode) (E E' : nlp) (text timestamp : pyval) :
  same_nlp E E' ->
  Sentiment.analyze_sentiment U E text timestamp
  = Sentiment.analyze_sentiment U E' text timestamp.
Proof.
  intros (Htok & Hstop & Hblob).
  assert (Hkeep : forall tokens,
             List.filter (Sentiment.keep_token E) tokens
             = List.filter (Sentiment.keep_token E') tokens).
  { intros tokens. apply filter_ext. intros w.
    unfold Sentiment.keep_token, Sentiment.stop_words. f_equal. f_equal.
    apply member_same_elements. intros x. rewrite !in_app_iff, Hstop. tauto. }
  unfold Sentiment.analyze_sentiment, Sentiment.analyze_sentiment_try,
    Sentiment.filter_text.
  destruct (as_str "lower" text) as [t|]; cbn [bind]; [|reflexivity].
  rewrite Htok. destruct (word_tokenize E' _) as [tokens|]; cbn [bind fst snd];
    [|reflexivity].
  rewrite Hkeep.
  destruct (Str.is_empty _); [reflexivity|]. now rewrite Hblob.
Qed.

Lemma analyze_voice_order (U : Str.unicode) (order order' : list string)
    (text timestamp duration : pyval) :
  order ≡ₚ order' ->
  Voice.analyze_voice_in U order text timestamp duration
  = Voice.analyze_voice_in U order' text timestamp duration.
Proof.
  intros Hperm. unfold Voice.analyze_voice_in, Voice.analyze_voice_try.
  destruct (as_str "strip" text) as [t|]; cbn [bind]; [|reflexivity].
  destruct (Str.is_empty _); [reflexivity|].
  destruct (Voice.calculate_speaking_pace t duration); cbn [bind]; [|reflexivity].
  now rewrite (detect_filler_words_order U order order' t Hperm).
Qed.

Lemma comprehensive_ignores_generator_state (U : Str.unicode) (E : nlp) (G : generator) (data : pyval)
    (s1 s2 : gstate G) :
  App.sentiment_field (fst (App.comprehensive_analysis U E G data s1))
  = App.sentiment_field (fst (App.comprehensive_analysis U E G data s2)) /\
  App.voice_field (fst (App.comprehensive_analysis U E G data s1))
  = App.voice_field (fst (App.comprehensive_analysis U E G data s2)).
Proof.
  unfold App.comprehensive_analysis, App.guarded.
  destruct (bind (App.dict_get data "text" (PStr [])) _)
    as [[[[text timestamp] duration] image_data]|]; [|split; reflexivity].
  destruct (negb (truthy text) || negb (truthy timestamp)); split; reflexivity.
Qed.

(** C2. [analyze_sentiment] and [analyze_voice] are functions of their inputs
    alone: the result is the same for any two loads of the libraries and any
    iteration order of the filler set, and, on the comprehensive route, for
    any two states of the random generator.  The facial scorer is not:
    two generator states give it two different results. *)
Theorem scorers_are_deterministic (U : Str.unicode) (E E' : nlp) (order : list string)
    (text timestamp duration : pyval) :
  same_nlp E E' ->
  order ≡ₚ Voice.filler_words ->
  Sentiment.analyze_sentiment U E text timestamp
  = Sentiment.analyze_sentiment U E' text timestamp /\
  Voice.analyze_voice_in U order text timestamp duration
  = Voice.analyze_voice U text timestamp duration /\
  (forall (G : generator) (data : pyval) (s1 s2 : gstate G),
     App.sentiment_field (fst (App.comprehensive_analysis U E G data s1))
     = App.sentiment_field (fst (App.comprehensive_analysis U E G data s2)) /\
     App.voice_field (fst (App.comprehensive_analysis U E G data s1))
     = App.voice_field (fst (App.comprehensive_analysis U E G data s2))) /\
  (exists s1 s2 : gstate lcg,
     fst (Facial.analyze_facial_expression lcg timestamp PNone s1)
     <> fst (Facial.analyze_facial_expression lcg timestamp PNone s2)).
Proof.
  intros Hsame Hperm. split; [|split; [|split]].
  - now apply analyze_sentiment_same.
  - now apply analyze_voice_order.
  - intros G data s1 s2. apply comprehensive_ignores_generator_state.
  - exists 42%Z, 43%Z. intros H. vm_compute in H. discriminate H.
Qed.

Lemma same_nlp_refl (E : nlp) : same_nlp E E.
Proof. repeat split; tauto. Qed.

Lemma scorers_are_deterministic_witness :
  Voice.analyze_voice_in ascii_unicode (reverse Voice.filler_words)
    (PStr (txt "um, so, I think this is, like, good")) (PStr (txt "00:01")) PNone
  = Voice.analyze_voice ascii_unicode
      (PStr (txt "um, so, I think this is, like, good")) (PStr (txt "00:01")) PNone.
Proof.
  exact (proj1 (proj2 (scorers_are_deterministic ascii_unicode plain_nlp plain_nlp
                         (reverse Voice.filler_words)
                         (PStr (txt "um, so, I think this is, like, good"))
                         (PStr (txt "00:01")) PNone
                         (same_nlp_refl plain_nlp)
                         (reverse_Permutation Voice.filler_words)))).
Defined.

(** * Further properties *)

(** ** Rounding *)

(** Closes a goal [a = b -> _] whose premise equates distinct constructors. *)
Ltac refute := solve [intros [=]].

Section Rounding.

Local Open Scope Q_scope.

Lemma pyround_nonneg (nd : nat) (q : Q) : 0 <= q -> 0 <= Num.pyround nd q.
Proof.
  intros Hq.
  assert (Hz : inject_Z 0 / inject_Z (10 ^ Z.of_nat nd) == 0)
    by (unfold Qdiv; apply Qmult_0_l).
  rewrite <- Hz. apply pyround_lower. rewrite Hz. exact Hq.
Qed.

(** A number already rounded to [nd] decimals is left as it is. *)
Lemma pyround_idempotent (nd : nat) (q : Q) :
  Num.pyround nd (Num.pyround nd q) = Num.pyround nd q.
Proof.
  set (z := Num.round_half_even (q * inject_Z (10 ^ Z.of_nat nd))).
  assert (Hz : Num.pyround nd q * inject_Z (10 ^ Z.of_nat nd) == inject_Z z).
  { unfold Num.pyround. fold z. rewrite Qred_correct. apply pow10_cancel. }
  unfold Num.pyround at 1.
  rewrite (round_half_even_comp _ _ Hz), round_half_even_Z.
  reflexivity.
Qed.

End Rounding.

(** ** Voice scorer: fillers *)

(** X1. Filler detection and the confidence and clarity analysis read the
    text through [lower()] only: two texts that differ in letter case alone
    get the same results, and so does a text and its lowercased form,
    lowering being idempotent. *)
Theorem voice_wording_case_insensitive (U : Str.unicode) (text text' : ustring) :
  Str.lower U text = Str.lower U text' ->
  Voice.detect_filler_words U text = Voice.detect_filler_words U text' /\
  Voice.analyze_confidence_clarity U text = Voice.analyze_confidence_clarity U text' /\
  (unicode_ok U ->
   Voice.detect_filler_words U (Str.lower U text) = Voice.detect_filler_words U text /\
   Voice.analyze_confidence_clarity U (Str.lower U text)
   = Voice.analyze_confidence_clarity U text).
Proof.
  intros H.
  unfold Voice.detect_filler_words, Voice.detect_filler_words_in,
    Voice.analyze_confidence_clarity.
  rewrite H. split; [reflexivity|]. split; [reflexivity|].
  intros HU. rewrite (lower_lower U HU). split; reflexivity.
Qed.

Lemma voice_wording_case_insensitive_witness :
  Voice.detect_filler_words ascii_unicode (txt "UM, So I Mean it")
  = Voice.detect_filler_words ascii_unicode (txt "um, so i mean IT").
Proof.
  exact (proj1 (voice_wording_case_insensitive ascii_unicode
                  (txt "UM, So I Mean it") (txt "um, so i mean IT") eq_refl)).
Defined.

Lemma positive_count_le_sum (f : string -> nat) (l : list string) :
  length (filter (fun p => 0 < f p) l) <= sum_list (f <$> l).
Proof.
  induction l as [|a l IH]; [reflexivity|].
  rewrite filter_cons, fmap_cons. cbn [sum_list sum_list_with].
  unfold id at 1. case_decide; simpl; lia.
Qed.

Lemma sum_zero_no_positive (f : string -> nat) (l : list string) :
  sum_list (f <$> l) = 0 <-> filter (fun p => 0 < f p) l = [].
Proof.
  induction l as [|a l IH]; [split; reflexivity|].
  rewrite filter_cons, fmap_cons. cbn [sum_list sum_list_with]. unfold id at 1.
  case_decide as Ha.
  - split; [lia | discriminate].
  - rewrite <- IH. assert (f a = 0) by lia. lia.
Qed.

(** X2. In the result of [detect_filler_words], [unique_fillers] is at most
    [total] and at most 22 (the size of the filler set); no count of the
    breakdown exceeds [total]; and [total] is 0 exactly when the breakdown is
    empty. *)
Theorem filler_counts_consistent (U : Str.unicode) (text : ustring) :
  let r := Voice.detect_filler_words U text in
  Voice.unique_fillers r <= Voice.total r /\
  Voice.unique_fillers r <= 22 /\
  (forall p n, Voice.breakdown r !! p = Some n -> 0 < n <= Voice.total r) /\
  (Voice.total r = 0 <-> Voice.breakdown r = ∅) /\
  (Voice.total r = 0 <-> Voice.unique_fillers r = 0).
Proof.
  cbv zeta.
  unfold Voice.detect_filler_words, Voice.detect_filler_words_in.
  cbn [Voice.breakdown Voice.total Voice.unique_fillers].
  set (tl := Str.lower U text).
  set (f := fun p => Str.findall_count U (txt p) tl).
  assert (Hsize :
    size (fst (foldl (Voice.filler_step U tl) (∅, 0) Voice.filler_words))
    = length (filter (fun p => 0 < f p) Voice.filler_words))
    by apply filler_loop_size, filler_words_NoDup.
  assert (Htotal :
    snd (foldl (Voice.filler_step U tl) (∅, 0) Voice.filler_words)
    = sum_list (f <$> Voice.filler_words))
    by apply filler_loop_total.
  rewrite Hsize, Htotal.
  split; [apply positive_count_le_sum|].
  split; [etransitivity; [apply length_filter | reflexivity]|].
  split; [|split].
  - intros p n. rewrite filler_loop_lookup. fold (f p).
    case_decide as Hp; [|rewrite lookup_empty; discriminate].
    intros [= <-]. destruct Hp as [Hin Hpos]. split; [exact Hpos|].
    apply list_elem_of_In in Hin. clear - Hin.
    induction Voice.filler_words as [|a l IH]; [destruct Hin|].
    rewrite fmap_cons. cbn [sum_list sum_list_with]. unfold id at 1.
    destruct Hin as [->|Hin]; [lia | specialize (IH Hin); lia].
  - rewrite sum_zero_no_positive, <- length_zero_iff_nil, <- Hsize.
    apply map_size_empty_iff.
  - rewrite sum_zero_no_positive. symmetry. apply length_zero_iff_nil.
Qed.

(** ** Voice scorer: pauses *)

Lemma count_dot_cons (c : N) (s : ustring) :
  Str.count [46%N] (c :: s)
  = (if (46 =? c)%N then 1 else 0) + Str.count [46%N] s.
Proof.
  unfold Str.count. cbn [Str.count_from Str.prefix length Nat.sub].
  destruct (46 =? c)%N; reflexivity.
Qed.

(** Each ellipsis found accounts for three full stops of its own. *)
Lemma ellipses_are_periods (s : ustring) (k : nat) :
  k <= 2 ->
  Str.prefix (dots k) s = true ->
  3 * Str.count_from [46%N; 46%N; 46%N] k s + k <= Str.count [46%N] s.
Proof.
  revert k. induction s as [|c s IH]; intros k Hk Hpre.
  - destruct k as [|[|k]]; simpl in *; try discriminate; lia.
  - rewrite count_dot_cons. destruct k as [|k].
    + cbn [Str.count_from].
      destruct (Str.prefix [46%N; 46%N; 46%N] (c :: s)) eqn:Hp.
      * cbn [Str.prefix] in Hp.
        destruct (46 =? c)%N; [|discriminate]. cbn [andb] in Hp.
        specialize (IH 2 (le_n 2) Hp). cbn [length Nat.sub]. lia.
      * specialize (IH 0 ltac:(lia) eq_refl).
        destruct (46 =? c)%N; lia.
    + cbn [Str.count_from].
      assert (Hc : (46 =? c)%N = true /\ Str.prefix (dots k) s = true).
      { destruct k as [|[|k]]; [| |lia]; cbn [dots Str.prefix] in Hpre;
          destruct (46 =? c)%N; try discriminate;
          (split; [reflexivity|]); [reflexivity | exact Hpre]. }
      destruct Hc as [Hc Hpre']. specialize (IH k ltac:(lia) Hpre').
      rewrite Hc. lia.
Qed.

(** X3. [analyze_pauses] returns a result for every text.  In it,
    [total_pauses] is the sum of the five counts, every ellipsis is counted
    three more times as a full stop (so [periods] is at least three times
    [ellipses]), [sentences_count] is at least 1, and the pause frequency is
    not negative. *)
Theorem analyze_pauses_spec (text : ustring) :
  exists r,
    Voice.analyze_pauses text = Ok r /\
    Voice.total_pauses r
    = Voice.commas (Voice.pauses r) + Voice.periods (Voice.pauses r)
      + Voice.semicolons (Voice.pauses r) + Voice.dashes (Voice.pauses r)
      + Voice.ellipses (Voice.pauses r) /\
    3 * Voice.ellipses (Voice.pauses r) <= Voice.periods (Voice.pauses r) /\
    4 * Voice.ellipses (Voice.pauses r) <= Voice.total_pauses r /\
    1 <= Voice.sentences_count r /\
    (0 <= Voice.pause_frequency_per_100_words r)%Q /\
    (0 <= Voice.average_sentence_length r)%Q.
Proof.
  unfold Voice.analyze_pauses. rewrite !pydiv_max. cbn [bind].
  eexists. split; [reflexivity|].
  cbn [Voice.total_pauses Voice.pauses Voice.commas Voice.periods
       Voice.semicolons Voice.dashes Voice.ellipses Voice.sentences_count
       Voice.pause_frequency_per_100_words Voice.average_sentence_length].
  pose proof (ellipses_are_periods text 0 ltac:(lia) eq_refl) as Hdots.
  fold (Str.count [46%N; 46%N; 46%N] text) in Hdots.
  change (txt "...") with [46%N; 46%N; 46%N].
  change (txt ".") with [46%N].
  split; [reflexivity|]. split; [lia|]. split; [lia|].
  split; [unfold Str.split_stops_len; lia|].
  assert (Hquot : forall a b : nat, (0 <= Num.of_nat a / Num.of_nat (max b 1))%Q).
  { intros a b. apply Qle_shift_div_l; [apply of_nat_pos; lia|].
    rewrite Qmult_0_l. unfold Num.of_nat, Qle. simpl. lia. }
  split.
  - apply pyround_nonneg.
    apply Qmult_le_0_compat; [apply Hquot | discriminate].
  - apply pyround_nonneg. apply Hquot.
Qed.

(** ** Voice scorer: scores *)

Section Scores.

Local Open Scope Q_scope.

Lemma count_le_length {A : Type} (f : A -> bool) (l : list A) :
  (length (List.filter f l) <= length l)%nat.
Proof.
  induction l as [|a l IH]; simpl; [lia|]. destruct (f a); simpl; lia.
Qed.

(** Two counts over the same [n] words: their difference, divided by
    [max(n, 1)], is between -1 and 1. *)
Lemma quotient_bounds (plus minus n : nat) :
  (plus <= n)%nat -> (minus <= n)%nat ->
  -1 <= (Num.of_nat plus - Num.of_nat minus) / Num.of_nat (max n 1) /\
  (Num.of_nat plus - Num.of_nat minus) / Num.of_nat (max n 1) <= 1.
Proof.
  intros Hp Hm.
  assert (Hd : 0 < Num.of_nat (max n 1)) by (apply of_nat_pos; lia).
  split.
  - apply Qle_shift_div_l; [exact Hd|].
    unfold Num.of_nat, Qle. simpl. lia.
  - apply Qle_shift_div_r; [exact Hd|].
    unfold Num.of_nat, Qle. simpl. lia.
Qed.

Lemma ratio_bounds (part n : nat) :
  (part <= n)%nat ->
  0 <= Num.of_nat part / Num.of_nat (max n 1) /\
  Num.of_nat part / Num.of_nat (max n 1) <= 1.
Proof.
  intros Hp.
  assert (Hd : 0 < Num.of_nat (max n 1)) by (apply of_nat_pos; lia).
  split.
  - apply Qle_shift_div_l; [exact Hd|].
    unfold Num.of_nat, Qle. simpl. lia.
  - apply Qle_shift_div_r; [exact Hd|].
    unfold Num.of_nat, Qle. simpl. lia.
Qed.

Lemma pyround_unit_interval (nd : nat) (q : Q) :
  -1 <= q -> q <= 1 -> -1 <= Num.pyround nd q /\ Num.pyround nd q <= 1.
Proof.
  intros Hlo Hhi.
  assert (Hone : 1 == inject_Z (10 ^ Z.of_nat nd) / inject_Z (10 ^ Z.of_nat nd)).
  { pose proof (pow10_pos nd) as Hp. field.
    intros Hz. rewrite Hz in Hp. exact (Qlt_irrefl _ Hp). }
  assert (Hmone : -1 == inject_Z (- 10 ^ Z.of_nat nd) / inject_Z (10 ^ Z.of_nat nd)).
  { pose proof (pow10_pos nd) as Hp. rewrite inject_Z_opp. field.
    intros Hz. rewrite Hz in Hp. exact (Qlt_irrefl _ Hp). }
  split.
  - exact (pyround_ge nd _ _ _ Hmone Hlo).
  - exact (pyround_le nd _ _ _ Hone Hhi).
Qed.

End Scores.

Lemma voice_sets_disjoint (w : ustring) :
  (Str.member w Voice.confidence_strong && Str.member w Voice.confidence_weak
   = false) /\
  (Str.member w Voice.clarity_clear && Str.member w Voice.clarity_unclear
   = false).
Proof.
  split.
  - destruct (Str.member w Voice.confidence_strong) eqn:Hs; [|reflexivity].
    apply member_In in Hs. unfold Voice.confidence_strong in Hs.
    cbn [map In] in Hs.
    repeat (destruct Hs as [<-|Hs]; [vm_compute; reflexivity|]). destruct Hs.
  - destruct (Str.member w Voice.clarity_clear) eqn:Hs; [|reflexivity].
    apply member_In in Hs. unfold Voice.clarity_clear in Hs.
    cbn [map In] in Hs.
    repeat (destruct Hs as [<-|Hs]; [vm_compute; reflexivity|]). destruct Hs.
Qed.

Lemma exclusive_counts {A : Type} (f g : A -> bool) (l : list A) :
  (forall w, f w && g w = false) ->
  length (List.filter f l) + length (List.filter g l) <= length l.
Proof.
  intros Hex. induction l as [|a l IH]; simpl; [lia|].
  specialize (Hex a). destruct (f a), (g a); simpl in *; try discriminate; lia.
Qed.

(** The two scores of [analyze_confidence_clarity] are between -1 and 1. *)
Lemma confidence_clarity_in_range (U : Str.unicode) (text : ustring) :
  exists r,
    Voice.analyze_confidence_clarity U text = Ok r /\
    (-1 <= Voice.confidence_score (Voice.confidence r))%Q /\
    (Voice.confidence_score (Voice.confidence r) <= 1)%Q /\
    (-1 <= Voice.clarity_score (Voice.clarity r))%Q /\
    (Voice.clarity_score (Voice.clarity r) <= 1)%Q.
Proof.
  unfold Voice.analyze_confidence_clarity, Voice.indicator_score.
  rewrite !pydiv_max. cbn [bind]. eexists. split; [reflexivity|].
  cbn [Voice.confidence Voice.clarity Voice.confidence_score Voice.clarity_score].
  set (words := Str.split (Str.lower U text)).
  destruct (quotient_bounds (Voice.count_in Voice.confidence_strong words)
              (Voice.count_in Voice.confidence_weak words) (length words))
    as [H1 H2]; try apply count_le_length.
  destruct (quotient_bounds (Voice.count_in Voice.clarity_clear words)
              (Voice.count_in Voice.clarity_unclear words) (length words))
    as [H3 H4]; try apply count_le_length.
  destruct (pyround_unit_interval 4 _ H1 H2) as [H5 H6].
  destruct (pyround_unit_interval 4 _ H3 H4) as [H7 H8].
  repeat split; assumption.
Qed.

(** X4. [analyze_confidence_clarity] returns a result for every text.  Its
    two scores are between -1 and 1; a word is never counted both as strong
    and as weak, nor both as clear and as unclear, so each pair of counts
    adds up to at most the number of words. *)
Theorem confidence_clarity_bounds (U : Str.unicode) (text : ustring) :
  exists r,
    Voice.analyze_confidence_clarity U text = Ok r /\
    (-1 <= Voice.confidence_score (Voice.confidence r))%Q /\
    (Voice.confidence_score (Voice.confidence r) <= 1)%Q /\
    (-1 <= Voice.clarity_score (Voice.clarity r))%Q /\
    (Voice.clarity_score (Voice.clarity r) <= 1)%Q /\
    Voice.strong_indicators (Voice.confidence r)
    + Voice.weak_indicators (Voice.confidence r)
    <= length (Str.split (Str.lower U text)) /\
    Voice.clear_indicators (Voice.clarity r)
    + Voice.unclear_indicators (Voice.clarity r)
    <= length (Str.split (Str.lower U text)).
Proof.
  destruct (confidence_clarity_in_range U text) as (r & Hr & H1 & H2 & H3 & H4).
  exists r. split; [exact Hr|]. repeat (split; [assumption|]).
  unfold Voice.analyze_confidence_clarity, Voice.indicator_score in Hr.
  rewrite !pydiv_max in Hr. cbn [bind] in Hr. injection Hr as <-.
  cbn [Voice.confidence Voice.clarity Voice.strong_indicators
       Voice.weak_indicators Voice.clear_indicators Voice.unclear_indicators].
  split; apply exclusive_counts; intros w; apply voice_sets_disjoint.
Qed.

(** ** Voice scorer: the whole analysis *)

Lemma pace_returns (text : ustring) (duration : pyval) :
  truthy duration = false \/ numeric duration = true ->
  exists p, Voice.calculate_speaking_pace text duration = Ok p.
Proof.
  intros [Hfalsy | Hnum].
  - destruct (Str.split text) eqn:Hs.
    + eexists. apply pace_not_provided_blank; assumption.
    + eexists. apply pace_not_provided; [exact Hfalsy | rewrite Hs; discriminate].
  - destruct (truthy duration) eqn:Ht.
    + destruct duration as [| b | z | q | | |]; try discriminate.
      * simpl in Ht. subst b. unfold Voice.calculate_speaking_pace.
        cbn [truthy div_by]. rewrite pydiv_ok by discriminate. eexists. reflexivity.
      * eexists. apply (pace_provided text (PInt z) (inject_Z z) eq_refl).
        intros Hz. rewrite (truthy_number (PInt z) _ eq_refl) in Ht.
        apply Qeq_bool_iff in Hz. rewrite Hz in Ht. discriminate.
      * eexists. apply (pace_provided text (PFloat q) q eq_refl).
        intros Hz. simpl in Ht.
        apply Qeq_bool_iff in Hz. rewrite Hz in Ht. discriminate.
    + destruct (Str.split text) eqn:Hs.
      * eexists. apply pace_not_provided_blank; assumption.
      * eexists. apply pace_not_provided; [exact Ht | rewrite Hs; discriminate].
Qed.

Lemma pace_raises (text : ustring) (duration : pyval) :
  truthy duration = true -> numeric duration = false ->
  exists kind msg, Voice.calculate_speaking_pace text duration = Raise kind msg.
Proof.
  intros Ht Hnum. unfold Voice.calculate_speaking_pace. rewrite Ht.
  destruct duration; try discriminate; cbn [div_by bind]; eauto.
Qed.

Lemma pace_word_count (text : ustring) (duration : pyval) (p : Voice.speaking_pace) :
  Voice.calculate_speaking_pace text duration = Ok p ->
  Voice.word_count p = length (Str.split text).
Proof.
  unfold Voice.calculate_speaking_pace. intros H. bind_inv H.
  injection H as <-. reflexivity.
Qed.

Lemma Ok_inj {A : Type} (a b : A) : Ok a = Ok b -> a = b.
Proof. intros H. injection H. auto. Qed.

Lemma voice_success_inj (ts ts' : pyval) (p p' : Voice.speaking_pace)
    (f f' : Voice.filler_analysis) (pa pa' : Voice.pause_analysis)
    (cc cc' : Voice.confidence_clarity) (q q' : Voice.voice_quality) :
  Voice.Success ts p f pa cc q = Voice.Success ts' p' f' pa' cc' q' ->
  ts = ts' /\ p = p' /\ f = f' /\ pa = pa' /\ cc = cc' /\ q = q'.
Proof. intros H. injection H. auto 10. Qed.

(** What [analyze_voice] has computed when it returns the full dict. *)
Lemma analyze_voice_success (U : Str.unicode) (text timestamp duration ts : pyval)
    (p : Voice.speaking_pace) (f : Voice.filler_analysis)
    (pa : Voice.pause_analysis) (cc : Voice.confidence_clarity)
    (q : Voice.voice_quality) :
  Voice.analyze_voice U text timestamp duration = Voice.Success ts p f pa cc q ->
  exists s,
    text = PStr s /\ Str.all_space s = false /\ ts = timestamp /\
    Voice.calculate_speaking_pace s duration = Ok p /\
    f = Voice.detect_filler_words U s /\
    Voice.analyze_pauses s = Ok pa /\
    Voice.analyze_confidence_clarity U s = Ok cc /\
    q = {| Voice.quality_score := Num.pyround 3 (voice_overall p f cc);
           Voice.quality_rating := Voice.rating_of (voice_overall p f cc) |}.
Proof.
  unfold Voice.analyze_voice, Voice.analyze_voice_in. intros H.
  destruct (Voice.analyze_voice_try U _ _ _ _) as [r|] eqn:Htry; [subst r | discriminate].
  unfold Voice.analyze_voice_try in Htry. bind_inv Htry.
  destruct text as [| | | | s | |]; try discriminate. injection Ha as <-.
  exists s. split; [reflexivity|].
  destruct (Str.is_empty (Str.strip s)) eqn:He; [discriminate|].
  split.
  { destruct (Str.all_space s) eqn:Hb; [|reflexivity].
    apply strip_empty in Hb. rewrite Hb in He. discriminate. }
  bind_inv Htry. bind_inv Htry. bind_inv Htry.
  rewrite pydiv_max in Htry. cbn [bind] in Htry.
  apply Ok_inj, voice_success_inj in Htry as (<- & <- & <- & <- & <- & <-).
  repeat split; assumption.
Qed.

(** X5. [analyze_voice] returns the full dict exactly when the text is a
    string that is not blank (it has a character that is not whitespace, of
    the whitespace of Unicode) and the duration is falsy (missing, zero,
    empty) or a number or a boolean; in every other case it returns the
    error dict. *)
Theorem analyze_voice_succeeds_iff (U : Str.unicode) (text timestamp duration : pyval) :
  Voice.is_valid (Voice.analyze_voice U text timestamp duration) = true
  <-> exists s,
        text = PStr s /\ ~ blank s /\
        (truthy duration = false \/ numeric duration = true).
Proof.
  split.
  - destruct (Voice.analyze_voice U text timestamp duration)
      as [|ts p f pa cc q] eqn:Hv; [discriminate|]. intros _.
    apply analyze_voice_success in Hv as (s & -> & Hs & _ & Hp & _).
    exists s. split; [reflexivity|].
    split; [intros Hb; apply blank_spec in Hb; congruence|].
    destruct (truthy duration) eqn:Ht; [right | now left].
    destruct (numeric duration) eqn:Hn; [reflexivity|].
    destruct (pace_raises s duration Ht Hn) as (kind & msg & Hr). congruence.
  - intros (s & -> & Hs & Hd).
    destruct (pace_returns s duration Hd) as [p Hp].
    assert (Hw : Str.split s <> []).
    { intros Hnil. apply Hs, blank_spec, split_nil, Hnil. }
    destruct (analyze_voice_returns U s timestamp duration p Hw Hp)
      as (f & pa & cc & q & ->). reflexivity.
Qed.

Section Quality.

Local Open Scope Q_scope.

Lemma qmax_bounds (x : Q) : x <= 1 -> 0 <= Num.qmax 0 x /\ Num.qmax 0 x <= 1.
Proof.
  intros Hx. unfold Num.qmax. destruct (Num.ltb 0 x) eqn:Hl.
  - apply ltb_spec in Hl. split; [apply Qlt_le_weak, Hl | exact Hx].
  - split; [apply Qle_refl | discriminate].
Qed.

Lemma voice_overall_bounds (p : Voice.speaking_pace) (f : Voice.filler_analysis)
    (cc : Voice.confidence_clarity) :
  -1 <= Voice.confidence_score (Voice.confidence cc) ->
  Voice.confidence_score (Voice.confidence cc) <= 1 ->
  -1 <= Voice.clarity_score (Voice.clarity cc) ->
  Voice.clarity_score (Voice.clarity cc) <= 1 ->
  7 # 40 <= voice_overall p f cc /\ voice_overall p f cc <= 1.
Proof.
  intros H1 H2 H3 H4. unfold voice_overall.
  set (rate := Num.of_nat (Voice.total f)
               / Num.of_nat (max (Voice.word_count p) 1)).
  assert (Hrate : 0 <= rate).
  { apply Qle_shift_div_l; [apply of_nat_pos; lia|].
    rewrite Qmult_0_l. unfold Num.of_nat, Qle. simpl. lia. }
  destruct (qmax_bounds (1 - rate * 5)) as [Hf0 Hf1]; [lra|].
  set (fs := Num.qmax 0 (1 - rate * 5)) in *.
  set (c := Voice.confidence_score (Voice.confidence cc)) in *.
  set (d := Voice.clarity_score (Voice.clarity cc)) in *.
  assert (Hps : 7 # 10 <= (if String.eqb (Voice.pace_category p) "normal"
                           then 1 else 7 # 10)
                /\ (if String.eqb (Voice.pace_category p) "normal"
                    then 1 else 7 # 10) <= 1).
  { destruct (String.eqb _ _); split; discriminate. }
  destruct Hps as [Hp0 Hp1].
  set (ps := if String.eqb (Voice.pace_category p) "normal" then 1 else 7 # 10) in *.
  assert (E : (ps + fs + (c + 1) / 2 + (d + 1) / 2) / 4
              == (ps + fs + (c + 1) * (1 # 2) + (d + 1) * (1 # 2)) * (1 # 4))
    by (unfold Qdiv; reflexivity).
  rewrite E. split; lra.
Qed.

End Quality.

(** X6. In every full dict that [analyze_voice] returns, the overall voice
    score is between 0.175 and 1, [word_count] is at least 1, and the rating
    agrees with the rounded score: [excellent] only with a score of at least
    0.8, [good] only between 0.6 and 0.8, [needs_improvement] only with a
    score of at most 0.6. *)
Theorem voice_quality_bounds (U : Str.unicode) (text timestamp duration ts : pyval)
    (p : Voice.speaking_pace) (f : Voice.filler_analysis)
    (pa : Voice.pause_analysis) (cc : Voice.confidence_clarity)
    (q : Voice.voice_quality) :
  Voice.analyze_voice U text timestamp duration = Voice.Success ts p f pa cc q ->
  (7 # 40 <= Voice.quality_score q)%Q /\
  (Voice.quality_score q <= 1)%Q /\
  1 <= Voice.word_count p /\
  (Voice.quality_rating q = "excellent" -> (8 # 10 <= Voice.quality_score q)%Q) /\
  (Voice.quality_rating q = "good" ->
     (6 # 10 <= Voice.quality_score q)%Q /\ (Voice.quality_score q <= 8 # 10)%Q) /\
  (Voice.quality_rating q = "needs_improvement" ->
     (Voice.quality_score q <= 6 # 10)%Q) /\
  (Voice.quality_rating q = "excellent" \/ Voice.quality_rating q = "good"
   \/ Voice.quality_rating q = "needs_improvement").
Proof.
  intros Hv.
  apply analyze_voice_success in Hv as (s & -> & Hs & _ & Hp & _ & _ & Hcc & ->).
  destruct (confidence_clarity_in_range U s) as (cc' & Hcc' & H1 & H2 & H3 & H4).
  rewrite Hcc in Hcc'. injection Hcc' as <-.
  destruct (voice_overall_bounds p f cc H1 H2 H3 H4) as [Hlo Hhi].
  cbn [Voice.quality_score Voice.quality_rating].
  set (o := voice_overall p f cc) in *.
  split; [apply (pyround_ge 3 175); [reflexivity | exact Hlo]|].
  split; [apply (pyround_le 3 1000); [reflexivity | exact Hhi]|].
  split.
  { rewrite (pace_word_count _ _ _ Hp).
    destruct (Str.split s) eqn:Hsp; [|simpl; lia].
    apply split_nil in Hsp. congruence. }
  unfold Voice.rating_of.
  destruct (Num.gtb o (8 # 10)) eqn:He; cbv iota.
  - apply gtb_spec in He.
    split; [intros _; apply (pyround_ge 3 800); [reflexivity | apply Qlt_le_weak, He]|].
    split; [refute|]. split; [refute | now left].
  - assert (He' : (o <= 8 # 10)%Q).
    { apply Qnot_lt_le. intros Hc. apply gtb_spec in Hc. congruence. }
    destruct (Num.gtb o (6 # 10)) eqn:Hg; cbv iota.
    + apply gtb_spec in Hg. split; [refute|].
      split; [intros _; split;
                [apply (pyround_ge 3 600); [reflexivity | apply Qlt_le_weak, Hg]
                |apply (pyround_le 3 800); [reflexivity | exact He']]|].
      split; [refute | right; now left].
    + assert (Hg' : (o <= 6 # 10)%Q).
      { apply Qnot_lt_le. intros Hc. apply gtb_spec in Hc. congruence. }
      split; [refute|]. split; [refute|].
      split; [intros _; apply (pyround_le 3 600); [reflexivity | exact Hg']|].
      right; now right.
Qed.

Lemma sample_voice_result_eq :
  Voice.analyze_voice ascii_unicode (PStr (txt "well, I definitely led the team")) (PStr (txt "00:01"))
    (PInt 2)
  = sample_voice_result.
Proof. vm_compute. reflexivity. Qed.

Lemma voice_quality_bounds_witness :
  exists p f pa cc q,
    Voice.analyze_voice ascii_unicode (PStr (txt "well, I definitely led the team")) (PStr (txt "00:01"))
      (PInt 2)
    = Voice.Success (PStr (txt "00:01")) p f pa cc q /\
    (7 # 40 <= Voice.quality_score q)%Q /\ (Voice.quality_score q <= 1)%Q.
Proof.
  pose proof sample_voice_result_eq as E. unfold sample_voice_result in E.
  do 5 eexists. split; [exact E|].
  pose proof (voice_quality_bounds _ _ _ _ _ _ _ _ _ _ E) as H.
  exact (conj (proj1 H) (proj1 (proj2 H))).
Defined.

(** ** Summaries *)

Lemma map_exc_returns {A B : Type} (f : A -> exc B) (l : list A) :
  (forall a, In a l -> exists b, f a = Ok b) ->
  exists bs, map_exc f l = Ok bs /\ length bs = length l.
Proof.
  induction l as [|a l IH]; intros H; simpl.
  - exists []. split; reflexivity.
  - destruct (H a (or_introl eq_refl)) as [b ->].
    destruct IH as (bs & -> & Hlen); [intros x Hx; apply H; now right|].
    exists (b :: bs). split; [reflexivity | simpl; congruence].
Qed.

Lemma filter_idempotent {A : Type} (f : A -> bool) (l : list A) :
  List.filter f (List.filter f l) = List.filter f l.
Proof.
  induction l as [|a l IH]; simpl; [reflexivity|].
  destruct (f a) eqn:Ha; simpl; [rewrite Ha, IH|]; auto.
Qed.

Lemma filter_all_true {A : Type} (f : A -> bool) (l : list A) (a : A) :
  In a (List.filter f l) -> f a = true.
Proof. intros H. now apply filter_In in H. Qed.

Lemma voice_valid_success (a : Voice.result) :
  Voice.is_valid a = true ->
  exists ts p f pa cc q, a = Voice.Success ts p f pa cc q.
Proof. destruct a; [discriminate | intros _; eauto 10]. Qed.

Lemma voice_average_returns (l : list Voice.result) (f : Voice.result -> exc Q) :
  l <> [] ->
  (forall a, In a l -> exists b, f a = Ok b) ->
  exists x, Voice.average l f = Ok x.
Proof.
  intros Hne Hf. unfold Voice.average.
  destruct (map_exc_returns f l Hf) as (xs & -> & _). cbn [bind].
  rewrite pydiv_ok; [eauto|].
  apply of_nat_nonzero. destruct l; [contradiction | simpl; lia].
Qed.

(** X7. [get_voice_summary] returns for every list of results, and never
    raises.  It returns [None] for the empty list only, the error summary
    exactly when the list is not empty and holds error results only, and
    otherwise a summary whose [total_analyses] is the number of results
    without error.  Error results do not change the summary. *)
Theorem voice_summary_spec (analyses : list Voice.result) :
  let valid := List.filter Voice.is_valid analyses in
  (exists r,
     Voice.get_voice_summary analyses = Ok r /\
     match r with
     | NoSummary => analyses = []
     | SummaryError msg =>
         analyses <> [] /\ valid = [] /\
         msg = "No valid voice analyses to summarize"
     | Summary s =>
         valid <> [] /\ Voice.total_analyses s = length valid
     end) /\
  (valid <> [] -> Voice.get_voice_summary analyses = Voice.get_voice_summary valid).
Proof.
  cbv zeta. split.
  - unfold Voice.get_voice_summary.
    destruct analyses as [|a0 l0]; [eexists; split; reflexivity|].
    set (analyses := a0 :: l0).
    destruct (List.filter Voice.is_valid analyses) as [|v vs] eqn:Hvalid.
    { eexists. split; [reflexivity|]. repeat split. discriminate. }
    rewrite <- Hvalid.
    assert (Hne : List.filter Voice.is_valid analyses <> [])
      by (rewrite Hvalid; discriminate).
    assert (Hok : forall a, In a (List.filter Voice.is_valid analyses) ->
                  exists ts p f pa cc q, a = Voice.Success ts p f pa cc q).
    { intros a Ha. apply voice_valid_success. eapply filter_all_true, Ha. }
    repeat
      (match goal with
       | |- context [bind (Voice.average ?l ?f) _] =>
           let x := fresh "x" in
           let Hx := fresh "Hx" in
           destruct (voice_average_returns l f Hne) as [x Hx];
           [intros a Ha; destruct (Hok a Ha) as (? & ? & ? & ? & ? & ? & ->);
            cbn [Voice.field]; rewrite ?pydiv_max; eauto
           | rewrite Hx; cbn [bind]]
       end).
    eexists. split; [reflexivity|]. split; [exact Hne | reflexivity].
  - intros Hne. unfold Voice.get_voice_summary.
    destruct analyses as [|a0 l0]; [reflexivity|].
    rewrite filter_idempotent.
    destruct (List.filter Voice.is_valid (a0 :: l0)); [contradiction | reflexivity].
Qed.

(** ** Sentiment scorer: cleaning and filtering *)

Lemma cleaned_text (U : Str.unicode) (s : ustring) :
  length (Str.sub_nonword U s) = length s /\
  (forall i c, s !! i = Some c ->
     Str.sub_nonword U s !! i
     = Some (if Str.is_word U c || Str.is_space c then c else 32%N)) /\
  Forall (fun c => Str.is_word U c = true \/ In c white_space)
    (Str.sub_nonword U s).
Proof.
  induction s as [|a s (IHlen & IHat & IHall)].
  - split; [reflexivity|]. split; [intros i c [=] | constructor].
  - cbn [Str.sub_nonword length]. split; [now rewrite IHlen|]. split.
    + intros [|i] c H; [injection H as ->; reflexivity | now apply IHat].
    + constructor; [|exact IHall].
      destruct (Str.is_word U a) eqn:Hw; [now left|]. cbn [orb].
      destruct (Str.is_space a) eqn:Hs.
      * right. now apply is_space_spec.
      * right. now apply is_space_spec.
Qed.

(** X8. [filter_text] hands the tokenizer the lowercased text in which every
    character that is neither a word character nor whitespace is replaced by
    a space: a text of the same length as the lowercased text, that holds
    its word characters and its whitespace in their places, and a space
    everywhere else.  The tokens it keeps are tokens of the tokenizer, in
    their order, each of at least three characters and none a stop word; the
    filtered text is these tokens joined by single spaces; and an exception
    of the tokenizer is passed on. *)
Theorem filter_text_spec (U : Str.unicode) (E : nlp) (text : ustring) :
  let lowered := Str.lower U text in
  let cleaned := Str.sub_nonword U lowered in
  length cleaned = length lowered /\
  (forall i c, lowered !! i = Some c ->
     cleaned !! i
     = Some (if Str.is_word U c || Str.is_space c then c else 32%N)) /\
  Forall (fun c => Str.is_word U c = true \/ In c white_space) cleaned /\
  (forall tokens filtered_text,
     Sentiment.filter_text U E (PStr text) = Ok (tokens, filtered_text) ->
     exists raw,
       word_tokenize E cleaned = Ok raw /\
       tokens = List.filter (Sentiment.keep_token E) raw /\
       filtered_text = Str.join [32%N] tokens /\
       forall w, In w tokens ->
         In w raw /\ 3 <= length w /\
         ~ In w (english_stop_words E) /\
         ~ In w Sentiment.interview_stop_words) /\
  (forall kind msg,
     word_tokenize E cleaned = Raise kind msg ->
     Sentiment.filter_text U E (PStr text) = Raise kind msg).
Proof.
  cbv zeta. destruct (cleaned_text U (Str.lower U text)) as (Hlen & Hat & Hall).
  split; [exact Hlen | split; [exact Hat | split; [exact Hall | split]]].
  - intros tokens filtered_text H. unfold Sentiment.filter_text in H.
    cbn [as_str bind] in H. bind_inv H. injection H as <- <-.
    exists a. split; [exact Ha | split; [reflexivity | split; [reflexivity|]]].
    intros w Hw. apply filter_In in Hw as [Hraw Hkeep].
    unfold Sentiment.keep_token in Hkeep.
    apply andb_prop in Hkeep as [Hstop Hlen3].
    apply negb_true_iff in Hstop. apply Nat.ltb_lt in Hlen3.
    split; [exact Hraw | split; [lia|]].
    split; intros Hin;
      (assert (Hm : Str.member w (Sentiment.stop_words E) = true)
         by (apply member_In; unfold Sentiment.stop_words; apply in_or_app; tauto));
      congruence.
  - intros kind msg H. unfold Sentiment.filter_text. cbn [as_str bind].
    now rewrite H.
Qed.

(** ** Sentiment scorer: word scores *)

Section Levels.

Local Open Scope Q_scope.

Lemma not_gtb (a b : Q) : Num.gtb a b = false -> a <= b.
Proof.
  intros Hf. apply Qnot_lt_le. intros Hc. apply gtb_spec in Hc. congruence.
Qed.

Lemma not_ltb (a b : Q) : Num.ltb a b = false -> b <= a.
Proof.
  intros Hf. apply Qnot_lt_le. intros Hc. apply ltb_spec in Hc. congruence.
Qed.

(** The confidence level, decided before rounding, agrees with the score
    rounded to three decimals. *)
Lemma confidence_level_consistent (cs : Q) (level : string) :
  level = (if Num.gtb cs (1 # 10) then "high"
           else if Num.ltb cs (- (1 # 10)) then "low"
           else "medium")%string ->
  (level = "high"%string -> 1 # 10 <= Num.pyround 3 cs) /\
  (level = "low"%string -> Num.pyround 3 cs <= - (1 # 10)) /\
  (level = "medium"%string ->
     - (1 # 10) <= Num.pyround 3 cs /\ Num.pyround 3 cs <= 1 # 10).
Proof.
  intros ->. destruct (Num.gtb cs (1 # 10)) eqn:Hg.
  - apply gtb_spec in Hg. split; [|split; refute].
    intros _. apply (pyround_ge 3 100); [reflexivity | apply Qlt_le_weak, Hg].
  - apply not_gtb in Hg. destruct (Num.ltb cs (- (1 # 10))) eqn:Hl.
    + apply ltb_spec in Hl. split; [refute | split; [|refute]].
      intros _. apply (pyround_le 3 (-100)); [reflexivity | apply Qlt_le_weak, Hl].
    + apply not_ltb in Hl. split; [refute | split; [refute|]].
      intros _. split.
      * apply (pyround_ge 3 (-100)); [reflexivity | exact Hl].
      * apply (pyround_le 3 100); [reflexivity | exact Hg].
Qed.

Lemma professionalism_level_consistent (ps : Q) (level : string) :
  level = (if Num.gtb ps (15 # 100) then "high"
           else if Num.gtb ps (5 # 100) then "medium"
           else "low")%string ->
  (level = "high"%string -> 15 # 100 <= Num.pyround 3 ps) /\
  (level = "medium"%string ->
     5 # 100 <= Num.pyround 3 ps /\ Num.pyround 3 ps <= 15 # 100) /\
  (level = "low"%string -> Num.pyround 3 ps <= 5 # 100).
Proof.
  intros ->. destruct (Num.gtb ps (15 # 100)) eqn:Hg.
  - apply gtb_spec in Hg. split; [|split; refute].
    intros _. apply (pyround_ge 3 150); [reflexivity | apply Qlt_le_weak, Hg].
  - apply not_gtb in Hg. destruct (Num.gtb ps (5 # 100)) eqn:Hm.
    + apply gtb_spec in Hm. split; [refute | split; [|refute]].
      intros _. split.
      * apply (pyround_ge 3 50); [reflexivity | apply Qlt_le_weak, Hm].
      * apply (pyround_le 3 150); [reflexivity | exact Hg].
    + apply not_gtb in Hm. split; [refute | split; [refute|]].
      intros _. apply (pyround_le 3 50); [reflexivity | exact Hm].
Qed.

End Levels.

Lemma sentiment_sets_disjoint (w : ustring) :
  Str.member w Sentiment.confidence_high && Str.member w Sentiment.confidence_low
  = false.
Proof.
  destruct (Str.member w Sentiment.confidence_high) eqn:Hs; [|reflexivity].
  apply member_In in Hs. unfold Sentiment.confidence_high in Hs.
  cbn [map In] in Hs.
  repeat (destruct Hs as [<-|Hs]; [vm_compute; reflexivity|]). destruct Hs.
Qed.

(** X9. [analyze_confidence] and [analyze_professionalism] return a result for
    every token list, the empty one included.  The confidence score is
    between -1 and 1 and the professionalism score between 0 and 1; no token
    counts both as high and as low confidence; and each level agrees with the
    rounded score it comes with. *)
Theorem sentiment_word_scores (tokens : list ustring) :
  exists c p,
    Sentiment.analyze_confidence tokens = Ok c /\
    Sentiment.analyze_professionalism tokens = Ok p /\
    (-1 <= Sentiment.confidence_score c)%Q /\
    (Sentiment.confidence_score c <= 1)%Q /\
    (0 <= Sentiment.professionalism_score p)%Q /\
    (Sentiment.professionalism_score p <= 1)%Q /\
    Sentiment.high_confidence_words c + Sentiment.low_confidence_words c
    <= length tokens /\
    Sentiment.professional_words_count p <= length tokens /\
    (Sentiment.confidence_level c = "high" ->
       (1 # 10 <= Sentiment.confidence_score c)%Q) /\
    (Sentiment.confidence_level c = "low" ->
       (Sentiment.confidence_score c <= - (1 # 10))%Q) /\
    (Sentiment.confidence_level c = "medium" ->
       (- (1 # 10) <= Sentiment.confidence_score c)%Q /\
       (Sentiment.confidence_score c <= 1 # 10)%Q) /\
    (Sentiment.professionalism_level p = "high" ->
       (15 # 100 <= Sentiment.professionalism_score p)%Q) /\
    (Sentiment.professionalism_level p = "medium" ->
       (5 # 100 <= Sentiment.professionalism_score p)%Q /\
       (Sentiment.professionalism_score p <= 15 # 100)%Q) /\
    (Sentiment.professionalism_level p = "low" ->
       (Sentiment.professionalism_score p <= 5 # 100)%Q).
Proof.
  unfold Sentiment.analyze_confidence, Sentiment.analyze_professionalism.
  rewrite !pydiv_max. cbn [bind]. do 2 eexists.
  split; [reflexivity | split; [reflexivity|]].
  cbn [Sentiment.confidence_score Sentiment.professionalism_score
       Sentiment.high_confidence_words Sentiment.low_confidence_words
       Sentiment.professional_words_count Sentiment.confidence_level
       Sentiment.professionalism_level].
  set (hi := Sentiment.count_in Sentiment.confidence_high tokens).
  set (lo := Sentiment.count_in Sentiment.confidence_low tokens).
  set (pr := Sentiment.count_in Sentiment.professional_words tokens).
  destruct (quotient_bounds hi lo (length tokens)) as [H1 H2];
    try apply count_le_length.
  destruct (ratio_bounds pr (length tokens)) as [H3 H4];
    try apply count_le_length.
  set (cs := ((Num.of_nat hi - Num.of_nat lo) / Num.of_nat (max (length tokens) 1))%Q)
    in *.
  set (ps := (Num.of_nat pr / Num.of_nat (max (length tokens) 1))%Q) in *.
  destruct (pyround_unit_interval 3 cs H1 H2) as [H5 H6].
  split; [exact H5 | split; [exact H6|]].
  split; [apply pyround_nonneg, H3|].
  split; [apply (pyround_le 3 1000); [reflexivity | exact H4]|].
  split; [apply exclusive_counts; intros w; apply sentiment_sets_disjoint|].
  split; [apply count_le_length|].
  destruct (confidence_level_consistent cs _ eq_refl) as (A & B & C).
  destruct (professionalism_level_consistent ps _ eq_refl) as (D & F & G).
  repeat (split; [assumption|]). assumption.
Qed.

(** ** Sentiment scorer: word frequencies *)

Section Counter.

Context {K : Type}.
Variable same : K -> K -> bool.
Hypothesis same_eq : forall a b, same a b = true <-> a = b.

Lemma same_refl (a : K) : same a a = true.
Proof. now apply same_eq. Qed.

Lemma same_sym (a b : K) : same a b = same b a.
Proof.
  destruct (same a b) eqn:H1, (same b a) eqn:H2; try reflexivity.
  - apply same_eq in H1. subst b. rewrite same_refl in H2. discriminate.
  - apply same_eq in H2. subst b. rewrite same_refl in H1. discriminate.
Qed.

Lemma existsb_same_In (w : K) (l : list K) :
  existsb (same w) l = true <-> In w l.
Proof.
  rewrite existsb_exists. split.
  - intros (x & Hx & Heq). apply same_eq in Heq. now subst.
  - intros H. exists w. split; [exact H | apply same_refl].
Qed.

Lemma counter_add_keys (w : K) (c : list (K * nat)) :
  map fst (counter_add same w c)
  = if existsb (same w) (map fst c) then map fst c else map fst c ++ [w].
Proof.
  induction c as [|[k n] c IH]; [reflexivity|].
  cbn [counter_add map fst existsb].
  rewrite (same_sym w k).
  destruct (same k w) eqn:Hk; cbn [map fst orb]; [reflexivity|].
  rewrite IH. destruct (existsb (same w) (map fst c)); reflexivity.
Qed.

Lemma counter_add_get (w v : K) (c : list (K * nat)) :
  counter_get same v (counter_add same w c)
  = counter_get same v c + (if same w v then 1 else 0).
Proof.
  induction c as [|[k n] c IH].
  - cbn [counter_add counter_get]. destruct (same w v); reflexivity.
  - cbn [counter_add]. destruct (same k w) eqn:Hkw; cbn [counter_get].
    + apply same_eq in Hkw. subst k.
      destruct (same w v); lia.
    + destruct (same k v) eqn:Hkv; [|exact IH].
      apply same_eq in Hkv. subst k.
      rewrite same_sym in Hkw. rewrite Hkw. lia.
Qed.

Lemma counter_add_sum (w : K) (c : list (K * nat)) :
  list_sum (map snd (counter_add same w c)) = S (list_sum (map snd c)).
Proof.
  induction c as [|[k n] c IH]; [reflexivity|].
  cbn [counter_add]. destruct (same k w); simpl.
  - lia.
  - simpl in IH. rewrite IH. lia.
Qed.

Lemma counter_add_positive (w : K) (c : list (K * nat)) :
  Forall (fun e => 0 < snd e) c ->
  Forall (fun e => 0 < snd e) (counter_add same w c).
Proof.
  induction c as [|[k n] c IH]; intros H.
  - repeat constructor.
  - inversion H as [|? ? Hn Hc]; subst. cbn [counter_add].
    destruct (same k w); constructor; simpl in *; auto; lia.
Qed.

Lemma counter_add_NoDup (w : K) (c : list (K * nat)) :
  NoDup (map fst c) -> NoDup (map fst (counter_add same w c)).
Proof.
  intros H. rewrite counter_add_keys.
  destruct (existsb (same w) (map fst c)) eqn:Hm; [exact H|].
  assert (Hnin : ~ In w (map fst c)).
  { intros Hin. apply existsb_same_In in Hin. congruence. }
  apply NoDup_app. split; [exact H|]. split.
  - intros x Hx Hw. apply list_elem_of_In in Hx.
    apply list_elem_of_singleton in Hw. subst x. contradiction.
  - apply NoDup_singleton.
Qed.

(** The loop of [Counter(tokens)], from any counter [c]. *)
Lemma counter_loop (tokens : list K) (c : list (K * nat)) :
  let c' := foldl (fun c w => counter_add same w c) c tokens in
  (NoDup (map fst c) -> NoDup (map fst c')) /\
  (forall v, counter_get same v c'
             = counter_get same v c + length (List.filter (same v) tokens)) /\
  list_sum (map snd c') = list_sum (map snd c) + length tokens /\
  (Forall (fun e => 0 < snd e) c -> Forall (fun e => 0 < snd e) c') /\
  map fst c'
  = foldl (fun acc w => if existsb (same w) acc then acc else acc ++ [w])
      (map fst c) tokens.
Proof.
  cbv zeta. revert c. induction tokens as [|w tokens IH]; intros c.
  - cbn [foldl]. simpl.
    repeat split; auto; intros; lia.
  - cbn [foldl]. destruct (IH (counter_add same w c)) as (H1 & H2 & H3 & H4 & H5).
    split; [intros H; apply H1, counter_add_NoDup, H|].
    split.
    { intros v. rewrite H2, counter_add_get.
      cbn [List.filter]. rewrite (same_sym v w).
      destruct (same w v); simpl; lia. }
    split; [rewrite H3, counter_add_sum; simpl; lia|].
    split; [intros H; apply H4, counter_add_positive, H|].
    rewrite H5, counter_add_keys. reflexivity.
Qed.

Lemma counter_get_In (v : K) (n : nat) (c : list (K * nat)) :
  NoDup (map fst c) -> In (v, n) c -> counter_get same v c = n.
Proof.
  induction c as [|[k m] c IH]; intros Hnd Hin; [destruct Hin|].
  cbn [map fst] in Hnd. apply NoDup_cons in Hnd as [Hk Hc].
  cbn [counter_get]. destruct Hin as [[= -> ->]|Hin].
  - now rewrite same_refl.
  - destruct (same k v) eqn:Hkv; [|now apply IH].
    apply same_eq in Hkv. subst k. exfalso. apply Hk.
    apply list_elem_of_In. apply in_map_iff. exists (v, n). split; [reflexivity | exact Hin].
Qed.

Lemma occurrences_positive (w : K) (l : list K) :
  0 < length (List.filter (same w) l) <-> In w l.
Proof.
  induction l as [|a l IH]; [simpl; split; [lia | tauto]|].
  cbn [List.filter In]. destruct (same w a) eqn:Ha.
  - apply same_eq in Ha. subst a. simpl. split; [auto | lia].
  - rewrite IH. split; [auto|]. intros [->|H]; [|exact H].
    rewrite same_refl in Ha. discriminate.
Qed.

Lemma counter_get_positive (w : K) (c : list (K * nat)) :
  (forall e, In e c -> 0 < snd e) ->
  (0 < counter_get same w c <-> In w (map fst c)).
Proof.
  intros Hpos. induction c as [|[k n] c IH]; [simpl; split; [lia | tauto]|].
  cbn [counter_get map fst In]. destruct (same k w) eqn:Hk.
  - apply same_eq in Hk. subst k. split; [auto|]. intros _.
    apply (Hpos (w, n)). now left.
  - rewrite IH by (intros e He; apply Hpos; now right).
    split; [auto|]. intros [->|H]; [|exact H].
    rewrite same_refl in Hk. discriminate.
Qed.

End Counter.

(** X10. [Counter(tokens)] holds each distinct token once, in the order of
    first occurrence, with the number of times it occurs in the list; every
    count is positive and the counts add up to the number of tokens. *)
Theorem counter_spec (tokens : list ustring) :
  let c := Sentiment.counter tokens in
  NoDup (map fst c) /\
  map fst c = first_occurrences tokens /\
  (forall w, counter_get Str.eqb w c = occurrences_of w tokens) /\
  (forall w n, In (w, n) c -> n = occurrences_of w tokens /\ 0 < n) /\
  (forall w, In w tokens <-> In w (map fst c)) /\
  list_sum (map snd c) = length tokens.
Proof.
  cbv zeta. unfold Sentiment.counter, first_occurrences, occurrences_of, Str.member.
  destruct (counter_loop Str.eqb eqb_eq tokens []) as (H1 & H2 & H3 & H4 & H5).
  specialize (H1 NoDup_nil_2). specialize (H4 (List.Forall_nil _)).
  set (c := foldl (fun c w => counter_add Str.eqb w c) [] tokens) in *.
  assert (Hget : forall w, counter_get Str.eqb w c
                           = length (List.filter (Str.eqb w) tokens))
    by (intros w; rewrite H2; reflexivity).
  assert (Hpos : forall e, In e c -> 0 < snd e).
  { intros e He. rewrite Forall_forall in H4. apply H4. now apply list_elem_of_In. }
  split; [exact H1 | split; [exact H5|]].
  split; [exact Hget|].
  split.
  { intros w n Hin. rewrite <- Hget.
    rewrite (counter_get_In Str.eqb eqb_eq w n c H1 Hin). split; [reflexivity|].
    exact (Hpos (w, n) Hin). }
  split; [|exact H3].
  intros w. rewrite <- (occurrences_positive Str.eqb eqb_eq), <- Hget.
  apply (counter_get_positive Str.eqb eqb_eq), Hpos.
Qed.

Section MostCommon.

Lemma insert_desc_perm (x : ustring * nat) (l : list (ustring * nat)) :
  Sentiment.insert_desc x l ≡ₚ x :: l.
Proof.
  induction l as [|y l IH]; [reflexivity|].
  cbn [Sentiment.insert_desc]. destruct (snd y <? snd x); [reflexivity|].
  rewrite IH. apply Permutation_swap.
Qed.

Lemma insert_desc_In (x e : ustring * nat) (l : list (ustring * nat)) :
  In e (Sentiment.insert_desc x l) <-> e = x \/ In e l.
Proof.
  induction l as [|y l IH]; [simpl; intuition congruence|].
  cbn [Sentiment.insert_desc]. destruct (snd y <? snd x).
  - simpl. intuition congruence.
  - cbn [In]. rewrite IH. intuition congruence.
Qed.

Lemma insert_desc_descending (x : ustring * nat) (l : list (ustring * nat)) :
  descending l -> descending (Sentiment.insert_desc x l).
Proof.
  induction l as [|y l IH]; intros Hd.
  - simpl. split; [intros ? []|exact I].
  - cbn [Sentiment.insert_desc]. destruct Hd as [Hy Hl].
    destruct (snd y <? snd x) eqn:Hlt.
    + apply Nat.ltb_lt in Hlt. cbn [descending]. split; [|split; assumption].
      intros e [<-|He]; [lia | specialize (Hy e He); lia].
    + apply Nat.ltb_ge in Hlt. cbn [descending]. split; [|apply IH, Hl].
      intros e He. apply insert_desc_In in He as [->|He]; [exact Hlt | apply Hy, He].
Qed.

(** Insertion keeps the entries of each count in their order, and puts the
    new entry after those of its own count. *)
Lemma insert_desc_stable (k : nat) (x : ustring * nat) (l : list (ustring * nat)) :
  descending l ->
  with_count k (Sentiment.insert_desc x l) = with_count k l ++ with_count k [x].
Proof.
  unfold with_count. induction l as [|y l IH]; intros Hd; [reflexivity|].
  cbn [Sentiment.insert_desc]. destruct Hd as [Hy Hl].
  destruct (snd y <? snd x) eqn:Hlt.
  - apply Nat.ltb_lt in Hlt. cbn [List.filter].
    destruct (snd x =? k) eqn:Hx; [|now rewrite app_nil_r].
    apply Nat.eqb_eq in Hx.
    assert (Hy' : (snd y =? k) = false) by (apply Nat.eqb_neq; lia).
    rewrite Hy'.
    assert (Hnone : List.filter (fun e => snd e =? k) l = []).
    { clear IH Hl. induction l as [|z l IHl]; [reflexivity|].
      cbn [List.filter].
      assert (Hz : (snd z =? k) = false).
      { apply Nat.eqb_neq. specialize (Hy z (or_introl eq_refl)). lia. }
      rewrite Hz. apply IHl. intros e He. apply Hy. now right. }
    now rewrite Hnone.
  - cbn [List.filter]. rewrite (IH Hl).
    destruct (snd y =? k); reflexivity.
Qed.

(** The whole list, sorted by the loop of insertions. *)
Lemma sort_loop (c acc : list (ustring * nat)) :
  descending acc ->
  let sorted := foldl (fun acc x => Sentiment.insert_desc x acc) acc c in
  sorted ≡ₚ acc ++ c /\
  descending sorted /\
  forall k, with_count k sorted = with_count k acc ++ with_count k c.
Proof.
  cbv zeta. revert acc. induction c as [|x c IH]; intros acc Hacc.
  - cbn [foldl]. rewrite app_nil_r. split; [reflexivity | split; [exact Hacc|]].
    intros k. unfold with_count. simpl. now rewrite app_nil_r.
  - cbn [foldl].
    destruct (IH (Sentiment.insert_desc x acc) (insert_desc_descending x acc Hacc))
      as (Hperm & Hdesc & Hstable).
    split; [|split; [exact Hdesc|]].
    + rewrite Hperm, insert_desc_perm. apply Permutation_middle.
    + intros k. rewrite Hstable, (insert_desc_stable k x acc Hacc).
      unfold with_count. rewrite <- app_assoc. f_equal.
      cbn [List.filter]. destruct (snd x =? k); reflexivity.
Qed.

Lemma In_take {A : Type} (n : nat) (l : list A) (y : A) :
  In y (take n l) -> In y l.
Proof.
  revert n. induction l as [|x l IH]; intros [|n]; simpl; try tauto.
  intros [->|H]; [now left | right; eapply IH, H].
Qed.

Lemma In_drop {A : Type} (n : nat) (l : list A) (y : A) :
  In y (drop n l) -> In y l.
Proof.
  revert n. induction l as [|x l IH]; intros [|n]; simpl; try tauto.
  intros H. right. eapply IH, H.
Qed.

Lemma descending_take (n : nat) (l : list (ustring * nat)) :
  descending l -> descending (take n l).
Proof.
  revert n. induction l as [|x l IH]; intros [|n] Hd; simpl; auto.
  destruct Hd as [Hx Hl]. split; [|apply IH, Hl].
  intros y Hy. eapply Hx, In_take, Hy.
Qed.

End MostCommon.

(** X11. [most_common(n)] returns the first [n] entries of the counter sorted
    by count, largest first: it has [min(n, len(c))] entries, all of them
    entries of the counter, in non-increasing order of count, and no entry
    left out counts more than one that is returned.  The sort is stable:
    entries with the same count stay in the order the counter holds them, so
    ties go to the token met first. *)
Theorem most_common_spec (n : nat) (c : list (ustring * nat)) :
  let sorted := Sentiment.most_common (length c) c in
  sorted ≡ₚ c /\
  descending sorted /\
  (forall k, with_count k sorted = with_count k c) /\
  Sentiment.most_common n c = take n sorted /\
  length (Sentiment.most_common n c) = min n (length c) /\
  descending (Sentiment.most_common n c) /\
  (forall e, In e (Sentiment.most_common n c) -> In e c) /\
  (forall e e', In e (Sentiment.most_common n c) -> In e' (drop n sorted) ->
     snd e' <= snd e).
Proof.
  cbv zeta. unfold Sentiment.most_common.
  destruct (sort_loop c [] I) as (Hperm & Hdesc & Hstable).
  set (sorted := foldl (fun acc x => Sentiment.insert_desc x acc) [] c) in *.
  cbn [app] in Hperm.
  assert (Hlen : length sorted = length c) by now rewrite Hperm.
  assert (Hall : take (length c) sorted = sorted)
    by (apply take_ge; lia).
  rewrite Hall.
  split; [exact Hperm | split; [exact Hdesc|]].
  split; [intros k; apply Hstable|].
  split; [reflexivity|].
  split; [rewrite length_take, Hlen; reflexivity|].
  split; [apply descending_take, Hdesc|].
  split.
  - intros e He. apply In_take in He. apply list_elem_of_In.
    rewrite <- Hperm. now apply list_elem_of_In.
  - intros e e' He He'. clear - Hdesc He He'.
    revert n He He'. induction sorted as [|x l IH]; intros [|n] He He';
      simpl in *; try tauto.
    destruct Hdesc as [Hx Hl]. destruct He as [<-|He].
    + eapply Hx, In_drop, He'.
    + eapply IH; eassumption.
Qed.

(** ** Sentiment scorer: the whole analysis *)

Lemma visible_strip (s : ustring) :
  Str.all_space s = false -> Str.is_empty (Str.strip s) = false.
Proof.
  intros Hs. destruct (Str.is_empty (Str.strip s)) eqn:He; [|reflexivity].
  apply is_empty_spec, strip_empty in He. congruence.
Qed.

Lemma strip_visible (s : ustring) :
  Str.is_empty (Str.strip s) = false -> Str.all_space s = false.
Proof.
  intros He. destruct (Str.all_space s) eqn:Hs; [|reflexivity].
  apply strip_empty in Hs. rewrite Hs in He. discriminate.
Qed.

Lemma sentiment_success_inj (ts ts' : pyval) (o o' ft ft' : ustring)
    (s s' : Sentiment.sentiment_block) (c c' : Sentiment.confidence_analysis)
    (p p' : Sentiment.professionalism_analysis) (w w' : Sentiment.word_analysis) :
  Sentiment.Success ts o ft s c p w = Sentiment.Success ts' o' ft' s' c' p' w' ->
  ts = ts' /\ o = o' /\ ft = ft' /\ s = s' /\ c = c' /\ p = p' /\ w = w'.
Proof. intros H. injection H. auto 10. Qed.

(** What [analyze_sentiment] has computed when it returns the full dict. *)
Lemma analyze_sentiment_success (U : Str.unicode) (E : nlp) (text timestamp ts : pyval)
    (o ft : ustring) (s : Sentiment.sentiment_block)
    (c : Sentiment.confidence_analysis) (p : Sentiment.professionalism_analysis)
    (w : Sentiment.word_analysis) :
  Sentiment.analyze_sentiment U E text timestamp = Sentiment.Success ts o ft s c p w ->
  exists tokens blob,
    text = PStr o /\ ts = timestamp /\
    Sentiment.filter_text U E (PStr o) = Ok (tokens, ft) /\
    Str.all_space ft = false /\
    textblob_sentiment E ft = Ok blob /\
    Sentiment.polarity s = Num.pyround 3 (fst blob) /\
    Sentiment.subjectivity s = Num.pyround 3 (snd blob) /\
    Sentiment.category s
    = (if Num.gtb (fst blob) (1 # 10) then "positive"
       else if Num.ltb (fst blob) (- (1 # 10)) then "negative"
       else "neutral") /\
    Sentiment.intensity s = Qabs (fst blob) /\
    Sentiment.analyze_confidence tokens = Ok c /\
    Sentiment.analyze_professionalism tokens = Ok p /\
    w = {| Sentiment.total_words := length (Str.split o);
           Sentiment.filtered_words := length tokens;
           Sentiment.most_common_words :=
             Sentiment.most_common 5 (Sentiment.counter tokens) |}.
Proof.
  unfold Sentiment.analyze_sentiment. intros H.
  destruct (Sentiment.analyze_sentiment_try U E text timestamp) as [r|] eqn:Htry;
    [subst r | discriminate].
  unfold Sentiment.analyze_sentiment_try in Htry. bind_inv Htry.
  destruct a as [tokens ftext]. cbn [fst snd] in Htry.
  destruct (Str.is_empty (Str.strip ftext)) eqn:He; [discriminate|].
  bind_inv Htry. rename a into blob, Ha0 into Hblob.
  bind_inv Htry. rename a into conf, Ha0 into Hconf.
  bind_inv Htry. rename a into prof, Ha0 into Hprof.
  bind_inv Htry. rename a into original, Ha0 into Horiginal.
  destruct text as [| | | | t | |]; cbn [as_str] in Horiginal;
    try discriminate Horiginal.
  apply Ok_inj in Horiginal. subst original.
  apply Ok_inj, sentiment_success_inj in Htry as (<- & <- & <- & <- & <- & <- & <-).
  exists tokens, blob.
  cbn [Sentiment.polarity Sentiment.subjectivity Sentiment.category
       Sentiment.intensity].
  repeat split; auto. apply strip_visible, He.
Qed.

Lemma analyze_sentiment_returns (U : Str.unicode) (E : nlp) (text : ustring)
    (timestamp : pyval) (tokens : list ustring) (ft : ustring) (blob : Q * Q) :
  Sentiment.filter_text U E (PStr text) = Ok (tokens, ft) ->
  Str.all_space ft = false ->
  textblob_sentiment E ft = Ok blob ->
  exists s c p w,
    Sentiment.analyze_sentiment U E (PStr text) timestamp
    = Sentiment.Success timestamp text ft s c p w.
Proof.
  intros Hf Hv Hb.
  unfold Sentiment.analyze_sentiment, Sentiment.analyze_sentiment_try.
  rewrite Hf. cbn [bind fst snd]. rewrite (visible_strip ft Hv), Hb. cbn [bind].
  unfold Sentiment.analyze_confidence, Sentiment.analyze_professionalism.
  rewrite !pydiv_max. cbn [bind as_str]. do 4 eexists. reflexivity.
Qed.

(** X12. [analyze_sentiment] returns the full dict exactly when the text is a
    string, the tokenizer returns, the filtered text has a visible character,
    and the estimator returns; in every other case it returns the error
    dict. *)
Theorem analyze_sentiment_succeeds_iff (U : Str.unicode) (E : nlp) (text timestamp : pyval) :
  Sentiment.is_valid (Sentiment.analyze_sentiment U E text timestamp) = true
  <-> exists s tokens ft blob,
        text = PStr s /\
        Sentiment.filter_text U E (PStr s) = Ok (tokens, ft) /\
        Str.all_space ft = false /\
        textblob_sentiment E ft = Ok blob.
Proof.
  split.
  - destruct (Sentiment.analyze_sentiment U E text timestamp)
      as [|ts o ft s c p w] eqn:Hs; [discriminate|]. intros _.
    apply analyze_sentiment_success in Hs
      as (tokens & blob & -> & _ & Hf & Hv & Hb & _).
    exists o, tokens, ft, blob. auto.
  - intros (s & tokens & ft & blob & -> & Hf & Hv & Hb).
    destruct (analyze_sentiment_returns U E s timestamp tokens ft blob Hf Hv Hb)
      as (sb & c & p & w & ->). reflexivity.
Qed.

Lemma join_nil_blank (tokens : list ustring) :
  Str.all_space (Str.join (txt " ") tokens) = false -> tokens <> [].
Proof. intros H ->. discriminate. Qed.

(** X13. In every full dict that [analyze_sentiment] returns: [original_text]
    is the text received and [timestamp] the timestamp received; at least one
    token survived the filtering; [most_common] lists at most five words, no
    more than there are filtered tokens; [intensity] is not negative; and the
    category agrees with the rounded polarity ([positive] only from 0.1 up,
    [negative] only from -0.1 down, [neutral] only between the two). *)
Theorem sentiment_result_invariants (U : Str.unicode) (E : nlp) (text timestamp ts : pyval)
    (o ft : ustring) (s : Sentiment.sentiment_block)
    (c : Sentiment.confidence_analysis) (p : Sentiment.professionalism_analysis)
    (w : Sentiment.word_analysis) :
  Sentiment.analyze_sentiment U E text timestamp = Sentiment.Success ts o ft s c p w ->
  text = PStr o /\ ts = timestamp /\
  1 <= Sentiment.filtered_words w /\
  Sentiment.total_words w = length (Str.split o) /\
  length (Sentiment.most_common_words w) <= 5 /\
  length (Sentiment.most_common_words w) <= Sentiment.filtered_words w /\
  (0 <= Sentiment.intensity s)%Q /\
  (Sentiment.category s = "positive" -> (1 # 10 <= Sentiment.polarity s)%Q) /\
  (Sentiment.category s = "negative" -> (Sentiment.polarity s <= - (1 # 10))%Q) /\
  (Sentiment.category s = "neutral" ->
     (- (1 # 10) <= Sentiment.polarity s)%Q /\ (Sentiment.polarity s <= 1 # 10)%Q).
Proof.
  intros H.
  apply analyze_sentiment_success in H
    as (tokens & blob & -> & -> & Hf & Hv & Hb & Hpol & Hsub & Hcat & Hint
        & Hc & Hp & ->).
  cbn [Sentiment.filtered_words Sentiment.total_words Sentiment.most_common_words].
  split; [reflexivity | split; [reflexivity|]].
  assert (Htokens : tokens <> []).
  { unfold Sentiment.filter_text in Hf. cbn [as_str bind] in Hf. bind_inv Hf.
    injection Hf as <- <-. now apply join_nil_blank. }
  split; [destruct tokens; [contradiction | simpl; lia]|].
  split; [reflexivity|].
  assert (Hlen : length (Sentiment.most_common 5 (Sentiment.counter tokens))
                 <= min 5 (length (Sentiment.counter tokens))).
  { unfold Sentiment.most_common. rewrite length_take.
    assert (Hp' : foldl (fun acc x => Sentiment.insert_desc x acc) []
                    (Sentiment.counter tokens) ≡ₚ Sentiment.counter tokens)
      by apply (sort_loop (Sentiment.counter tokens) [] I).
    rewrite Hp'. reflexivity. }
  assert (Hcount : length (Sentiment.counter tokens) <= length tokens).
  { unfold Sentiment.counter.
    destruct (counter_loop Str.eqb eqb_eq tokens []) as (_ & _ & Hsum & Hpos & _).
    specialize (Hpos (List.Forall_nil _)). simpl in Hsum. rewrite <- Hsum.
    clear - Hpos.
    induction (foldl (fun c w => counter_add Str.eqb w c) [] tokens) as [|e l IH];
      [simpl; lia|].
    apply Forall_cons in Hpos as [He Hl]. specialize (IH Hl).
    simpl in *. lia. }
  split; [lia | split; [lia|]].
  split; [rewrite Hint; apply Qabs_nonneg|].
  rewrite Hcat, Hpol.
  destruct (Num.gtb (fst blob) (1 # 10)) eqn:Hg.
  - apply gtb_spec in Hg.
    split; [intros _; apply (pyround_ge 3 100); [reflexivity | apply Qlt_le_weak, Hg]|].
    split; refute.
  - assert (Hg' : (fst blob <= 1 # 10)%Q).
    { apply Qnot_lt_le. intros Hc'. apply gtb_spec in Hc'. congruence. }
    destruct (Num.ltb (fst blob) (- (1 # 10))) eqn:Hl.
    + apply ltb_spec in Hl. split; [refute|].
      split; [intros _; apply (pyround_le 3 (-100));
                [reflexivity | apply Qlt_le_weak, Hl]|].
      refute.
    + assert (Hl' : (- (1 # 10) <= fst blob)%Q).
      { apply Qnot_lt_le. intros Hc'. apply ltb_spec in Hc'. congruence. }
      split; [refute|]. split; [refute|]. intros _. split.
      * apply (pyround_ge 3 (-100)); [reflexivity | exact Hl'].
      * apply (pyround_le 3 100); [reflexivity | exact Hg'].
Qed.

Lemma sample_sentiment_result_eq :
  Sentiment.analyze_sentiment ascii_unicode plain_nlp
    (PStr (txt "I definitely improved the results")) (PStr (txt "00:01"))
  = sample_sentiment_result.
Proof. vm_compute. reflexivity. Qed.

Lemma sentiment_result_invariants_witness :
  exists o ft s c p w,
    Sentiment.analyze_sentiment ascii_unicode plain_nlp
      (PStr (txt "I definitely improved the results")) (PStr (txt "00:01"))
    = Sentiment.Success (PStr (txt "00:01")) o ft s c p w /\
    1 <= Sentiment.filtered_words w /\
    length (Sentiment.most_common_words w) <= 5.
Proof.
  pose proof sample_sentiment_result_eq as E. unfold sample_sentiment_result in E.
  do 6 eexists. split; [exact E|].
  pose proof (sentiment_result_invariants _ _ _ _ _ _ _ _ _ _ _ E) as H.
  exact (conj (proj1 (proj2 (proj2 H)))
              (proj1 (proj2 (proj2 (proj2 (proj2 H)))))).
Defined.

(** ** Sentiment scorer: summary *)

Lemma sentiment_valid_success (a : Sentiment.result) :
  Sentiment.is_valid a = true ->
  exists ts o ft s c p w, a = Sentiment.Success ts o ft s c p w.
Proof. destruct a; [discriminate | intros _; eauto 10]. Qed.

Lemma sentiment_average_returns (l : list Sentiment.result)
    (f : Sentiment.result -> exc Q) :
  l <> [] ->
  (forall a, In a l -> exists b, f a = Ok b) ->
  exists x, Sentiment.average l f = Ok x.
Proof.
  intros Hne Hf. unfold Sentiment.average.
  destruct (map_exc_returns f l Hf) as (xs & -> & _). cbn [bind].
  rewrite pydiv_ok; [eauto|].
  apply of_nat_nonzero. destruct l; [contradiction | simpl; lia].
Qed.

(** The trend is computed without a division by zero: with two polarities or
    more, neither half is empty. *)
Lemma trend_of_returns (polarities : list Q) :
  exists t,
    Sentiment.trend_of polarities = Ok t /\
    (t = "improving" \/ t = "declining" \/ t = "stable") /\
    (length polarities < 2 -> t = "stable").
Proof.
  unfold Sentiment.trend_of.
  destruct (1 <? length polarities) eqn:Hlen.
  - apply Nat.ltb_lt in Hlen.
    assert (Hhalf : 1 <= length polarities / 2)
      by (apply Nat.div_le_lower_bound; lia).
    assert (Hrest : 1 <= length polarities - length polarities / 2).
    { assert (length polarities / 2 < length polarities)
        by (apply Nat.div_lt; lia). lia. }
    rewrite !pydiv_ok by (apply of_nat_nonzero; lia). cbn [bind].
    destruct (Num.gtb _ _); [eexists; split; [reflexivity|split; [tauto|lia]]|].
    destruct (Num.gtb _ _); eexists; (split; [reflexivity|split; [tauto|lia]]).
  - eexists. split; [reflexivity|]. split; [tauto | reflexivity].
Qed.

(** X14. [get_overall_sentiment_summary] returns for every list of results,
    and never raises: no average and no half of the trend divides by zero.
    It returns [None] for the empty list only, the error summary exactly when
    the list is not empty and holds error results only, and otherwise a
    summary whose [total_analyses] is the number of results without error and
    whose trend is [improving], [declining] or [stable], and [stable] when
    fewer than two results are without error.  Error results do not change
    the summary. *)
Theorem sentiment_summary_spec (analyses : list Sentiment.result) :
  let valid := List.filter Sentiment.is_valid analyses in
  (exists r,
     Sentiment.get_overall_sentiment_summary analyses = Ok r /\
     match r with
     | NoSummary => analyses = []
     | SummaryError msg =>
         analyses <> [] /\ valid = [] /\ msg = "No valid analyses to summarize"
     | Summary s =>
         valid <> [] /\
         Sentiment.total_analyses s = length valid /\
         (Sentiment.sentiment_trend s = "improving"
          \/ Sentiment.sentiment_trend s = "declining"
          \/ Sentiment.sentiment_trend s = "stable") /\
         (length valid < 2 -> Sentiment.sentiment_trend s = "stable")
     end) /\
  (valid <> [] ->
   Sentiment.get_overall_sentiment_summary analyses
   = Sentiment.get_overall_sentiment_summary valid).
Proof.
  cbv zeta. split.
  - unfold Sentiment.get_overall_sentiment_summary.
    destruct analyses as [|a0 l0]; [eexists; split; reflexivity|].
    set (analyses := a0 :: l0).
    destruct (List.filter Sentiment.is_valid analyses) as [|v vs] eqn:Hvalid.
    { eexists. split; [reflexivity|]. repeat split. discriminate. }
    rewrite <- Hvalid.
    assert (Hne : List.filter Sentiment.is_valid analyses <> [])
      by (rewrite Hvalid; discriminate).
    assert (Hok : forall a, In a (List.filter Sentiment.is_valid analyses) ->
                  exists ts o ft s c p w, a = Sentiment.Success ts o ft s c p w).
    { intros a Ha. apply sentiment_valid_success. eapply filter_all_true, Ha. }
    repeat
      (match goal with
       | |- context [bind (Sentiment.average ?l ?f) _] =>
           let x := fresh "x" in
           let Hx := fresh "Hx" in
           destruct (sentiment_average_returns l f Hne) as [x Hx];
           [intros a Ha; destruct (Hok a Ha) as (? & ? & ? & ? & ? & ? & ? & ->);
            cbn [Sentiment.field]; eauto
           | rewrite Hx; cbn [bind]]
       end).
    match goal with
    | |- context [bind (map_exc ?f ?l) _] =>
        destruct (map_exc_returns f l) as (pols & Hpols & Hlen);
        [intros a Ha; destruct (Hok a Ha) as (? & ? & ? & ? & ? & ? & ? & ->);
         cbn [Sentiment.field]; eauto
        | rewrite Hpols; cbn [bind]]
    end.
    destruct (trend_of_returns pols) as (t & Ht & Hthree & Hstable).
    rewrite Ht. cbn [bind].
    eexists. split; [reflexivity|].
    cbn [Sentiment.total_analyses Sentiment.sentiment_trend].
    split; [exact Hne | split; [reflexivity | split; [exact Hthree|]]].
    intros Hfew. apply Hstable. rewrite Hlen. exact Hfew.
  - intros Hne. unfold Sentiment.get_overall_sentiment_summary.
    destruct analyses as [|a0 l0]; [reflexivity|].
    rewrite filter_idempotent.
    destruct (List.filter Sentiment.is_valid (a0 :: l0)); [contradiction | reflexivity].
Qed.

Section OneResult.

Local Open Scope Q_scope.

(** The average of one number that is already rounded is that number. *)
Lemma average_of_one (nd : nat) (y : Q) :
  Num.pyround nd ((0 + Num.pyround nd y) / Num.of_nat 1) = Num.pyround nd y.
Proof.
  rewrite <- (pyround_idempotent nd y) at 2.
  apply pyround_comp. unfold Num.of_nat. simpl. field.
Qed.

End OneResult.

(** X15. The summary of a single result returned by [analyze_sentiment]
    repeats that result: the four averages are its polarity, subjectivity,
    confidence score and professionalism score, unchanged by the second
    rounding, the trend is [stable] and [total_analyses] is 1. *)
Theorem sentiment_summary_of_one (U : Str.unicode) (E : nlp) (text timestamp ts : pyval)
    (o ft : ustring) (s : Sentiment.sentiment_block)
    (c : Sentiment.confidence_analysis) (p : Sentiment.professionalism_analysis)
    (w : Sentiment.word_analysis) :
  Sentiment.analyze_sentiment U E text timestamp = Sentiment.Success ts o ft s c p w ->
  Sentiment.get_overall_sentiment_summary
    [Sentiment.analyze_sentiment U E text timestamp]
  = Ok (Summary
          {| Sentiment.average_polarity := Sentiment.polarity s;
             Sentiment.average_subjectivity := Sentiment.subjectivity s;
             Sentiment.average_confidence := Sentiment.confidence_score c;
             Sentiment.average_professionalism := Sentiment.professionalism_score p;
             Sentiment.sentiment_trend := "stable";
             Sentiment.total_analyses := 1 |}).
Proof.
  intros H. rewrite H.
  apply analyze_sentiment_success in H
    as (tokens & blob & _ & _ & _ & _ & _ & Hpol & Hsub & _ & _ & Hc & Hp & _).
  unfold Sentiment.analyze_confidence in Hc. rewrite pydiv_max in Hc.
  cbn [bind] in Hc. injection Hc as <-.
  unfold Sentiment.analyze_professionalism in Hp. rewrite pydiv_max in Hp.
  cbn [bind] in Hp. injection Hp as <-.
  unfold Sentiment.get_overall_sentiment_summary, Sentiment.average.
  cbn [List.filter Sentiment.is_valid Sentiment.keys Str.mem existsb String.eqb
       Ascii.eqb Bool.eqb negb orb map_exc Sentiment.field bind length sumQ foldl
       Sentiment.polarity Sentiment.subjectivity
       Sentiment.confidence_score Sentiment.professionalism_score].
  rewrite !pydiv_ok by discriminate. cbn [bind].
  unfold Sentiment.trend_of. cbn [length Nat.ltb Nat.leb bind].
  rewrite Hpol, Hsub, !average_of_one. reflexivity.
Qed.

Lemma sentiment_summary_of_one_witness :
  exists s,
    Sentiment.get_overall_sentiment_summary
      [Sentiment.analyze_sentiment ascii_unicode plain_nlp
         (PStr (txt "I definitely improved the results")) (PStr (txt "00:01"))]
    = Ok (Summary s) /\
    Sentiment.total_analyses s = 1 /\ Sentiment.sentiment_trend s = "stable".
Proof.
  pose proof sample_sentiment_result_eq as E. unfold sample_sentiment_result in E.
  eexists. split.
  - exact (sentiment_summary_of_one _ _ _ _ _ _ _ _ _ _ _ E).
  - split; reflexivity.
Defined.

(** ** Mock facial scorer: what the result holds *)

Section FacialProfile.

Variable G : generator.
Hypothesis Hok : generator_ok G.

Local Open Scope Q_scope.

(** The optional secondary expression. *)
Lemma secondary_returns (primary_expression : string) (coin : Q) :
  Facial.returns G
    (if Num.gtb coin (6 # 10)
     then
       Facial.rbind G
         (Facial.choice G
            (List.filter (fun e => negb (String.eqb e primary_expression))
               Facial.expressions))
         (fun secondary =>
            Facial.rbind G (Facial.uniform3 G (3 # 10) (6 # 10))
              (fun c =>
                 Facial.ret G
                   [ {| Facial.expression_name := secondary;
                        Facial.expression_confidence := c |} ]))
     else Facial.ret G [])
    (fun sec =>
       sec = [] \/
       exists e c,
         sec = [ {| Facial.expression_name := e;
                    Facial.expression_confidence := c |} ] /\
         In e Facial.expressions /\ e <> primary_expression /\
         3 # 10 <= c /\ c <= 6 # 10).
Proof.
  destruct (Num.gtb coin (6 # 10)); [|apply returns_ret; now left].
  eapply returns_bind;
    [apply returns_choice; [exact Hok | apply other_expressions_nonempty]|].
  intros secondary Hsec. cbv beta in Hsec.
  apply filter_In in Hsec as [Hin Hne].
  eapply returns_bind;
    [apply (returns_uniform3 G Hok 300 600); [reflexivity | reflexivity | discriminate]|].
  intros c [Hc0 Hc1]. apply returns_ret. right. exists secondary, c.
  split; [reflexivity|]. split; [exact Hin|]. split; [|split; assumption].
  intros ->. rewrite String.eqb_refl in Hne. discriminate.
Qed.

(** Everything the body of the [try] block establishes about its result. *)
Lemma facial_try_profile (timestamp image_data : pyval) :
  Facial.returns G (Facial.analyze_facial_expression_try G timestamp image_data)
    (fun r =>
       exists pe conf sec lvl es eye eys up lean sl tilt raw,
         r = Facial.Success timestamp
               {| Facial.primary := {| Facial.expression_name := pe;
                                       Facial.expression_confidence := conf |};
                  Facial.secondary := sec |}
               {| Facial.engagement_level := lvl; Facial.engagement_score := es |}
               {| Facial.eye_contact_pattern := eye; Facial.eye_contact_score := eys |}
               {| Facial.upright := up; Facial.leaning_forward := lean;
                  Facial.slouching := sl; Facial.head_tilt := tilt |}
               {| Facial.professionalism_score := Num.pyround 3 raw;
                  Facial.professionalism_rating := Facial.rating_of raw |}
               "mockup" (truthy image_data) /\
         In pe Facial.expressions /\
         (sec = [] \/
          exists e c,
            sec = [ {| Facial.expression_name := e;
                       Facial.expression_confidence := c |} ] /\
            In e Facial.expressions /\ e <> pe /\ 3 # 10 <= c /\ c <= 6 # 10) /\
         (lvl = "low" /\ 2 # 10 <= es /\ es <= 4 # 10 \/
          lvl = "medium" /\ 4 # 10 <= es /\ es <= 7 # 10 \/
          lvl = "high" /\ 7 # 10 <= es /\ es <= 9 # 10) /\
         (eye = "poor" /\ 1 # 10 <= eys /\ eys <= 3 # 10 \/
          eye = "intermittent" /\ 3 # 10 <= eys /\ eys <= 5 # 10 \/
          eye = "good" /\ 5 # 10 <= eys /\ eys <= 8 # 10 \/
          eye = "excellent" /\ 8 # 10 <= eys /\ eys <= 1) /\
         In tilt ["none"; "slight_left"; "slight_right"; "forward"] /\
         raw = sumQ [ if up then 1 else 7 # 10;
                      if Str.mem eye ["good"; "excellent"] then 1 else 6 # 10;
                      if Str.mem pe ["confident"; "focused"; "engaged"]
                      then 1 else 8 # 10;
                      if negb sl then 1 else 5 # 10 ] / Num.of_nat 4).
Proof.
  unfold Facial.analyze_facial_expression_try.
  eapply returns_bind; [apply returns_choice; [exact Hok | discriminate]|].
  intros primary_expression Hpe. cbv beta in Hpe.
  eapply returns_bind;
    [apply (returns_uniform3 G Hok 700 950); [reflexivity | reflexivity | discriminate]|].
  intros confidence _.
  eapply returns_bind; [apply (returns_random G Hok)|]. intros coin _.
  eapply returns_bind; [apply secondary_returns|].
  intros secondary_expressions Hsec. cbv beta in Hsec.
  eapply returns_bind; [apply returns_choice; [exact Hok | discriminate]|].
  intros engagement_level Hlevel. cbv beta in Hlevel.
  eapply returns_bind;
    [apply (returns_uniform3 G Hok 200 400); [reflexivity | reflexivity | discriminate]|].
  intros low Hlow. cbv beta in Hlow.
  eapply returns_bind;
    [apply (returns_uniform3 G Hok 400 700); [reflexivity | reflexivity | discriminate]|].
  intros medium Hmedium. cbv beta in Hmedium.
  eapply returns_bind;
    [apply (returns_uniform3 G Hok 700 900); [reflexivity | reflexivity | discriminate]|].
  intros high Hhigh. cbv beta in Hhigh.
  eapply (returns_bind G _ _
            (fun es => engagement_level = "low" /\ 2 # 10 <= es /\ es <= 4 # 10 \/
                       engagement_level = "medium" /\ 4 # 10 <= es /\ es <= 7 # 10 \/
                       engagement_level = "high" /\ 7 # 10 <= es /\ es <= 9 # 10)).
  { destruct Hlevel as [<-|[<-|[<-|[]]]];
      (eapply returns_lift; [reflexivity | tauto]). }
  intros engagement_score Hes.
  eapply returns_bind; [apply returns_choice; [exact Hok | discriminate]|].
  intros eye_contact Heye. cbv beta in Heye.
  eapply returns_bind;
    [apply (returns_uniform3 G Hok 100 300); [reflexivity | reflexivity | discriminate]|].
  intros poor Hpoor. cbv beta in Hpoor.
  eapply returns_bind;
    [apply (returns_uniform3 G Hok 300 500); [reflexivity | reflexivity | discriminate]|].
  intros intermittent Hinter. cbv beta in Hinter.
  eapply returns_bind;
    [apply (returns_uniform3 G Hok 500 800); [reflexivity | reflexivity | discriminate]|].
  intros good Hgood. cbv beta in Hgood.
  eapply returns_bind;
    [apply (returns_uniform3 G Hok 800 1000); [reflexivity | reflexivity | discriminate]|].
  intros excellent Hexc. cbv beta in Hexc.
  eapply (returns_bind G _ _
            (fun eys => eye_contact = "poor" /\ 1 # 10 <= eys /\ eys <= 3 # 10 \/
                        eye_contact = "intermittent" /\ 3 # 10 <= eys /\ eys <= 5 # 10 \/
                        eye_contact = "good" /\ 5 # 10 <= eys /\ eys <= 8 # 10 \/
                        eye_contact = "excellent" /\ 8 # 10 <= eys /\ eys <= 1)).
  { destruct Heye as [<-|[<-|[<-|[<-|[]]]]];
      (eapply returns_lift; [reflexivity | tauto]). }
  intros eye_contact_score Heys.
  eapply returns_bind; [apply (returns_random G Hok)|]. intros r_upright _.
  eapply returns_bind; [apply (returns_random G Hok)|]. intros r_leaning _.
  eapply returns_bind; [apply (returns_random G Hok)|]. intros r_slouching _.
  eapply returns_bind; [apply returns_choice; [exact Hok | discriminate]|].
  intros tilt Htilt. cbv beta in Htilt.
  cbn [Facial.upright Facial.slouching].
  eapply (returns_bind G _ _ (fun p => p = _)).
  { eapply returns_lift; [apply pydiv_ok; discriminate | reflexivity]. }
  intros professionalism_score ->.
  apply returns_ret.
  exists primary_expression, confidence, secondary_expressions, engagement_level,
    engagement_score, eye_contact, eye_contact_score,
    (Num.gtb r_upright (3 # 10)), (Num.gtb r_leaning (7 # 10)),
    (Num.gtb r_slouching (8 # 10)), tilt.
  eexists. split; [reflexivity|].
  split; [exact Hpe|]. split; [exact Hsec|]. split; [exact Hes|].
  split; [exact Heys|]. split; [exact Htilt | reflexivity].
Qed.

End FacialProfile.

Lemma facial_profile (G : generator) (timestamp image_data : pyval) (s : gstate G) :
  generator_ok G ->
  exists pe conf sec lvl es eye eys up lean sl tilt raw s',
    Facial.analyze_facial_expression G timestamp image_data s
    = (Facial.Success timestamp
         {| Facial.primary := {| Facial.expression_name := pe;
                                 Facial.expression_confidence := conf |};
            Facial.secondary := sec |}
         {| Facial.engagement_level := lvl; Facial.engagement_score := es |}
         {| Facial.eye_contact_pattern := eye; Facial.eye_contact_score := eys |}
         {| Facial.upright := up; Facial.leaning_forward := lean;
            Facial.slouching := sl; Facial.head_tilt := tilt |}
         {| Facial.professionalism_score := Num.pyround 3 raw;
            Facial.professionalism_rating := Facial.rating_of raw |}
         "mockup" (truthy image_data), s') /\
    In pe Facial.expressions /\
    (sec = [] \/
     exists e c,
       sec = [ {| Facial.expression_name := e;
                  Facial.expression_confidence := c |} ] /\
       In e Facial.expressions /\ e <> pe /\ (3 # 10 <= c)%Q /\ (c <= 6 # 10)%Q) /\
    (lvl = "low" /\ (2 # 10 <= es)%Q /\ (es <= 4 # 10)%Q \/
     lvl = "medium" /\ (4 # 10 <= es)%Q /\ (es <= 7 # 10)%Q \/
     lvl = "high" /\ (7 # 10 <= es)%Q /\ (es <= 9 # 10)%Q) /\
    (eye = "poor" /\ (1 # 10 <= eys)%Q /\ (eys <= 3 # 10)%Q \/
     eye = "intermittent" /\ (3 # 10 <= eys)%Q /\ (eys <= 5 # 10)%Q \/
     eye = "good" /\ (5 # 10 <= eys)%Q /\ (eys <= 8 # 10)%Q \/
     eye = "excellent" /\ (8 # 10 <= eys)%Q /\ (eys <= 1)%Q) /\
    In tilt ["none"; "slight_left"; "slight_right"; "forward"] /\
    raw = (sumQ [ if up then 1 else 7 # 10;
                  if Str.mem eye ["good"; "excellent"] then 1 else 6 # 10;
                  if Str.mem pe ["confident"; "focused"; "engaged"]
                  then 1 else 8 # 10;
                  if negb sl then 1 else 5 # 10 ] / Num.of_nat 4)%Q.
Proof.
  intros Hok.
  destruct (facial_try_profile G Hok timestamp image_data s)
    as (r & s' & Hr & pe & conf & sec & lvl & es & eye & eys & up & lean & sl
        & tilt & raw & -> & H).
  exists pe, conf, sec, lvl, es, eye, eys, up, lean, sl, tilt, raw, s'.
  unfold Facial.analyze_facial_expression. rewrite Hr. split; [reflexivity | exact H].
Qed.

(** X16. Whatever the random source produces, the engagement level is one of
    [low], [medium], [high] and the engagement score lies in the band of that
    level (0.2 to 0.4, 0.4 to 0.7, 0.7 to 0.9); the eye-contact pattern is
    one of [poor], [intermittent], [good], [excellent] and its score lies in
    the band of that pattern (0.1 to 0.3, 0.3 to 0.5, 0.5 to 0.8, 0.8 to
    1.0). *)
Theorem engagement_and_eye_contact_bands (G : generator)
    (timestamp image_data : pyval) (s : gstate G) :
  generator_ok G ->
  exists face engaged eyes body prof s',
    Facial.analyze_facial_expression G timestamp image_data s
    = (Facial.Success timestamp face engaged eyes body prof "mockup"
         (truthy image_data), s') /\
    (let level := Facial.engagement_level engaged in
     let score := Facial.engagement_score engaged in
     level = "low" /\ (2 # 10 <= score)%Q /\ (score <= 4 # 10)%Q \/
     level = "medium" /\ (4 # 10 <= score)%Q /\ (score <= 7 # 10)%Q \/
     level = "high" /\ (7 # 10 <= score)%Q /\ (score <= 9 # 10)%Q) /\
    (let pattern := Facial.eye_contact_pattern eyes in
     let score := Facial.eye_contact_score eyes in
     pattern = "poor" /\ (1 # 10 <= score)%Q /\ (score <= 3 # 10)%Q \/
     pattern = "intermittent" /\ (3 # 10 <= score)%Q /\ (score <= 5 # 10)%Q \/
     pattern = "good" /\ (5 # 10 <= score)%Q /\ (score <= 8 # 10)%Q \/
     pattern = "excellent" /\ (8 # 10 <= score)%Q /\ (score <= 1)%Q).
Proof.
  intros Hok.
  destruct (facial_profile G timestamp image_data s Hok)
    as (pe & conf & sec & lvl & es & eye & eys & up & lean & sl & tilt & raw & s'
        & -> & _ & _ & Hes & Heys & _).
  do 6 eexists. split; [reflexivity|]. split; [exact Hes | exact Heys].
Qed.

Lemma engagement_and_eye_contact_bands_witness :
  exists face engaged eyes body prof s',
    Facial.analyze_facial_expression lcg (PStr (txt "00:01")) PNone 42%Z
    = (Facial.Success (PStr (txt "00:01")) face engaged eyes body prof "mockup" false, s') /\
    (let level := Facial.engagement_level engaged in
     let score := Facial.engagement_score engaged in
     level = "low" /\ (2 # 10 <= score)%Q /\ (score <= 4 # 10)%Q \/
     level = "medium" /\ (4 # 10 <= score)%Q /\ (score <= 7 # 10)%Q \/
     level = "high" /\ (7 # 10 <= score)%Q /\ (score <= 9 # 10)%Q) /\
    (let pattern := Facial.eye_contact_pattern eyes in
     let score := Facial.eye_contact_score eyes in
     pattern = "poor" /\ (1 # 10 <= score)%Q /\ (score <= 3 # 10)%Q \/
     pattern = "intermittent" /\ (3 # 10 <= score)%Q /\ (score <= 5 # 10)%Q \/
     pattern = "good" /\ (5 # 10 <= score)%Q /\ (score <= 8 # 10)%Q \/
     pattern = "excellent" /\ (8 # 10 <= score)%Q /\ (score <= 1)%Q).
Proof.
  exact (engagement_and_eye_contact_bands lcg (PStr (txt "00:01")) PNone 42%Z lcg_ok).
Defined.

(** X17. Whatever the random source produces, the primary expression is one
    of the ten expressions; [secondary] holds at most one entry, and that
    entry is one of the ten expressions, is not the primary one, and has a
    confidence between 0.3 and 0.6; [head_tilt] is one of [none],
    [slight_left], [slight_right], [forward]. *)
Theorem expressions_and_posture_labels (G : generator)
    (timestamp image_data : pyval) (s : gstate G) :
  generator_ok G ->
  exists face engaged eyes body prof s',
    Facial.analyze_facial_expression G timestamp image_data s
    = (Facial.Success timestamp face engaged eyes body prof "mockup"
         (truthy image_data), s') /\
    In (Facial.expression_name (Facial.primary face)) Facial.expressions /\
    length (Facial.secondary face) <= 1 /\
    (forall e, In e (Facial.secondary face) ->
       In (Facial.expression_name e) Facial.expressions /\
       Facial.expression_name e <> Facial.expression_name (Facial.primary face) /\
       (3 # 10 <= Facial.expression_confidence e)%Q /\
       (Facial.expression_confidence e <= 6 # 10)%Q) /\
    In (Facial.head_tilt body) ["none"; "slight_left"; "slight_right"; "forward"].
Proof.
  intros Hok.
  destruct (facial_profile G timestamp image_data s Hok)
    as (pe & conf & sec & lvl & es & eye & eys & up & lean & sl & tilt & raw & s'
        & -> & Hpe & Hsec & _ & _ & Htilt & _).
  do 6 eexists. split; [reflexivity|].
  cbn [Facial.primary Facial.secondary Facial.expression_name Facial.head_tilt].
  split; [exact Hpe|].
  destruct Hsec as [->|(e & c & -> & He & Hne & Hc0 & Hc1)].
  - split; [simpl; lia|]. split; [intros e []|exact Htilt].
  - split; [simpl; lia|]. split; [|exact Htilt].
    intros e' [<-|[]]. cbn [Facial.expression_name Facial.expression_confidence].
    auto.
Qed.

Lemma expressions_and_posture_labels_witness :
  exists face engaged eyes body prof s',
    Facial.analyze_facial_expression lcg (PStr (txt "00:01")) PNone 42%Z
    = (Facial.Success (PStr (txt "00:01")) face engaged eyes body prof "mockup" false, s') /\
    In (Facial.expression_name (Facial.primary face)) Facial.expressions /\
    length (Facial.secondary face) <= 1 /\
    (forall e, In e (Facial.secondary face) ->
       In (Facial.expression_name e) Facial.expressions /\
       Facial.expression_name e <> Facial.expression_name (Facial.primary face) /\
       (3 # 10 <= Facial.expression_confidence e)%Q /\
       (Facial.expression_confidence e <= 6 # 10)%Q) /\
    In (Facial.head_tilt body) ["none"; "slight_left"; "slight_right"; "forward"].
Proof.
  exact (expressions_and_posture_labels lcg (PStr (txt "00:01")) PNone 42%Z lcg_ok).
Defined.

(** The sixteen values of the professionalism score before rounding. *)
Lemma professionalism_cases (up eyes_ok expr_ok sl : bool) :
  let raw := (sumQ [ if up then 1 else 7 # 10;
                     if eyes_ok then 1 else 6 # 10;
                     if expr_ok then 1 else 8 # 10;
                     if negb sl then 1 else 5 # 10 ] / Num.of_nat 4)%Q in
  (65 # 100 <= Num.pyround 3 raw)%Q /\ (Num.pyround 3 raw <= 1)%Q /\
  (Facial.rating_of raw = "excellent" \/ Facial.rating_of raw = "good") /\
  (up = true -> sl = false -> eyes_ok = true -> Facial.rating_of raw = "excellent").
Proof.
  cbv zeta. destruct up, eyes_ok, expr_ok, sl;
    (split; [vm_compute; discriminate|]);
    (split; [vm_compute; discriminate|]);
    (split; [vm_compute; tauto|]);
    solve [intros _ _ _; vm_compute; reflexivity | intros [=] | intros _ [=]
          | intros _ _ [=]].
Qed.

(** X18. Whatever the random source produces, the professionalism score is
    between 0.65 and 1.0 (the four factors are at least 0.7, 0.6, 0.8 and
    0.5), so the rating is [excellent] or [good] and never
    [needs_improvement]; it is [excellent] whenever the posture is upright and
    not slouching and the eye contact is [good] or [excellent]. *)
Theorem professionalism_never_needs_improvement (G : generator)
    (timestamp image_data : pyval) (s : gstate G) :
  generator_ok G ->
  exists face engaged eyes body prof s',
    Facial.analyze_facial_expression G timestamp image_data s
    = (Facial.Success timestamp face engaged eyes body prof "mockup"
         (truthy image_data), s') /\
    (65 # 100 <= Facial.professionalism_score prof)%Q /\
    (Facial.professionalism_score prof <= 1)%Q /\
    (Facial.professionalism_rating prof = "excellent"
     \/ Facial.professionalism_rating prof = "good") /\
    (Facial.upright body = true -> Facial.slouching body = false ->
     Str.mem (Facial.eye_contact_pattern eyes) ["good"; "excellent"] = true ->
     Facial.professionalism_rating prof = "excellent").
Proof.
  intros Hok.
  destruct (facial_profile G timestamp image_data s Hok)
    as (pe & conf & sec & lvl & es & eye & eys & up & lean & sl & tilt & raw & s'
        & -> & _ & _ & _ & _ & _ & ->).
  do 6 eexists. split; [reflexivity|].
  cbn [Facial.professionalism_score Facial.professionalism_rating Facial.upright
       Facial.slouching Facial.eye_contact_pattern].
  apply professionalism_cases.
Qed.

Lemma professionalism_never_needs_improvement_witness :
  exists face engaged eyes body prof s',
    Facial.analyze_facial_expression lcg (PStr (txt "00:01")) PNone 42%Z
    = (Facial.Success (PStr (txt "00:01")) face engaged eyes body prof "mockup" false, s') /\
    (65 # 100 <= Facial.professionalism_score prof)%Q /\
    (Facial.professionalism_score prof <= 1)%Q /\
    (Facial.professionalism_rating prof = "excellent"
     \/ Facial.professionalism_rating prof = "good") /\
    (Facial.upright body = true -> Facial.slouching body = false ->
     Str.mem (Facial.eye_contact_pattern eyes) ["good"; "excellent"] = true ->
     Facial.professionalism_rating prof = "excellent").
Proof.
  exact (professionalism_never_needs_improvement lcg (PStr (txt "00:01")) PNone 42%Z lcg_ok).
Defined.

(** X19. The mock scorer does not look at its arguments: from the same
    generator state, two calls with different timestamps and images draw the
    same numbers, leave the generator in the same state, and return results
    that differ in [timestamp] and [image_processed] only.  This holds for
    every random source, also one that makes the scorer fail. *)
Theorem facial_ignores_image (G : generator)
    (timestamp image_data timestamp' image_data' : pyval) (s : gstate G) :
  let r := Facial.analyze_facial_expression G timestamp' image_data' s in
  Facial.analyze_facial_expression G timestamp image_data s
  = (facial_with_inputs timestamp image_data (fst r), snd r).
Proof.
  cbv zeta.
  unfold Facial.analyze_facial_expression, Facial.analyze_facial_expression_try,
    Facial.rbind.
  repeat
    (match goal with
     | |- context [match ?m s with _ => _ end] => destruct (m s) as [[?|? ?] ?]
     | |- context [match ?m ?s0 with (_, _) => _ end] =>
         destruct (m s0) as [[?|? ?] ?]
     end; try reflexivity).
Qed.

(** ** Mock facial scorer: summary *)

Lemma facial_valid_success (a : Facial.result) :
  Facial.is_valid a = true ->
  exists ts fe en ey po pr k ip, a = Facial.Success ts fe en ey po pr k ip.
Proof. destruct a; [discriminate | intros _; eauto 10]. Qed.

Lemma facial_average_returns (l : list Facial.result) (f : Facial.result -> exc Q) :
  l <> [] ->
  (forall a, In a l -> exists b, f a = Ok b) ->
  exists x, Facial.average l f = Ok x.
Proof.
  intros Hne Hf. unfold Facial.average.
  destruct (map_exc_returns f l Hf) as (xs & -> & _). cbn [bind].
  rewrite pydiv_ok; [eauto|].
  apply of_nat_nonzero. destruct l; [contradiction | simpl; lia].
Qed.

(** The loop of [max(items, key=...)]: [best] is the first entry with the
    largest count among those seen. *)
Lemma max_loop (seen_before seen_after rest : list (string * nat))
    (best : string * nat) :
  (forall e, In e seen_before -> snd e < snd best) ->
  (forall e, In e seen_after -> snd e <= snd best) ->
  let m := foldl (fun best y => if snd best <? snd y then y else best) best rest in
  exists before after,
    seen_before ++ best :: seen_after ++ rest = before ++ m :: after /\
    (forall e, In e before -> snd e < snd m) /\
    (forall e, In e after -> snd e <= snd m).
Proof.
  cbv zeta. revert seen_before seen_after best.
  induction rest as [|y rest IH]; intros seen_before seen_after best Hb Ha.
  - exists seen_before, seen_after. rewrite app_nil_r. auto.
  - cbn [foldl]. destruct (snd best <? snd y) eqn:Hlt.
    + apply Nat.ltb_lt in Hlt.
      destruct (IH (seen_before ++ best :: seen_after) [] y)
        as (before & after & Heq & H1 & H2).
      * intros e He. apply in_app_iff in He as [He|[<-|He]];
          [specialize (Hb e He); lia | exact Hlt | specialize (Ha e He); lia].
      * intros e [].
      * exists before, after. split; [|split; assumption].
        rewrite <- Heq, <- app_assoc. reflexivity.
    + apply Nat.ltb_ge in Hlt.
      destruct (IH seen_before (seen_after ++ [y]) best Hb)
        as (before & after & Heq & H1 & H2).
      * intros e He. apply in_app_iff in He as [He|[<-|[]]];
          [apply Ha, He | exact Hlt].
      * exists before, after. split; [|split; assumption].
        rewrite <- Heq, <- app_assoc. reflexivity.
Qed.

Lemma max_by_count_spec (items : list (string * nat)) :
  items <> [] ->
  exists m before after,
    Facial.max_by_count items = Some m /\
    items = before ++ m :: after /\
    (forall e, In e before -> snd e < snd m) /\
    (forall e, In e after -> snd e <= snd m).
Proof.
  destruct items as [|x rest]; [contradiction|]. intros _.
  destruct (max_loop [] [] rest x) as (before & after & Heq & H1 & H2);
    [intros e [] | intros e [] |].
  cbn [app] in Heq. eexists _, before, after.
  split; [reflexivity|]. split; [exact Heq | split; assumption].
Qed.

(** X20. [get_facial_summary] returns for every list of results, and never
    raises.  It returns [None] for the empty list only, the error summary
    exactly when the list is not empty and holds error results only, and
    otherwise a summary in which [total_analyses] is the number of results
    without error, [expression_distribution] holds distinct expressions with
    positive counts that add up to [total_analyses], and the most common
    expression is the first entry of the distribution with the largest
    count, so that the [('neutral', 0)] default is never returned.  Error
    results do not change the summary. *)
Theorem facial_summary_spec (analyses : list Facial.result) :
  let valid := List.filter Facial.is_valid analyses in
  (exists r,
     Facial.get_facial_summary analyses = Ok r /\
     match r with
     | NoSummary => analyses = []
     | SummaryError msg =>
         analyses <> [] /\ valid = [] /\
         msg = "No valid facial analyses to summarize"
     | Summary s =>
         valid <> [] /\
         Facial.total_analyses s = length valid /\
         NoDup (map fst (Facial.expression_distribution s)) /\
         (forall e, In e (Facial.expression_distribution s) -> 1 <= snd e) /\
         list_sum (map snd (Facial.expression_distribution s))
         = Facial.total_analyses s /\
         1 <= Facial.expression_frequency s /\
         exists before after,
           Facial.expression_distribution s
           = before
             ++ (Facial.most_common_expression s, Facial.expression_frequency s)
             :: after /\
           (forall e, In e before -> snd e < Facial.expression_frequency s) /\
           (forall e, In e after -> snd e <= Facial.expression_frequency s)
     end) /\
  (valid <> [] ->
   Facial.get_facial_summary analyses = Facial.get_facial_summary valid).
Proof.
  cbv zeta. split.
  - unfold Facial.get_facial_summary.
    destruct analyses as [|a0 l0]; [eexists; split; reflexivity|].
    set (analyses := a0 :: l0).
    destruct (List.filter Facial.is_valid analyses) as [|v vs] eqn:Hvalid.
    { eexists. split; [reflexivity|]. repeat split. discriminate. }
    rewrite <- Hvalid.
    assert (Hne : List.filter Facial.is_valid analyses <> [])
      by (rewrite Hvalid; discriminate).
    assert (Hok : forall a, In a (List.filter Facial.is_valid analyses) ->
                  exists ts fe en ey po pr k ip,
                    a = Facial.Success ts fe en ey po pr k ip).
    { intros a Ha. apply facial_valid_success. eapply filter_all_true, Ha. }
    match goal with
    | |- context [bind (map_exc ?f ?l) _] =>
        destruct (map_exc_returns f l) as (exprs & Hexprs & Hlen);
        [intros a Ha;
         destruct (Hok a Ha) as (? & ? & ? & ? & ? & ? & ? & ? & ->);
         cbn [Facial.field]; eauto
        | rewrite Hexprs; cbn [bind]]
    end.
    repeat
      (match goal with
       | |- context [bind (Facial.average ?l ?f) _] =>
           let x := fresh "x" in
           let Hx := fresh "Hx" in
           destruct (facial_average_returns l f Hne) as [x Hx];
           [intros a Ha;
            destruct (Hok a Ha) as (? & ? & ? & ? & ? & ? & ? & ? & ->);
            cbn [Facial.field]; eauto
           | rewrite Hx; cbn [bind]]
       end).
    destruct (counter_loop String.eqb String.eqb_eq exprs []) as (Hnd & _ & Hsum & Hpos & _).
    specialize (Hnd NoDup_nil_2). specialize (Hpos (List.Forall_nil _)).
    cbv zeta in Hnd, Hsum, Hpos.
    set (counts := foldl (fun c e => counter_add String.eqb e c) [] exprs) in *.
    assert (Hpos' : forall e, In e counts -> 1 <= snd e).
    { intros e He. rewrite Forall_forall in Hpos. apply Hpos.
      now apply list_elem_of_In. }
    assert (Hcounts : counts <> []).
    { intros Hnil. rewrite Hnil in Hsum. simpl in Hsum.
      rewrite Hvalid in Hlen. simpl in Hlen. lia. }
    destruct (max_by_count_spec counts Hcounts)
      as (m & before & after & Hmax & Heq & Hbefore & Hafter).
    rewrite Hmax.
    eexists. split; [reflexivity|].
    cbn [Facial.total_analyses Facial.expression_distribution
         Facial.expression_frequency Facial.most_common_expression].
    split; [exact Hne|]. split; [reflexivity|]. split; [exact Hnd|].
    split; [exact Hpos'|].
    split; [rewrite Hsum, <- Hlen; reflexivity|].
    split.
    { apply Hpos'. rewrite Heq. apply in_app_iff. right. now left. }
    exists before, after. split; [|split; assumption].
    rewrite Heq. destruct m; reflexivity.
  - intros Hne. unfold Facial.get_facial_summary.
    destruct analyses as [|a0 l0]; [reflexivity|].
    rewrite filter_idempotent.
    destruct (List.filter Facial.is_valid (a0 :: l0)); [contradiction | reflexivity].
Qed.

(** ** Averages *)

Section Averages.

Local Open Scope Q_scope.

Lemma of_nat_succ (n : nat) : Num.of_nat (S n) == Num.of_nat n + 1.
Proof.
  unfold Num.of_nat. rewrite Nat2Z.inj_succ. unfold Z.succ.
  rewrite inject_Z_plus. reflexivity.
Qed.

(** The sum of numbers between [lo] and [hi]. *)
Lemma sum_bounds (lo hi : Q) (l : list Q) (acc : Q) :
  (forall x, In x l -> lo <= x /\ x <= hi) ->
  acc + Num.of_nat (length l) * lo <= foldl Qplus acc l /\
  foldl Qplus acc l <= acc + Num.of_nat (length l) * hi.
Proof.
  revert acc. induction l as [|x l IH]; intros acc H.
  - cbn [foldl length].
    assert (E0 : forall c, acc + Num.of_nat 0 * c == acc)
      by (intros c; unfold Num.of_nat; simpl; ring).
    rewrite !E0. split; apply Qle_refl.
  - cbn [foldl length].
    destruct (H x (or_introl eq_refl)) as [Hlo Hhi].
    destruct (IH (acc + x) (fun y Hy => H y (or_intror Hy))) as [IHlo IHhi].
    assert (Elo : Num.of_nat (S (length l)) * lo == Num.of_nat (length l) * lo + lo)
      by (rewrite of_nat_succ; ring).
    assert (Ehi : Num.of_nat (S (length l)) * hi == Num.of_nat (length l) * hi + hi)
      by (rewrite of_nat_succ; ring).
    rewrite Elo, Ehi.
    generalize dependent (Num.of_nat (length l) * lo).
    generalize dependent (Num.of_nat (length l) * hi).
    intros. split; lra.
Qed.

(** The mean of numbers between [lo] and [hi] is between [lo] and [hi]. *)
Lemma mean_bounds (lo hi : Q) (l : list Q) (n : nat) :
  (0 < n)%nat -> length l = n ->
  (forall x, In x l -> lo <= x /\ x <= hi) ->
  lo <= sumQ l / Num.of_nat n /\ sumQ l / Num.of_nat n <= hi.
Proof.
  intros Hn Hlen H. unfold sumQ.
  destruct (sum_bounds lo hi l 0 H) as [Hlo Hhi]. rewrite Hlen in Hlo, Hhi.
  assert (Hd : 0 < Num.of_nat n) by (apply of_nat_pos, Hn).
  split.
  - apply Qle_shift_div_l; [exact Hd|]. rewrite Qmult_comm.
    rewrite Qplus_0_l in Hlo. exact Hlo.
  - apply Qle_shift_div_r; [exact Hd|]. rewrite Qmult_comm.
    rewrite Qplus_0_l in Hhi. exact Hhi.
Qed.

End Averages.

Lemma map_exc_returns_all {A B : Type} (f : A -> exc B) (P : B -> Prop)
    (l : list A) :
  (forall a, In a l -> exists b, f a = Ok b /\ P b) ->
  exists bs, map_exc f l = Ok bs /\ length bs = length l /\
             forall b, In b bs -> P b.
Proof.
  induction l as [|a l IH]; intros H; simpl.
  - exists []. split; [reflexivity|]. split; [reflexivity | intros b []].
  - destruct (H a (or_introl eq_refl)) as (b & -> & Hb).
    destruct IH as (bs & -> & Hlen & Hbs); [intros x Hx; apply H; now right|].
    exists (b :: bs). split; [reflexivity|]. split; [simpl; congruence|].
    intros b' [<-|Hb']; [exact Hb | apply Hbs, Hb'].
Qed.

Lemma facial_average_bounds (l : list Facial.result) (f : Facial.result -> exc Q)
    (lo hi : Q) :
  l <> [] ->
  (forall a, In a l -> exists b, f a = Ok b /\ (lo <= b)%Q /\ (b <= hi)%Q) ->
  exists x, Facial.average l f = Ok x /\ (lo <= x)%Q /\ (x <= hi)%Q.
Proof.
  intros Hne Hf. unfold Facial.average.
  destruct (map_exc_returns_all f _ l Hf) as (xs & -> & Hlen & Hxs). cbn [bind].
  assert (Hpos : 0 < length l) by (destruct l; [contradiction | simpl; lia]).
  rewrite pydiv_ok by (apply of_nat_nonzero, Hpos).
  eexists. split; [reflexivity|]. apply mean_bounds; assumption.
Qed.

Lemma filter_all {A : Type} (f : A -> bool) (l : list A) :
  (forall a, In a l -> f a = true) -> List.filter f l = l.
Proof.
  induction l as [|a l IH]; intros H; [reflexivity|].
  cbn [List.filter]. rewrite (H a (or_introl eq_refl)).
  f_equal. apply IH. intros x Hx. apply H. now right.
Qed.

Lemma count_le_sum (e : string * nat) (c : list (string * nat)) :
  In e c -> snd e <= list_sum (map snd c).
Proof.
  induction c as [|x c IH]; intros H; [destruct H|].
  destruct H as [->|H]; simpl; [lia | specialize (IH H); lia].
Qed.

Lemma scorer_result_scored (G : generator) (timestamp image_data : pyval)
    (s : gstate G) :
  generator_ok G ->
  scored (fst (Facial.analyze_facial_expression G timestamp image_data s)).
Proof.
  intros Hok.
  destruct (facial_profile G timestamp image_data s Hok)
    as (pe & conf & sec & lvl & es & eye & eys & up & lean & sl & tilt & raw & s'
        & -> & Hpe & _ & Hes & Heys & _ & ->).
  cbn [fst]. unfold scored. do 8 eexists. split; [reflexivity|].
  cbn [Facial.primary Facial.expression_name Facial.engagement_score
       Facial.eye_contact_score Facial.professionalism_score].
  split; [exact Hpe|].
  assert (Hes' : (2 # 10 <= es)%Q /\ (es <= 9 # 10)%Q).
  { destruct Hes as [(_ & H0 & H1)|[(_ & H0 & H1)|(_ & H0 & H1)]]; split; lra. }
  assert (Heys' : (1 # 10 <= eys)%Q /\ (eys <= 1)%Q).
  { destruct Heys as [(_ & H0 & H1)|[(_ & H0 & H1)|[(_ & H0 & H1)|(_ & H0 & H1)]]];
      split; lra. }
  destruct (professionalism_cases up (Str.mem eye ["good"; "excellent"])
              (Str.mem pe ["confident"; "focused"; "engaged"]) sl)
    as (Hp0 & Hp1 & _).
  tauto.
Qed.

(** X21. The summary of results that all come from the scorer is never the
    error summary: it counts every result, its most common expression is one
    of the ten expressions and occurs no more often than there are results,
    and its three averages stay in the ranges of the scores they average
    (engagement 0.2 to 0.9, eye contact 0.1 to 1.0, professionalism 0.65 to
    1.0). *)
Theorem facial_summary_of_scorer_results (G : generator)
    (calls : list (pyval * pyval * gstate G)) :
  generator_ok G ->
  calls <> [] ->
  exists s,
    Facial.get_facial_summary
      (map (fun c => fst (Facial.analyze_facial_expression G (fst (fst c))
                            (snd (fst c)) (snd c))) calls)
    = Ok (Summary s) /\
    Facial.total_analyses s = length calls /\
    In (Facial.most_common_expression s) Facial.expressions /\
    1 <= Facial.expression_frequency s <= length calls /\
    (2 # 10 <= Facial.average_engagement s)%Q /\
    (Facial.average_engagement s <= 9 # 10)%Q /\
    (1 # 10 <= Facial.average_eye_contact s)%Q /\
    (Facial.average_eye_contact s <= 1)%Q /\
    (65 # 100 <= Facial.average_professionalism s)%Q /\
    (Facial.average_professionalism s <= 1)%Q.
Proof.
  intros Hok Hcalls.
  set (results := map _ calls).
  assert (Hscored : forall r, In r results -> scored r).
  { intros r Hr. apply in_map_iff in Hr as (c & <- & _).
    apply scorer_result_scored, Hok. }
  assert (Hlen : length results = length calls) by apply length_map.
  assert (Hne : results <> []).
  { intros Hnil. rewrite Hnil in Hlen. destruct calls; [contradiction | discriminate]. }
  assert (Hvalid : List.filter Facial.is_valid results = results).
  { apply filter_all. intros r Hr.
    destruct (Hscored r Hr) as (? & ? & ? & ? & ? & ? & ? & ? & -> & _).
    reflexivity. }
  clearbody results.
  unfold Facial.get_facial_summary. rewrite Hvalid.
  destruct results as [|r0 rest] eqn:Hres; [contradiction|]. rewrite <- Hres in *.
  clear Hres r0 rest.
  match goal with
  | |- context [bind (map_exc ?f results) _] =>
      destruct (map_exc_returns_all f (fun e => In e Facial.expressions) results)
        as (exprs & Hexprs & Hlen' & Hin);
      [intros a Ha;
       destruct (Hscored a Ha) as (? & ? & ? & ? & ? & ? & ? & ? & -> & ? & _);
       cbn [Facial.field]; eauto
      | rewrite Hexprs; cbn [bind]]
  end.
  match goal with
  | |- context [bind (Facial.average results ?f) _] =>
      destruct (facial_average_bounds results f (2 # 10) (9 # 10) Hne)
        as (eng & Heng & Heng0 & Heng1);
      [intros a Ha;
       destruct (Hscored a Ha) as (? & ? & ? & ? & ? & ? & ? & ? & -> & ?);
       cbn [Facial.field]; eexists; split; [reflexivity | tauto]
      | rewrite Heng; cbn [bind]]
  end.
  match goal with
  | |- context [bind (Facial.average results ?f) _] =>
      destruct (facial_average_bounds results f (1 # 10) 1 Hne)
        as (eye & Heye & Heye0 & Heye1);
      [intros a Ha;
       destruct (Hscored a Ha) as (? & ? & ? & ? & ? & ? & ? & ? & -> & ?);
       cbn [Facial.field]; eexists; split; [reflexivity | tauto]
      | rewrite Heye; cbn [bind]]
  end.
  match goal with
  | |- context [bind (Facial.average results ?f) _] =>
      destruct (facial_average_bounds results f (65 # 100) 1 Hne)
        as (pro & Hpro & Hpro0 & Hpro1);
      [intros a Ha;
       destruct (Hscored a Ha) as (? & ? & ? & ? & ? & ? & ? & ? & -> & ?);
       cbn [Facial.field]; eexists; split; [reflexivity | tauto]
      | rewrite Hpro; cbn [bind]]
  end.
  destruct (counter_loop String.eqb String.eqb_eq exprs []) as (_ & Hget & Hsum & Hpos & _).
  specialize (Hpos (List.Forall_nil _)). cbv zeta in Hget, Hsum, Hpos.
  set (counts := foldl (fun c e => counter_add String.eqb e c) [] exprs) in *.
  assert (Hpos' : forall e, In e counts -> 0 < snd e).
  { intros e He. rewrite Forall_forall in Hpos. apply Hpos.
    now apply list_elem_of_In. }
  assert (Hcounts : counts <> []).
  { intros Hnil. rewrite Hnil in Hsum. simpl in Hsum.
    destruct results; [contradiction | simpl in Hlen'; lia]. }
  destruct (max_by_count_spec counts Hcounts)
    as ([name freq] & before & after & Hmax & Heq & _).
  rewrite Hmax.
  assert (Hm : In (name, freq) counts).
  { rewrite Heq. apply in_app_iff. right. now left. }
  eexists. split; [reflexivity|].
  cbn [Facial.total_analyses Facial.most_common_expression
       Facial.expression_frequency Facial.average_engagement
       Facial.average_eye_contact Facial.average_professionalism fst snd].
  split; [exact Hlen|].
  split.
  { apply Hin. apply (occurrences_positive String.eqb String.eqb_eq).
    rewrite <- (Nat.add_0_l (length (List.filter (String.eqb name) exprs))).
    change 0 with (counter_get String.eqb name []) at 2. rewrite <- Hget.
    apply (counter_get_positive String.eqb String.eqb_eq); [exact Hpos'|].
    apply in_map_iff. exists (name, freq). split; [reflexivity | exact Hm]. }
  split.
  { split; [exact (Hpos' _ Hm)|].
    pose proof (count_le_sum _ _ Hm) as Hle. cbn [snd] in Hle.
    rewrite Hsum in Hle. simpl in Hle. lia. }
  split; [apply (pyround_ge 3 200); [reflexivity | exact Heng0]|].
  split; [apply (pyround_le 3 900); [reflexivity | exact Heng1]|].
  split; [apply (pyround_ge 3 100); [reflexivity | exact Heye0]|].
  split; [apply (pyround_le 3 1000); [reflexivity | exact Heye1]|].
  split; [apply (pyround_ge 3 650); [reflexivity | exact Hpro0]|].
  apply (pyround_le 3 1000); [reflexivity | exact Hpro1].
Qed.

Lemma facial_summary_of_scorer_results_witness :
  exists s,
    Facial.get_facial_summary
      [fst (Facial.analyze_facial_expression lcg (PStr (txt "00:01")) PNone 42%Z);
       fst (Facial.analyze_facial_expression lcg (PStr (txt "00:02")) PNone 43%Z)]
    = Ok (Summary s) /\
    Facial.total_analyses s = 2.
Proof.
  destruct (facial_summary_of_scorer_results lcg
              [(PStr (txt "00:01"), PNone, 42%Z); (PStr (txt "00:02"), PNone, 43%Z)]
              lcg_ok ltac:(discriminate)) as (s & Hs & Htotal & _).
  exists s. split; [exact Hs | exact Htotal].
Defined.

(** ** The dispatcher: status codes *)

Section RouteFacts.

Variable E : nlp.
Variable G : generator.

Lemma dict_get_other (data : pyval) (key : string) (default : pyval) :
  is_dict data = false ->
  App.dict_get data key default
  = Raise "AttributeError"
      ("'" +:+ type_name data +:+ "' object has no attribute 'get'").
Proof. destruct data; [reflexivity .. | discriminate]. Qed.

(** Each route, by cases on the body. *)
Lemma sentiment_route_cases (U : Str.unicode) (data : pyval) (s : gstate G) :
  let text := get_or data "text" (PStr []) in
  let timestamp := get_or data "timestamp" PNone in
  App.analyze_sentiment U E G data s
  = (if is_dict data
     then if truthy text
          then (App.SentimentBody (Sentiment.analyze_sentiment U E text timestamp), 200)
          else (App.ErrorBody "Text is required", 400)
     else (App.ErrorBody "Sentiment analysis failed", 500), s).
Proof.
  cbv zeta. unfold App.analyze_sentiment, App.guarded.
  destruct (is_dict data) eqn:Hd.
  - destruct data; try discriminate. unfold get_or. cbn [App.dict_get bind].
    destruct (truthy _); reflexivity.
  - rewrite (dict_get_other data "text" _ Hd). reflexivity.
Qed.

Lemma voice_route_cases (U : Str.unicode) (data : pyval) (s : gstate G) :
  let text := get_or data "text" (PStr []) in
  let timestamp := get_or data "timestamp" PNone in
  let duration := get_or data "duration" PNone in
  App.analyze_voice U G data s
  = (if is_dict data
     then if truthy text
          then (App.VoiceBody (Voice.analyze_voice U text timestamp duration), 200)
          else (App.ErrorBody "Text is required", 400)
     else (App.ErrorBody "Voice analysis failed", 500), s).
Proof.
  cbv zeta. unfold App.analyze_voice, App.guarded.
  destruct (is_dict data) eqn:Hd.
  - destruct data; try discriminate. unfold get_or. cbn [App.dict_get bind].
    destruct (truthy _); reflexivity.
  - rewrite (dict_get_other data "text" _ Hd). reflexivity.
Qed.

Lemma facial_route_cases (data : pyval) (s : gstate G) :
  let timestamp := get_or data "timestamp" PNone in
  let image_data := get_or data "image_data" PNone in
  let r := Facial.analyze_facial_expression G timestamp image_data s in
  App.analyze_facial G data s
  = if is_dict data
    then if truthy timestamp
         then ((App.FacialBody (fst r), 200), snd r)
         else ((App.ErrorBody "Timestamp is required", 400), s)
    else ((App.ErrorBody "Facial analysis failed", 500), s).
Proof.
  cbv zeta. unfold App.analyze_facial, App.guarded.
  destruct (is_dict data) eqn:Hd.
  - destruct data; try discriminate. unfold get_or. cbn [App.dict_get bind].
    destruct (truthy _); reflexivity.
  - rewrite (dict_get_other data "timestamp" _ Hd). reflexivity.
Qed.

Lemma comprehensive_route_cases (U : Str.unicode) (data : pyval) (s : gstate G) :
  let text := get_or data "text" (PStr []) in
  let timestamp := get_or data "timestamp" PNone in
  let duration := get_or data "duration" PNone in
  let image_data := get_or data "image_data" PNone in
  let r := Facial.analyze_facial_expression G timestamp image_data s in
  App.comprehensive_analysis U E G data s
  = if is_dict data
    then if truthy text && truthy timestamp
         then ((App.ComprehensiveBody timestamp
                  (Sentiment.analyze_sentiment U E text timestamp)
                  (Voice.analyze_voice U text timestamp duration) (fst r), 200),
               snd r)
         else ((App.ErrorBody "Text and timestamp are required", 400), s)
    else ((App.ErrorBody "Comprehensive analysis failed", 500), s).
Proof.
  cbv zeta. unfold App.comprehensive_analysis, App.guarded.
  destruct (is_dict data) eqn:Hd.
  - destruct data; try discriminate. unfold get_or. cbn [App.dict_get bind].
    destruct (truthy _), (truthy _); reflexivity.
  - rewrite (dict_get_other data "text" _ Hd). reflexivity.
Qed.

End RouteFacts.

(** Closes the conjuncts that hold by computing the status. *)
Ltac settle :=
  solve [ reflexivity | refute | intros _; reflexivity | intros _ [=]
        | split; refute
        | split; [intros _; auto | intros _; reflexivity]
        | split; [refute | intros [[=] _]]
        | split; [refute | intros [_ [=]]] ].

(** X22. The sentiment route answers 500 exactly when the body is not a JSON
    object, 400 exactly when it is an object whose [text] is missing or
    falsy, and 200 otherwise, with the result of [analyze_sentiment] as the
    body: a failure inside the scorer comes back as the error dict under
    status 200, never as a 500.  The body is a full analysis exactly when
    [text] is a non-empty string, the tokenizer and the estimator return and
    the filtered text has a visible character.  The route does not touch the
    random generator. *)
Theorem sentiment_route_spec (U : Str.unicode) (E : nlp) (G : generator) (data : pyval)
    (s : gstate G) :
  let text := get_or data "text" (PStr []) in
  let timestamp := get_or data "timestamp" PNone in
  let out := App.analyze_sentiment U E G data s in
  let status := snd (fst out) in
  snd out = s /\
  (status = 500 <-> is_dict data = false) /\
  (status = 400 <-> is_dict data = true /\ truthy text = false) /\
  (status = 200 <-> is_dict data = true /\ truthy text = true) /\
  (status = 500 -> fst (fst out) = App.ErrorBody "Sentiment analysis failed") /\
  (status = 400 -> fst (fst out) = App.ErrorBody "Text is required") /\
  (status = 200 ->
   fst (fst out) = App.SentimentBody (Sentiment.analyze_sentiment U E text timestamp)) /\
  ((exists r, fst (fst out) = App.SentimentBody r /\ Sentiment.is_valid r = true)
   <-> is_dict data = true /\
       exists t tokens ft blob,
         text = PStr t /\ t <> [] /\
         Sentiment.filter_text U E (PStr t) = Ok (tokens, ft) /\
         Str.all_space ft = false /\
         textblob_sentiment E ft = Ok blob).
Proof.
  cbv zeta. rewrite sentiment_route_cases.
  destruct (is_dict data); cbn [fst snd].
  2: { do 7 (split; [settle|]).
       split; [intros (r & Hr & _); discriminate Hr | intros [[=] _]]. }
  destruct (truthy (get_or data "text" (PStr []))) eqn:Ht; cbn [fst snd].
  - do 7 (split; [settle|]). split.
    + intros (r & [= <-] & Hvalid). split; [reflexivity|].
      destruct (Sentiment.analyze_sentiment U E _ _) as [|ts o ft sb c p w] eqn:Hs;
        [discriminate|].
      apply analyze_sentiment_success in Hs
        as (tokens & blob & Htext & _ & Hf & Hv & Hb & _).
      exists o, tokens, ft, blob. split; [exact Htext|].
      split; [|auto]. intros ->. rewrite Htext in Ht. discriminate.
    + intros (_ & t & tokens & ft & blob & Htext & _ & Hf & Hv & Hb).
      rewrite Htext.
      destruct (analyze_sentiment_returns U E t
                  (get_or data "timestamp" PNone) tokens ft blob Hf Hv Hb)
        as (sb & c & p & w & Hs).
      eexists. split; [reflexivity|]. rewrite Hs. reflexivity.
  - do 7 (split; [settle|]). split.
    + intros (r & Hr & _). discriminate Hr.
    + intros (_ & t & tokens & ft & blob & Htext & Hne & _).
      rewrite Htext in Ht. destruct t; [contradiction | discriminate].
Qed.

(** X23. The voice route answers 500 exactly when the body is not a JSON
    object, 400 exactly when it is an object whose [text] is missing or
    falsy, and 200 otherwise, with the result of [analyze_voice] as the body:
    a failure inside the scorer comes back as the error dict under status
    200.  The body is a full analysis exactly when [text] is a string that
    is not blank (it has a character that is not whitespace, of the
    whitespace of Unicode) and [duration] is missing, falsy, a number or a
    boolean.  The route does not touch the random generator. *)
Theorem voice_route_spec (U : Str.unicode) (G : generator) (data : pyval) (s : gstate G) :
  let text := get_or data "text" (PStr []) in
  let timestamp := get_or data "timestamp" PNone in
  let duration := get_or data "duration" PNone in
  let out := App.analyze_voice U G data s in
  let status := snd (fst out) in
  snd out = s /\
  (status = 500 <-> is_dict data = false) /\
  (status = 400 <-> is_dict data = true /\ truthy text = false) /\
  (status = 200 <-> is_dict data = true /\ truthy text = true) /\
  (status = 500 -> fst (fst out) = App.ErrorBody "Voice analysis failed") /\
  (status = 400 -> fst (fst out) = App.ErrorBody "Text is required") /\
  (status = 200 ->
   fst (fst out) = App.VoiceBody (Voice.analyze_voice U text timestamp duration)) /\
  ((exists r, fst (fst out) = App.VoiceBody r /\ Voice.is_valid r = true)
   <-> is_dict data = true /\
       exists t,
         text = PStr t /\ ~ blank t /\
         (truthy duration = false \/ numeric duration = true)).
Proof.
  cbv zeta. rewrite voice_route_cases.
  destruct (is_dict data); cbn [fst snd].
  2: { do 7 (split; [settle|]).
       split; [intros (r & Hr & _); discriminate Hr | intros [[=] _]]. }
  destruct (truthy (get_or data "text" (PStr []))) eqn:Ht; cbn [fst snd].
  - do 7 (split; [settle|]). split.
    + intros (r & [= <-] & Hvalid). split; [reflexivity|].
      destruct (Voice.analyze_voice U _ _ _) as [|ts p f pa cc q] eqn:Hv;
        [discriminate|].
      apply analyze_voice_success in Hv as (t & Htext & Hs & _ & Hp & _).
      exists t. split; [exact Htext|].
      split; [intros Hb; apply blank_spec in Hb; congruence|].
      destruct (truthy (get_or data "duration" PNone)) eqn:Hd; [right | now left].
      destruct (numeric (get_or data "duration" PNone)) eqn:Hn; [reflexivity|].
      destruct (pace_raises t _ Hd Hn) as (kind & msg & Hr). congruence.
    + intros (_ & t & Htext & Hs & Hd). rewrite Htext.
      destruct (pace_returns t _ Hd) as [p Hp].
      assert (Hw : Str.split t <> []).
      { intros Hnil. apply Hs, blank_spec, split_nil, Hnil. }
      destruct (analyze_voice_returns U t (get_or data "timestamp" PNone) _ p Hw Hp)
        as (f & pa & cc & q & Hv).
      eexists. split; [reflexivity|]. rewrite Hv. reflexivity.
  - do 7 (split; [settle|]). split.
    + intros (r & Hr & _). discriminate Hr.
    + intros (_ & t & Htext & Hs & _).
      rewrite Htext in Ht. destruct t; [|discriminate].
      exfalso. apply Hs. constructor.
Qed.

(** X24. The facial route answers 500 exactly when the body is not a JSON
    object, 400 exactly when it is an object whose [timestamp] is missing or
    falsy, and 200 otherwise, with the result of [analyze_facial_expression]
    as the body.  It draws from the random generator on the 200 path only;
    and with a generator that keeps its ranges, a 200 response always
    carries a full analysis with the timestamp of the request. *)
Theorem facial_route_spec (G : generator) (data : pyval) (s : gstate G) :
  let timestamp := get_or data "timestamp" PNone in
  let image_data := get_or data "image_data" PNone in
  let r := Facial.analyze_facial_expression G timestamp image_data s in
  let out := App.analyze_facial G data s in
  let status := snd (fst out) in
  (status = 500 <-> is_dict data = false) /\
  (status = 400 <-> is_dict data = true /\ truthy timestamp = false) /\
  (status = 200 <-> is_dict data = true /\ truthy timestamp = true) /\
  (status = 500 -> out = ((App.ErrorBody "Facial analysis failed", 500), s)) /\
  (status = 400 -> out = ((App.ErrorBody "Timestamp is required", 400), s)) /\
  (status = 200 -> out = ((App.FacialBody (fst r), 200), snd r)) /\
  (generator_ok G -> status = 200 ->
   Facial.is_valid (fst r) = true /\ Facial.timestamp_of (fst r) = timestamp).
Proof.
  cbv zeta. rewrite facial_route_cases.
  destruct (is_dict data); cbn [fst snd].
  2: { do 6 (split; [settle|]). settle. }
  destruct (truthy (get_or data "timestamp" PNone)) eqn:Ht; cbn [fst snd].
  - do 6 (split; [settle|]). intros Hok _.
    destruct (facial_profile G (get_or data "timestamp" PNone)
                (get_or data "image_data" PNone) s Hok)
      as (pe & conf & sec & lvl & es & eye & eys & up & lean & sl & tilt & raw & s'
          & -> & _).
    split; reflexivity.
  - do 6 (split; [settle|]). settle.
Qed.

(** X25. The comprehensive route answers 500 exactly when the body is not a
    JSON object, 400 exactly when it is an object in which [text] or
    [timestamp] is missing or falsy, and 200 otherwise.  On the 400 and 500
    paths no scorer runs and the random generator is left as it was.  With a
    generator that keeps its ranges, the [facial] field of a 200 response is
    never the error dict: only the [sentiment] and [voice] fields can report
    a failure. *)
Theorem comprehensive_route_status (U : Str.unicode) (E : nlp) (G : generator) (data : pyval)
    (s : gstate G) :
  let text := get_or data "text" (PStr []) in
  let timestamp := get_or data "timestamp" PNone in
  let out := App.comprehensive_analysis U E G data s in
  let status := snd (fst out) in
  (status = 500 <-> is_dict data = false) /\
  (status = 400 <->
   is_dict data = true /\ (truthy text = false \/ truthy timestamp = false)) /\
  (status = 200 <->
   is_dict data = true /\ truthy text = true /\ truthy timestamp = true) /\
  (status = 500 ->
   out = ((App.ErrorBody "Comprehensive analysis failed", 500), s)) /\
  (status = 400 ->
   out = ((App.ErrorBody "Text and timestamp are required", 400), s)) /\
  (generator_ok G -> status = 200 ->
   exists sentiment voice facial,
     fst (fst out) = App.ComprehensiveBody timestamp sentiment voice facial /\
     Facial.is_valid facial = true).
Proof.
  cbv zeta. rewrite comprehensive_route_cases.
  destruct (is_dict data); cbn [fst snd].
  2: { do 5 (split; [settle|]). settle. }
  destruct (truthy (get_or data "text" (PStr []))) eqn:Ht;
    destruct (truthy (get_or data "timestamp" PNone)) eqn:Hts;
    cbn [andb fst snd].
  - split; [settle|]. split; [split; [refute | intros [_ [[=]|[=]]]]|].
    split; [split; [intros _; auto | intros _; reflexivity]|].
    split; [settle|]. split; [settle|]. intros Hok _.
    destruct (facial_profile G (get_or data "timestamp" PNone)
                (get_or data "image_data" PNone) s Hok)
      as (pe & conf & sec & lvl & es & eye & eys & up & lean & sl & tilt & raw & s'
          & -> & _).
    do 3 eexists. split; reflexivity.
  - split; [settle|]. split; [split; [intros _; auto | intros _; reflexivity]|].
    split; [split; [refute | intros (_ & _ & [=])]|].
    split; [settle|]. split; [settle|]. settle.
  - split; [settle|]. split; [split; [intros _; auto | intros _; reflexivity]|].
    split; [split; [refute | intros (_ & [=] & _)]|].
    split; [settle|]. split; [settle|]. settle.
  - split; [settle|]. split; [split; [intros _; auto | intros _; reflexivity]|].
    split; [split; [refute | intros (_ & [=] & _)]|].
    split; [settle|]. split; [settle|]. settle.
Qed.

(** X26. The comprehensive route is the three single routes put together: it
    answers 200 exactly when the sentiment route and the facial route both
    do (the voice route then does too), and its [sentiment], [voice] and
    [facial] fields are then the bodies of those three responses; it leaves
    the random generator in the state the facial route leaves it in.  It
    answers 500 exactly when each single route does. *)
Theorem comprehensive_combines_routes (U : Str.unicode) (E : nlp) (G : generator) (data : pyval)
    (s : gstate G) :
  let out := App.comprehensive_analysis U E G data s in
  let sentiment := App.analyze_sentiment U E G data s in
  let voice := App.analyze_voice U G data s in
  let facial := App.analyze_facial G data s in
  (snd (fst out) = 200 <->
   snd (fst sentiment) = 200 /\ snd (fst facial) = 200) /\
  (snd (fst out) = 200 ->
   exists r1 r2 r3,
     fst sentiment = (App.SentimentBody r1, 200) /\
     fst voice = (App.VoiceBody r2, 200) /\
     fst facial = (App.FacialBody r3, 200) /\
     fst (fst out)
     = App.ComprehensiveBody (get_or data "timestamp" PNone) r1 r2 r3 /\
     snd out = snd facial) /\
  (snd (fst out) = 500 <->
   snd (fst sentiment) = 500 /\ snd (fst voice) = 500 /\ snd (fst facial) = 500) /\
  (snd (fst out) <> 200 -> snd out = s).
Proof.
  cbv zeta.
  rewrite comprehensive_route_cases, sentiment_route_cases, voice_route_cases,
    facial_route_cases.
  destruct (is_dict data); cbn [fst snd].
  2: { split; [split; [refute | intros [[=] _]]|]. split; [refute|].
       split; [split; auto|]. reflexivity. }
  destruct (truthy (get_or data "text" (PStr [])));
    destruct (truthy (get_or data "timestamp" PNone)); cbn [andb fst snd].
  - split; [split; auto|]. split.
    + intros _. do 3 eexists. repeat split.
    + split; [split; [refute | intros [[=] _]]|]. intros H. now contradiction H.
  - split; [split; [refute | intros [_ [=]]]|]. split; [refute|].
    split; [split; [refute | intros [[=] _]]|]. reflexivity.
  - split; [split; [refute | intros [[=] _]]|]. split; [refute|].
    split; [split; [refute | intros [[=] _]]|]. reflexivity.
  - split; [split; [refute | intros [[=] _]]|]. split; [refute|].
    split; [split; [refute | intros [[=] _]]|]. reflexivity.
Qed.

(** ** Summaries of what the scorers return *)

Lemma voice_average_bounds (l : list Voice.result) (f : Voice.result -> exc Q)
    (lo hi : Q) :
  l <> [] ->
  (forall a, In a l -> exists b, f a = Ok b /\ (lo <= b)%Q /\ (b <= hi)%Q) ->
  exists x, Voice.average l f = Ok x /\ (lo <= x)%Q /\ (x <= hi)%Q.
Proof.
  intros Hne Hf. unfold Voice.average.
  destruct (map_exc_returns_all f _ l Hf) as (xs & -> & Hlen & Hxs). cbn [bind].
  assert (Hpos : 0 < length l) by (destruct l; [contradiction | simpl; lia]).
  rewrite pydiv_ok by (apply of_nat_nonzero, Hpos).
  eexists. split; [reflexivity|]. apply mean_bounds; assumption.
Qed.

(** The scores of a full dict returned by [analyze_voice]. *)
Lemma voice_scores_in_range (U : Str.unicode) (text timestamp duration ts : pyval)
    (p : Voice.speaking_pace) (f : Voice.filler_analysis)
    (pa : Voice.pause_analysis) (cc : Voice.confidence_clarity)
    (q : Voice.voice_quality) :
  Voice.analyze_voice U text timestamp duration = Voice.Success ts p f pa cc q ->
  ((-1 <= Voice.confidence_score (Voice.confidence cc))%Q /\
   (Voice.confidence_score (Voice.confidence cc) <= 1)%Q) /\
  ((-1 <= Voice.clarity_score (Voice.clarity cc))%Q /\
   (Voice.clarity_score (Voice.clarity cc) <= 1)%Q) /\
  ((7 # 40 <= Voice.quality_score q)%Q /\ (Voice.quality_score q <= 1)%Q).
Proof.
  intros Hv.
  apply analyze_voice_success in Hv as (s & -> & Hs & _ & Hp & _ & _ & Hcc & ->).
  destruct (confidence_clarity_in_range U s) as (cc' & Hcc' & H1 & H2 & H3 & H4).
  rewrite Hcc in Hcc'. apply Ok_inj in Hcc'. subst cc'.
  destruct (voice_overall_bounds p f cc H1 H2 H3 H4) as [Hlo Hhi].
  cbn [Voice.quality_score].
  split; [tauto|]. split; [tauto|]. split.
  - apply (pyround_ge 3 175); [reflexivity | exact Hlo].
  - apply (pyround_le 3 1000); [reflexivity | exact Hhi].
Qed.

(** X27. A summary of results that come from [analyze_voice], error dicts
    among them, stays in the ranges of the scores: when [get_voice_summary]
    returns a summary, [total_analyses] is at least 1 and at most the number
    of results, the average confidence and clarity scores are between -1 and
    1, and the overall quality is between 0.175 and 1. *)
Theorem voice_summary_of_scorer_results (U : Str.unicode) (calls : list (pyval * pyval * pyval))
    (s : Voice.voice_summary) :
  Voice.get_voice_summary
    (map (fun c => Voice.analyze_voice U (fst (fst c)) (snd (fst c)) (snd c)) calls)
  = Ok (Summary s) ->
  1 <= Voice.total_analyses s <= length calls /\
  (-1 <= Voice.average_confidence_score s)%Q /\
  (Voice.average_confidence_score s <= 1)%Q /\
  (-1 <= Voice.average_clarity_score s)%Q /\
  (Voice.average_clarity_score s <= 1)%Q /\
  (7 # 40 <= Voice.overall_quality s)%Q /\
  (Voice.overall_quality s <= 1)%Q.
Proof.
  set (results := map _ calls). intros H.
  assert (Hlen : length results = length calls) by apply length_map.
  assert (Hfrom : forall r, In r results ->
            exists text timestamp duration,
              r = Voice.analyze_voice U text timestamp duration).
  { intros r Hr. apply in_map_iff in Hr as (c & <- & _). eauto. }
  clearbody results.
  unfold Voice.get_voice_summary in H.
  destruct results as [|r0 rest] eqn:Hres; [discriminate|]. rewrite <- Hres in *.
  clear Hres r0 rest.
  destruct (List.filter Voice.is_valid results) as [|v vs] eqn:Hvalid;
    [discriminate|].
  rewrite <- Hvalid in H.
  assert (Hne : List.filter Voice.is_valid results <> [])
    by (rewrite Hvalid; discriminate).
  assert (Hcount : 1 <= length (List.filter Voice.is_valid results) <= length calls).
  { split; [rewrite Hvalid; simpl; lia|]. rewrite <- Hlen. apply filter_length_le. }
  assert (Hok : forall a, In a (List.filter Voice.is_valid results) ->
            exists text timestamp duration ts p f pa cc q,
              a = Voice.Success ts p f pa cc q /\
              Voice.analyze_voice U text timestamp duration
              = Voice.Success ts p f pa cc q).
  { intros a Ha. apply filter_In in Ha as [Hin Hv].
    destruct (Hfrom a Hin) as (text & timestamp & duration & Ha).
    destruct (voice_valid_success a Hv) as (ts & p & f & pa & cc & q & Hs).
    exists text, timestamp, duration, ts, p, f, pa, cc, q.
    split; [exact Hs | congruence]. }
  clear Hvalid v vs.
  set (valid := List.filter Voice.is_valid results) in *.
  bind_inv H. clear Ha. bind_inv H. clear Ha.
  match type of H with
  | context [bind (Voice.average valid ?f) _] =>
      destruct (voice_average_bounds valid f (-1) 1 Hne)
        as (conf & Hconf & Hconf0 & Hconf1);
      [intros v Hv;
       destruct (Hok v Hv) as (? & ? & ? & ? & ? & ? & ? & ? & ? & -> & Hs);
       apply voice_scores_in_range in Hs;
       cbn [Voice.field]; eexists; split; [reflexivity | tauto]
      | rewrite Hconf in H; cbn [bind] in H]
  end.
  match type of H with
  | context [bind (Voice.average valid ?f) _] =>
      destruct (voice_average_bounds valid f (-1) 1 Hne)
        as (clar & Hclar & Hclar0 & Hclar1);
      [intros v Hv;
       destruct (Hok v Hv) as (? & ? & ? & ? & ? & ? & ? & ? & ? & -> & Hs);
       apply voice_scores_in_range in Hs;
       cbn [Voice.field]; eexists; split; [reflexivity | tauto]
      | rewrite Hclar in H; cbn [bind] in H]
  end.
  match type of H with
  | context [bind (Voice.average valid ?f) _] =>
      destruct (voice_average_bounds valid f (7 # 40) 1 Hne)
        as (qual & Hqual & Hqual0 & Hqual1);
      [intros v Hv;
       destruct (Hok v Hv) as (? & ? & ? & ? & ? & ? & ? & ? & ? & -> & Hs);
       apply voice_scores_in_range in Hs;
       cbn [Voice.field]; eexists; split; [reflexivity | tauto]
      | rewrite Hqual in H; cbn [bind] in H]
  end.
  apply Ok_inj in H. injection H as <-.
  cbn [Voice.total_analyses Voice.average_confidence_score
       Voice.average_clarity_score Voice.overall_quality].
  split; [exact Hcount|].
  split; [apply (pyround_ge 3 (-1000)); [reflexivity | exact Hconf0]|].
  split; [apply (pyround_le 3 1000); [reflexivity | exact Hconf1]|].
  split; [apply (pyround_ge 3 (-1000)); [reflexivity | exact Hclar0]|].
  split; [apply (pyround_le 3 1000); [reflexivity | exact Hclar1]|].
  split; [apply (pyround_ge 3 175); [reflexivity | exact Hqual0]|].
  apply (pyround_le 3 1000); [reflexivity | exact Hqual1].
Qed.

Lemma sample_voice_summary_eq :
  Voice.get_voice_summary
    (map (fun c => Voice.analyze_voice ascii_unicode (fst (fst c)) (snd (fst c)) (snd c))
       [(PStr (txt "well, I definitely led the team"), PStr (txt "00:01"), PInt 2);
        (PStr [], PStr (txt "00:02"), PNone)])
  = sample_voice_summary.
Proof. vm_compute. reflexivity. Qed.

Lemma voice_summary_of_scorer_results_witness :
  exists s,
    Voice.get_voice_summary
      (map (fun c => Voice.analyze_voice ascii_unicode (fst (fst c)) (snd (fst c)) (snd c))
         [(PStr (txt "well, I definitely led the team"), PStr (txt "00:01"), PInt 2);
          (PStr [], PStr (txt "00:02"), PNone)])
    = Ok (Summary s) /\
    1 <= Voice.total_analyses s <= 2.
Proof.
  pose proof sample_voice_summary_eq as E. unfold sample_voice_summary in E.
  eexists. split; [exact E|].
  exact (proj1 (voice_summary_of_scorer_results _ _ _ E)).
Defined.
